(** * The mining core: pool protocol client, work optimizer, cluster manager

    A shallow embedding of [mining_engine/pool_manager.py],
    [mining_engine/optimizer.py], [orchestrator/cluster_manager.py] and the
    SHA-256 miner and algorithm table of [mining_engine/algorithms.py].

    Conventions of the embedding.
    - Python [int] is [Z]; Python [float] is modelled by the exact
      rationals [Q] (the rounding of the individual IEEE operations is not
      part of the model); [str] is [string].
    - Open-ended payload dicts ([work], [result]) are [gmap string pyval].
    - Calls into the world ([time.time()], [uuid.uuid4()], the HTTP command
      sent to a node) appear as explicit arguments of the operation that
      performs them.
    - An exception is a value [Raise e]; a loop that the source does not
      bound runs on fuel and answers [None] when the fuel is exhausted. *)

From Stdlib Require Import ZArith QArith Qround Qminmax Lqa String Ascii.
From stdpp Require Import base gmap strings list fin_maps pretty.

(** ** Python values and built-ins *)

Module Py.

Inductive pyval : Type :=
| VNone
| VInt (z : Z)
| VFloat (q : Q)
| VStr (s : string).

Abbreviation pydict := (gmap string pyval).

Inductive exn : Type := TypeError | ValueError | ZeroDivisionError.

Inductive outcome (A : Type) : Type :=
| Ret (a : A)
| Raise (e : exn).
Arguments Ret {A} a.
Arguments Raise {A} e.

Definition bind {A B} (m : outcome A) (k : A -> outcome B) : outcome B :=
  match m with
  | Ret a => k a
  | Raise e => Raise e
  end.

(** [d.get(k, dflt)] *)
Definition dict_get (d : pydict) (k : string) (dflt : pyval) : pyval :=
  default dflt (d !! k).

(** [d.update({k1: v1, ...})]: later pairs win, as in a dict literal. *)
Definition dict_update (d : pydict) (kvs : list (string * pyval)) : pydict :=
  fold_left (fun acc kv => <[kv.1 := kv.2]> acc) kvs d.

(** [int(x)] on a float: truncation towards zero. *)
Definition py_int (q : Q) : Z := Z.quot (Qnum q) (Z.pos (Qden q)).

(** [max(a, b)] and [min(a, b)] on two arguments: the first one is kept
    unless the second is strictly greater (resp. smaller). *)
Definition py_max (a b : Q) : Q := if Qlt_le_dec a b then b else a.
Definition py_min (a b : Q) : Q := if Qlt_le_dec b a then b else a.

Definition py_maxZ (a b : Z) : Z := if (a <? b)%Z then b else a.
Definition py_minZ (a b : Z) : Z := if (b <? a)%Z then b else a.

(** *** [hex], slicing, [zfill], [int(s, 16)] *)

Definition hex_digit (n : N) : ascii :=
  match n with
  | 0 => "0" | 1 => "1" | 2 => "2" | 3 => "3" | 4 => "4"
  | 5 => "5" | 6 => "6" | 7 => "7" | 8 => "8" | 9 => "9"
  | 10 => "a" | 11 => "b" | 12 => "c" | 13 => "d" | 14 => "e"
  | _ => "f"
  end%N%char.

Fixpoint hex_of_N_aux (fuel : nat) (n : N) (acc : string) : string :=
  match fuel with
  | O => acc
  | S fuel' =>
      if (n =? 0)%N then acc
      else hex_of_N_aux fuel' (n / 16)%N (String (hex_digit (n mod 16)%N) acc)
  end.

Definition hex_of_N (n : N) : string :=
  if (n =? 0)%N then "0"%string else hex_of_N_aux (N.size_nat n) n EmptyString.

(** [hex(z)]: ["0x..."], with a leading minus sign for a negative number. *)
Definition py_hex (z : Z) : string :=
  if (z <? 0)%Z then ("-0x" ++ hex_of_N (Z.to_N (- z)))%string
  else ("0x" ++ hex_of_N (Z.to_N z))%string.

(** [s[n:]] *)
Fixpoint str_drop (n : nat) (s : string) : string :=
  match n, s with
  | O, _ => s
  | S n', String _ s' => str_drop n' s'
  | S _, EmptyString => EmptyString
  end.

Fixpoint zeros (n : nat) : string :=
  match n with
  | O => EmptyString
  | S n' => String "0"%char (zeros n')
  end.

Definition is_sign (c : ascii) : bool :=
  (Ascii.eqb c "+" || Ascii.eqb c "-")%char.

(** [s.zfill(width)]: pads on the left with ['0'], after a leading sign. *)
Definition zfill (width : nat) (s : string) : string :=
  let n := String.length s in
  if (width <=? n)%nat then s
  else match s with
       | String c rest =>
           if is_sign c then String c (zeros (width - n) ++ rest)%string
           else (zeros (width - n) ++ s)%string
       | EmptyString => zeros width
       end.

Definition hex_val (c : ascii) : option N :=
  let n := N_of_ascii c in
  if ((48 <=? n) && (n <=? 57))%N then Some (n - 48)%N
  else if ((97 <=? n) && (n <=? 102))%N then Some (n - 87)%N
  else if ((65 <=? n) && (n <=? 70))%N then Some (n - 55)%N
  else None.

Fixpoint parse_hex_digits (s : string) (acc : N) : option N :=
  match s with
  | EmptyString => Some acc
  | String c s' =>
      match hex_val c with
      | Some d => parse_hex_digits s' (acc * 16 + d)%N
      | None => None
      end
  end.

Definition strip_0x (s : string) : string :=
  match s with
  | String "0" (String "x" s') => s'
  | String "0" (String "X" s') => s'
  | _ => s
  end%char.

Definition parse_unsigned_hex (s : string) : option N :=
  match strip_0x s with
  | EmptyString => None
  | body => parse_hex_digits body 0%N
  end.

(** [int(s, 16)]: an optional sign, an optional [0x] prefix, then at least
    one hexadecimal digit; [None] stands for [ValueError].  (Surrounding
    white space and digit-group underscores, which Python also accepts, are
    not recognised here; the strings this program produces have neither.) *)
Definition py_int16 (s : string) : option Z :=
  match s with
  | String "-" s' => (fun n => (- Z.of_N n)%Z) <$> parse_unsigned_hex s'
  | String "+" s' => Z.of_N <$> parse_unsigned_hex s'
  | _ => Z.of_N <$> parse_unsigned_hex s
  end%char.

(** [a in b] on strings. *)
Fixpoint str_contains (needle hay : string) : bool :=
  String.prefix needle hay ||
  match hay with
  | EmptyString => false
  | String _ hay' => str_contains needle hay'
  end.

End Py.
Export Py.


(** ** Pool protocol client ([mining_engine/pool_manager.py]) *)

Module Pool.

(** Dict objects live in a store, so that [copy] and aliasing are visible. *)
Abbreviation loc := positive.
Abbreviation store := (gmap positive pydict).

Definition alloc (h : store) (d : pydict) : store * loc :=
  let l := fresh (dom h) in (<[l := d]> h, l).

Record PoolConnection : Type := {
  name : string;
  url : string;
  port : Z;
  username : string;
  password : string;
  connected : bool;
  last_work : option loc;
  last_ping : Q;
  share_count : Z;
  difficulty : Q
}.

Record PoolManager : Type := {
  pools : list (string * PoolConnection);
  active_work : gmap string loc;
  shares_submitted : Z;
  shares_accepted : Z;
  shares_rejected : Z
}.

Definition diff1_target : Z :=
  0x00000000FFFF0000000000000000000000000000000000000000000000000000%Z.

(** [_difficulty_to_target]: [hex(int(diff1_target / difficulty))[2:].zfill(64)]. *)
Definition _difficulty_to_target (difficulty : Q) : outcome string :=
  if Qeq_bool difficulty 0 then Raise ZeroDivisionError
  else
    let target := py_int (inject_Z diff1_target / difficulty) in
    Ret (zfill 64 (str_drop 2 (py_hex target))).

(** [self.pools[name] = pool]: in place when the key exists, appended otherwise. *)
Fixpoint set_pool (n : string) (p : PoolConnection)
    (ps : list (string * PoolConnection)) : list (string * PoolConnection) :=
  match ps with
  | [] => [(n, p)]
  | (n', p') :: ps' =>
      if String.eqb n n' then (n, p) :: ps' else (n', p') :: set_pool n p ps'
  end.


Definition with_last_work (p : PoolConnection) (l : loc) : PoolConnection :=
  {| name := name p; url := url p; port := port p; username := username p;
     password := password p; connected := connected p;
     last_work := Some l; last_ping := last_ping p;
     share_count := share_count p; difficulty := difficulty p |}.


(** The [__dict__] of a freshly built [WorkUnit]. *)
Definition work_unit_dict (job_id data target : string) (now : Q)
    (pool_name : string) (difficulty : Q) : pydict :=
  <["job_id" := VStr job_id]>
  (<["algorithm" := VStr "SHA256"]>
  (<["data" := VStr data]>
  (<["target" := VStr target]>
  (<["height" := VInt 0]>
  (<["timestamp" := VFloat now]>
  (<["pool_name" := VStr pool_name]>
  (<["difficulty" := VFloat difficulty]> ∅))))))).

(** [_handle_mining_notify]: [params] are the strings of the notification
    ([merkle_branch], at index 4, is carried as a string too; it is not
    used); [ntime_default] is [hex(int(time.time()))[2:]].  Any exception is
    caught and leaves the manager as it was. *)
Definition _handle_mining_notify (pm : PoolManager) (h : store)
    (p : PoolConnection) (params : list string) (now : Q)
    (ntime_default : string) : PoolManager * store :=
  if (7 <=? length params)%nat then
    let nth i := nth i params EmptyString in
    let job_id := nth 0%nat in
    let prevhash := nth 1%nat in
    let coinb1 := nth 2%nat in
    let coinb2 := nth 3%nat in
    let version := nth 5%nat in
    let nbits := nth 6%nat in
    let ntime := if (7 <? length params)%nat then nth 7%nat else ntime_default in
    match _difficulty_to_target (difficulty p) with
    | Ret target =>
        let data := (version ++ prevhash ++ coinb1 ++ coinb2 ++ ntime ++ nbits)%string in
        let '(h', l) :=
          alloc h (work_unit_dict job_id data target now (name p) (difficulty p)) in
        ({| pools := set_pool (name p) (with_last_work p l) (pools pm);
            active_work := <[(name p ++ ":" ++ job_id)%string := l]> (active_work pm);
            shares_submitted := shares_submitted pm;
            shares_accepted := shares_accepted pm;
            shares_rejected := shares_rejected pm |}, h')
    | Raise _ => (pm, h)
    end
  else (pm, h).

(** The pool selected by [get_work] and [submit_share]: the first one, in
    insertion order, whose url or name occurs in [pool_url]. *)
Definition find_pool (pm : PoolManager) (pool_url : string) : option PoolConnection :=
  snd <$> List.find (fun np => str_contains (url np.2) pool_url
                               || str_contains (name np.2) pool_url) (pools pm).

(** The ["target"] entry that [get_work] writes: a [str] is parsed as
    hexadecimal, anything else is passed through, absence gives [0]. *)
Definition target_entry (work : pydict) : outcome pyval :=
  match work !! "target" with
  | Some (VStr s) =>
      match py_int16 s with
      | Some z => Ret (VInt z)
      | None => Raise ValueError
      end
  | Some v => Ret v
  | None => Ret (VInt 0)
  end.

(** [get_work].  The result is the location of the returned dict, or [None]. *)
Definition get_work (pm : PoolManager) (h : store) (pool_url : string)
    : store * outcome (option loc) :=
  match find_pool pm pool_url with
  | None => (h, Ret None)
  | Some target_pool =>
      if negb (connected target_pool) then (h, Ret None)
      else
        match last_work target_pool with
        | None => (h, Ret None)
        | Some l =>
            match h !! l with
            | None => (h, Ret None)
            | Some stored =>
                if bool_decide (stored = ∅) then (h, Ret None)
                else
                  (* work = target_pool.last_work.copy() *)
                  let '(h1, w) := alloc h stored in
                  match target_entry stored with
                  | Raise e => (h1, Raise e)
                  | Ret t =>
                      (* work.update({...}) *)
                      (<[w := dict_update stored
                                [("nonce_start", VInt 0);
                                 ("nonce_end", VInt 0xFFFFFFFF);
                                 ("target", t)]]> h1,
                       Ret (Some w))
                  end
            end
        end
  end.

End Pool.

(** ** Work / policy optimizer ([mining_engine/optimizer.py]) *)

Module Optimizer.

Record PerformanceMetric : Type := {
  timestamp : Q;
  hashrate : Q;
  rejection_rate : Q;
  temperature : gmap string Q;
  power_usage : Q;
  algorithm : string;
  pool : string;
  worker_id : string
}.

(** The [metrics] dict handed to [record_performance]; an absent key is [None]. *)
Record Metrics : Type := {
  m_hashrate : option Q;
  m_rejection_rate : option Q;
  m_temperature : option (gmap string Q);
  m_power_usage : option Q;
  m_algorithm : option string;
  m_pool : option string;
  m_worker_id : option string
}.

Record WorkSegment : Type := {
  segment_id : string;
  work_data : pydict;
  nonce_start : Z;
  nonce_end : Z;
  assigned_worker : string
}.

Record AIOptimizer : Type := {
  learning_rate : Q;
  performance_history : list PerformanceMetric;   (* deque(maxlen=1000) *)
  rejection_history : list pydict;                (* deque(maxlen=500) *)
  pool_performance : gmap string (list Q);
  algorithm_performance : gmap string (list Q);
  active_segments : gmap string WorkSegment;
  worker_efficiency : gmap string Q
}.

(** [AIOptimizer.__init__] *)
Definition init (learning_rate : Q) : AIOptimizer :=
  {| learning_rate := learning_rate;
     performance_history := [];
     rejection_history := [];
     pool_performance := ∅;
     algorithm_performance := ∅;
     active_segments := ∅;
     worker_efficiency := ∅ |}.

(** [deque.append] on a deque with [maxlen]: the oldest element falls out. *)
Definition deque_append {A} (maxlen : nat) (l : list A) (x : A) : list A :=
  let l' := l ++ [x] in
  if (maxlen <? length l')%nat then tail l' else l'.

(** [defaultdict(list)[k].append(x)] *)
Definition append_at (m : gmap string (list Q)) (k : string) (x : Q)
    : gmap string (list Q) :=
  <[k := default [] (m !! k) ++ [x]]> m.

(** [self.worker_efficiency.get(worker_id, 1.0)] *)
Definition efficiency_of (opt : AIOptimizer) (w : string) : Q :=
  default 1%Q (worker_efficiency opt !! w).

Definition set_efficiency (opt : AIOptimizer) (w : string) (e : Q) : AIOptimizer :=
  {| learning_rate := learning_rate opt;
     performance_history := performance_history opt;
     rejection_history := rejection_history opt;
     pool_performance := pool_performance opt;
     algorithm_performance := algorithm_performance opt;
     active_segments := active_segments opt;
     worker_efficiency := <[w := e]> (worker_efficiency opt) |}.

(** *** Worker configuration *)

(** The parts of [hardware_info] that [_optimize_worker_configuration] reads:
    [cpu.cores], the list [gpus], and [memory.available] in bytes. *)
Record HardwareInfo : Type := {
  cpu_cores : option Z;
  gpus : list pydict;
  memory_available : option Z
}.

Record WorkerConfig : Type := {
  cpu_threads : Z;
  gpu_intensity : Z
}.

Definition GiB : Z := (1024 ^ 3)%Z.

Definition _optimize_worker_configuration (hardware_info : HardwareInfo)
    (algorithm : string) : WorkerConfig :=
  let cores := default 1%Z (cpu_cores hardware_info) in
  let config := {| cpu_threads := py_maxZ 1 (cores - 1); gpu_intensity := 80 |} in
  if String.eqb algorithm "RandomX" then
    let available_memory_gb :=
      (inject_Z (default 0%Z (memory_available hardware_info)) / inject_Z GiB)%Q in
    (* int(available_memory_gb // 2) *)
    let max_threads_by_memory := Qfloor (available_memory_gb / 2) in
    {| cpu_threads := py_minZ (cpu_threads config) max_threads_by_memory;
       gpu_intensity := 0 |}
  else if String.eqb algorithm "Ethash" then
    {| cpu_threads := 1; gpu_intensity := 100 |}
  else if String.eqb algorithm "SHA256" then
    match gpus hardware_info with
    | [] => config
    | _ :: _ => {| cpu_threads := py_maxZ 1 (cores / 2); gpu_intensity := 90 |}
    end
  else config.

(** *** Work segmentation *)

Definition diff1_target : Z :=
  0x00000000FFFF0000000000000000000000000000000000000000000000000000%Z.

Definition base_sizes : gmap string Z :=
  <["SHA256" := 1000000%Z]>
  (<["RandomX" := 100000%Z]>
  (<["Ethash" := 500000%Z]>
  (<["Scrypt" := 200000%Z]>
  (<["Yescrypt" := 150000%Z]>
  (<["Kawpow" := 300000%Z]>
  (<["X11" := 400000%Z]> ∅)))))).

(** [_calculate_base_segment_size].  [algorithm] and [difficulty] come out of
    the work dict, so they are arbitrary values: only a [str] can be a key of
    [base_sizes], and only a number can be divided. *)
Definition _calculate_base_segment_size (algorithm difficulty : pyval)
    : outcome Z :=
  let base_size :=
    match algorithm with
    | VStr a => default 500000%Z (base_sizes !! a)
    | _ => 500000%Z
    end in
  let ratio :=
    match difficulty with
    | VInt z => Ret (inject_Z z / inject_Z diff1_target)%Q
    | VFloat q => Ret (q / inject_Z diff1_target)%Q
    | _ => Raise TypeError
    end in
  bind ratio (fun r =>
    let difficulty_factor := py_min 2 (py_max (1 # 10) r) in
    Ret (py_int (inject_Z base_size * difficulty_factor))).

(** One segment dict: [work.copy()] updated with the four keys. *)
Definition segment_dict (work : pydict) (worker_id : string)
    (current_nonce segment_end segment_id : Z) : pydict :=
  dict_update work
    [("nonce_start", VInt current_nonce);
     ("nonce_end", VInt segment_end);
     ("segment_id", VStr (worker_id ++ "_" ++ pretty segment_id));
     ("original_work_id", dict_get work "job_id" (VStr "unknown"))].

(** The [while current_nonce < nonce_end] loop.  [active] is
    [self.active_segments]; the list is [segments], in the order of the
    appends. *)
Fixpoint segment_loop (fuel : nat) (work : pydict) (worker_id : string)
    (adjusted_segment_size nonce_end : Z)
    (active : gmap string WorkSegment) (current_nonce segment_id : Z)
    : option (gmap string WorkSegment * list pydict) :=
  if (current_nonce <? nonce_end)%Z then
    match fuel with
    | O => None
    | S fuel' =>
        let segment_end :=
          py_minZ (current_nonce + adjusted_segment_size) nonce_end in
        let segment_work :=
          segment_dict work worker_id current_nonce segment_end segment_id in
        let sid := (worker_id ++ "_" ++ pretty segment_id)%string in
        let work_segment :=
          {| segment_id := sid; work_data := segment_work;
             nonce_start := current_nonce; nonce_end := segment_end;
             assigned_worker := worker_id |} in
        match segment_loop fuel' work worker_id adjusted_segment_size nonce_end
                (<[sid := work_segment]> active)
                (segment_end + 1) (segment_id + 1) with
        | Some (active', segments) => Some (active', segment_work :: segments)
        | None => None
        end
    end
  else Some (active, []).

Inductive seg_result : Type :=
| Segments (opt : AIOptimizer) (segments : list pydict)
| SegRaise (e : exn)
| SegOutOfFuel
| SegNotIntRange.   (* a nonce bound that is not an int: outside this model *)

Definition with_active (opt : AIOptimizer) (a : gmap string WorkSegment)
    : AIOptimizer :=
  {| learning_rate := learning_rate opt;
     performance_history := performance_history opt;
     rejection_history := rejection_history opt;
     pool_performance := pool_performance opt;
     algorithm_performance := algorithm_performance opt;
     active_segments := a;
     worker_efficiency := worker_efficiency opt |}.

(** [int(base_segment_size * worker_efficiency)] *)
Definition adjusted_size (base_segment_size : Z) (worker_efficiency : Q) : Z :=
  py_int (inject_Z base_segment_size * worker_efficiency).

Definition segment_work (fuel : nat) (opt : AIOptimizer) (work : pydict)
    (worker_id : string) : seg_result :=
  let algorithm := dict_get work "algorithm" (VStr "SHA256") in
  let difficulty := dict_get work "target" (VInt diff1_target) in
  let worker_efficiency := efficiency_of opt worker_id in
  match _calculate_base_segment_size algorithm difficulty with
  | Raise e => SegRaise e
  | Ret base_segment_size =>
      let adjusted_segment_size := adjusted_size base_segment_size worker_efficiency in
      match dict_get work "nonce_start" (VInt 0),
            dict_get work "nonce_end" (VInt 0xFFFFFFFF) with
      | VInt nonce_start, VInt nonce_end =>
          match segment_loop fuel work worker_id adjusted_segment_size nonce_end
                  (active_segments opt) nonce_start 0 with
          | Some (active', segments) => Segments (with_active opt active') segments
          | None => SegOutOfFuel
          end
      | _, _ => SegNotIntRange
      end
  end.

(** The nonce range a segment dict carries, as the miners read it
    ([range(nonce_start, nonce_end)] in [algorithms.py]). *)
Definition segment_range (seg : pydict) : option (Z * Z) :=
  match seg !! "nonce_start", seg !! "nonce_end" with
  | Some (VInt a), Some (VInt b) => Some (a, b)
  | _, _ => None
  end.

(** *** Efficiency feedback *)

Definition record_rejection (opt : AIOptimizer) (result : pydict)
    (worker_id : string) (now : Q) : AIOptimizer :=
  let rejection_data : pydict :=
    <["timestamp" := VFloat now]>
    (<["worker_id" := VStr worker_id]>
    (<["algorithm" := dict_get result "algorithm" (VStr "")]>
    (<["hash" := dict_get result "hash" (VStr "")]>
    (<["nonce" := dict_get result "nonce" (VInt 0)]>
    (<["reason" := dict_get result "rejection_reason" (VStr "unknown")]> ∅))))) in
  let current_efficiency := efficiency_of opt worker_id in
  {| learning_rate := learning_rate opt;
     performance_history := performance_history opt;
     rejection_history := deque_append 500 (rejection_history opt) rejection_data;
     pool_performance := pool_performance opt;
     algorithm_performance := algorithm_performance opt;
     active_segments := active_segments opt;
     worker_efficiency :=
       <[worker_id := py_max (1 # 10) (current_efficiency * (98 # 100))]>
         (worker_efficiency opt) |}.

Definition nonempty (s : string) : bool := negb (String.eqb s "").

Definition record_performance (opt : AIOptimizer) (metrics : Metrics) (now : Q)
    : AIOptimizer :=
  let performance_point :=
    {| timestamp := now;
       hashrate := default 0%Q (m_hashrate metrics);
       rejection_rate := default 0%Q (m_rejection_rate metrics);
       temperature := default ∅ (m_temperature metrics);
       power_usage := default 0%Q (m_power_usage metrics);
       algorithm := default "" (m_algorithm metrics);
       pool := default "" (m_pool metrics);
       worker_id := default "" (m_worker_id metrics) |} in
  let algorithm_performance' :=
    if nonempty (algorithm performance_point)
    then append_at (algorithm_performance opt) (algorithm performance_point)
           (hashrate performance_point)
    else algorithm_performance opt in
  let pool_performance' :=
    if nonempty (pool performance_point)
    then append_at (pool_performance opt) (pool performance_point)
           (hashrate performance_point * (1 - rejection_rate performance_point))
    else pool_performance opt in
  let worker_efficiency' :=
    if nonempty (worker_id performance_point)
       && (if Qlt_le_dec (rejection_rate performance_point) (2 # 100)
           then true else false)
    then <[worker_id performance_point :=
             py_min 2 (efficiency_of opt (worker_id performance_point) * (101 # 100))]>
           (worker_efficiency opt)
    else worker_efficiency opt in
  {| learning_rate := learning_rate opt;
     performance_history :=
       deque_append 1000 (performance_history opt) performance_point;
     rejection_history := rejection_history opt;
     pool_performance := pool_performance';
     algorithm_performance := algorithm_performance';
     active_segments := active_segments opt;
     worker_efficiency := worker_efficiency' |}.

(** A report reaching the optimizer, and the run of a sequence of reports. *)
Inductive report : Type :=
| Rejection (result : pydict) (worker_id : string) (now : Q)
| Performance (metrics : Metrics) (now : Q).

Definition apply_report (opt : AIOptimizer) (r : report) : AIOptimizer :=
  match r with
  | Rejection result w now => record_rejection opt result w now
  | Performance metrics now => record_performance opt metrics now
  end.

Definition run_reports (opt : AIOptimizer) (rs : list report) : AIOptimizer :=
  fold_left apply_report rs opt.

Definition is_rejection (r : report) : bool :=
  match r with Rejection _ _ _ => true | Performance _ _ => false end.

(** A clean report: a performance sample whose rejection rate is below 2%. *)
Definition is_clean (r : report) : bool :=
  match r with
  | Rejection _ _ _ => false
  | Performance metrics _ =>
      if Qlt_le_dec (default 0%Q (m_rejection_rate metrics)) (2 # 100)
      then true else false
  end.

End Optimizer.

(** ** Cluster manager ([orchestrator/cluster_manager.py]) *)

Module Cluster.

Record MiningNode : Type := {
  node_id : string;
  hostname : string;
  ip_address : string;
  port : Z;
  status : string;
  last_seen : Q;
  cpu_cores : Z;
  cpu_threads : Z;
  gpu_count : Z;
  gpu_memory : Z;
  total_memory : Z;
  hashrate : Q;
  temperature : gmap string Q;
  power_usage : Q;
  uptime : Q;
  assigned_algorithm : string;
  assigned_pool : string;
  work_segments : list string
}.

Record ClusterStats : Type := {
  total_nodes : nat;
  active_nodes : nat;
  total_hashrate : Q;
  total_power : Q;
  algorithms_running : gset string;
  pools_connected : gset string;
  efficiency_score : Q
}.

Record ClusterManager : Type := {
  cluster_id : string;
  nodes : gmap string MiningNode;
  cluster_stats : ClusterStats
}.

(** [ClusterStats()] *)
Definition empty_stats : ClusterStats :=
  {| total_nodes := 0; active_nodes := 0; total_hashrate := 0; total_power := 0;
     algorithms_running := ∅; pools_connected := ∅; efficiency_score := 0 |}.

(** [ClusterManager.__init__] *)
Definition init (cluster_id : string) : ClusterManager :=
  {| cluster_id := cluster_id; nodes := ∅; cluster_stats := empty_stats |}.

Definition GiB : Z := (1024 ^ 3)%Z.

Definition _calculate_hardware_score (node : MiningNode) : Q :=
  let cpu_score := inject_Z (cpu_cores node * 10 + cpu_threads node * 5) in
  let gpu_score :=
    (inject_Z (gpu_count node * 50)
     + (inject_Z (gpu_memory node) / inject_Z GiB) * 20)%Q in
  let memory_score := ((inject_Z (total_memory node) / inject_Z GiB) * 2)%Q in
  (cpu_score + gpu_score + memory_score)%Q.

Definition algorithm_multipliers : gmap string Q :=
  <["SHA256" := 1%Q]>
  (<["RandomX" := (8 # 10)%Q]>
  (<["Ethash" := (12 # 10)%Q]>
  (<["Scrypt" := (6 # 10)%Q]> ∅))).

Definition _expected_hashrate (node : MiningNode) : Q :=
  let hardware_score := _calculate_hardware_score node in
  let multiplier :=
    default 1%Q (algorithm_multipliers !! assigned_algorithm node) in
  (hardware_score * multiplier * 1000)%Q.

(** [self.nodes.values()] *)
Definition node_values (ns : gmap string MiningNode) : list MiningNode :=
  (map_to_list ns).*2.

Definition is_mining (n : MiningNode) : bool := String.eqb (status n) "mining".
Definition is_active (n : MiningNode) : bool :=
  String.eqb (status n) "active" || String.eqb (status n) "mining".

Definition Qsum (l : list Q) : Q := fold_right Qplus 0%Q l.

Definition _calculate_cluster_efficiency (ns : gmap string MiningNode) : Q :=
  let mining_nodes := List.filter is_mining (node_values ns) in
  match mining_nodes with
  | [] => 0%Q
  | _ :: _ =>
      let total_expected := Qsum (_expected_hashrate <$> mining_nodes) in
      let total_actual := Qsum (hashrate <$> mining_nodes) in
      ((total_actual / py_max 1 total_expected) * 100)%Q
  end.

Definition nonempty (s : string) : bool := negb (String.eqb s "").

(** The statistics [_update_cluster_stats] derives from the node map. *)
Definition compute_stats (ns : gmap string MiningNode) : ClusterStats :=
  let active := List.filter is_active (node_values ns) in
  let mining_nodes := List.filter is_mining (node_values ns) in
  {| total_nodes := size ns;
     active_nodes := length active;
     total_hashrate := Qsum (hashrate <$> mining_nodes);
     total_power := Qsum (power_usage <$> mining_nodes);
     algorithms_running :=
       list_to_set (List.filter nonempty (assigned_algorithm <$> mining_nodes));
     pools_connected :=
       list_to_set (List.filter nonempty (assigned_pool <$> mining_nodes));
     efficiency_score := _calculate_cluster_efficiency ns |}.

Definition with_nodes (cm : ClusterManager) (ns : gmap string MiningNode)
    : ClusterManager :=
  {| cluster_id := cluster_id cm; nodes := ns; cluster_stats := cluster_stats cm |}.

Definition _update_cluster_stats (cm : ClusterManager) : ClusterManager :=
  {| cluster_id := cluster_id cm; nodes := nodes cm;
     cluster_stats := compute_stats (nodes cm) |}.

(** The [node_info] dict of [register_node]; an absent key is [None]. *)
Record NodeInfo : Type := {
  ni_node_id : option string;
  ni_hostname : option string;
  ni_ip_address : option string;
  ni_port : option Z;
  ni_cpu_cores : option Z;
  ni_cpu_threads : option Z;
  ni_gpu_count : option Z;
  ni_gpu_memory : option Z;
  ni_total_memory : option Z
}.

(** [node_info.get("node_id") or str(uuid.uuid4())] *)
Definition chosen_id (node_info : NodeInfo) (uuid : string) : string :=
  match ni_node_id node_info with
  | Some i => if nonempty i then i else uuid
  | None => uuid
  end.

(** [register_node]; [uuid] is the value [uuid.uuid4()] would give and [now]
    the clock.  The rebalance it schedules only sends commands to nodes and
    changes neither the node map nor the statistics. *)
Definition register_node (cm : ClusterManager) (node_info : NodeInfo)
    (uuid : string) (now : Q) : ClusterManager * string :=
  let node_id := chosen_id node_info uuid in
  let node :=
    {| node_id := node_id;
       hostname := default "unknown" (ni_hostname node_info);
       ip_address := default "127.0.0.1" (ni_ip_address node_info);
       port := default 8080%Z (ni_port node_info);
       status := "active";
       last_seen := now;
       cpu_cores := default 1%Z (ni_cpu_cores node_info);
       cpu_threads := default 1%Z (ni_cpu_threads node_info);
       gpu_count := default 0%Z (ni_gpu_count node_info);
       gpu_memory := default 0%Z (ni_gpu_memory node_info);
       total_memory := default 0%Z (ni_total_memory node_info);
       hashrate := 0;
       temperature := ∅;
       power_usage := 0;
       uptime := 0;
       assigned_algorithm := "";
       assigned_pool := "";
       work_segments := [] |} in
  (_update_cluster_stats (with_nodes cm (<[node_id := node]> (nodes cm))), node_id).

(** [_stop_node_mining]: the answer to the command is ignored. *)
Definition _stop_node_mining (node : MiningNode) : MiningNode :=
  {| node_id := node_id node; hostname := hostname node;
     ip_address := ip_address node; port := port node;
     status := "inactive"; last_seen := last_seen node;
     cpu_cores := cpu_cores node; cpu_threads := cpu_threads node;
     gpu_count := gpu_count node; gpu_memory := gpu_memory node;
     total_memory := total_memory node;
     hashrate := hashrate node; temperature := temperature node;
     power_usage := power_usage node; uptime := uptime node;
     assigned_algorithm := ""; assigned_pool := ""; work_segments := [] |}.

Definition unregister_node (cm : ClusterManager) (node_id : string)
    : ClusterManager :=
  match nodes cm !! node_id with
  | Some node =>
      let stopped := <[node_id := _stop_node_mining node]> (nodes cm) in
      _update_cluster_stats (with_nodes cm (delete node_id stopped))
  | None => cm
  end.

(** The [status_data] dict of [update_node_status]. *)
Record StatusData : Type := {
  sd_hashrate : option Q;
  sd_temperature : option (gmap string Q);
  sd_power_usage : option Q;
  sd_uptime : option Q;
  sd_status : option string;
  sd_algorithm : option string;
  sd_pool : option string
}.

Definition update_node_status (cm : ClusterManager) (node_id : string)
    (status_data : StatusData) (now : Q) : ClusterManager :=
  match nodes cm !! node_id with
  | None => cm
  | Some node =>
      let node' :=
        {| node_id := Cluster.node_id node; hostname := hostname node;
           ip_address := ip_address node; port := port node;
           status := default "active" (sd_status status_data);
           last_seen := now;
           cpu_cores := cpu_cores node; cpu_threads := cpu_threads node;
           gpu_count := gpu_count node; gpu_memory := gpu_memory node;
           total_memory := total_memory node;
           hashrate := default 0%Q (sd_hashrate status_data);
           temperature := default ∅ (sd_temperature status_data);
           power_usage := default 0%Q (sd_power_usage status_data);
           uptime := default 0%Q (sd_uptime status_data);
           assigned_algorithm :=
             default (assigned_algorithm node) (sd_algorithm status_data);
           assigned_pool := default (assigned_pool node) (sd_pool status_data);
           work_segments := work_segments node |} in
      _update_cluster_stats (with_nodes cm (<[node_id := node']> (nodes cm)))
  end.

(** What [_send_node_command] does inside [assign_work]: it answers a
    boolean, or an exception escapes it. *)
Inductive cmd_outcome : Type :=
| CmdAnswer (success : bool)
| CmdRaise.

Definition assigned (node : MiningNode) (algorithm pool : string)
    (segments : list string) : MiningNode :=
  {| node_id := node_id node; hostname := hostname node;
     ip_address := ip_address node; port := port node;
     status := "mining"; last_seen := last_seen node;
     cpu_cores := cpu_cores node; cpu_threads := cpu_threads node;
     gpu_count := gpu_count node; gpu_memory := gpu_memory node;
     total_memory := total_memory node;
     hashrate := hashrate node; temperature := temperature node;
     power_usage := power_usage node; uptime := uptime node;
     assigned_algorithm := algorithm; assigned_pool := pool;
     work_segments := segments |}.

Definition assign_work (cm : ClusterManager) (node_id algorithm pool : string)
    (work_segments : list string) (cmd : cmd_outcome) : ClusterManager * bool :=
  match nodes cm !! node_id with
  | None => (cm, false)
  | Some node =>
      match cmd with
      | CmdAnswer true =>
          (with_nodes cm
             (<[node_id := assigned node algorithm pool work_segments]> (nodes cm)),
           true)
      | CmdAnswer false => (cm, false)
      | CmdRaise => (cm, false)
      end
  end.

(** The registry invariant: the stored statistics are the derived ones. *)
Definition stats_consistent (cm : ClusterManager) : Prop :=
  cluster_stats cm = compute_stats (nodes cm).

End Cluster.

(** ** Vocabulary of the statements *)

Module Spec.

(** A nonce [n] is searched by the miner that receives [seg]: the miners
    iterate over [range(nonce_start, nonce_end)]. *)
Definition covers (seg : pydict) (n : Z) : Prop :=
  exists a b, Optimizer.segment_range seg = Some (a, b) /\ (a <= n < b)%Z.

(** The multiplier table in the words of the specification. *)
Definition spec_multiplier (algorithm : string) : Q :=
  if String.eqb algorithm "SHA256" then 1%Q
  else if String.eqb algorithm "Ethash" then (12 # 10)%Q
  else if String.eqb algorithm "RandomX" then (8 # 10)%Q
  else if String.eqb algorithm "Scrypt" then (6 # 10)%Q
  else 1%Q.

(** The hardware score in the words of the specification, memory sizes
    counted in GiB. *)
Definition spec_hardware_score (n : Cluster.MiningNode) : Q :=
  let gpuMemGB := (inject_Z (Cluster.gpu_memory n) / inject_Z (1024 ^ 3)%Z)%Q in
  let totalMemGB := (inject_Z (Cluster.total_memory n) / inject_Z (1024 ^ 3)%Z)%Q in
  (inject_Z (Cluster.cpu_cores n) * 10 + inject_Z (Cluster.cpu_threads n) * 5
   + inject_Z (Cluster.gpu_count n) * 50 + gpuMemGB * 20 + totalMemGB * 2)%Q.

(** The runtime part of a node record. *)
Definition runtime_metrics (n : Cluster.MiningNode) :=
  (Cluster.hashrate n, Cluster.temperature n, Cluster.power_usage n,
   Cluster.uptime n, Cluster.assigned_algorithm n, Cluster.assigned_pool n,
   Cluster.work_segments n).

(** The hardware part of a node record. *)
Definition hardware_fields (n : Cluster.MiningNode) :=
  (Cluster.cpu_cores n, Cluster.cpu_threads n, Cluster.gpu_count n,
   Cluster.gpu_memory n, Cluster.total_memory n).

(** Every worker's efficiency lies in [0.1, 2.0]. *)
Definition bounded (opt : Optimizer.AIOptimizer) : Prop :=
  forall w, (1 # 10 <= Optimizer.efficiency_of opt w)%Q
            /\ (Optimizer.efficiency_of opt w <= 2)%Q.

(** A small SHA256 node: one core, one thread, no GPU. *)
Definition sample_node : Cluster.MiningNode :=
  {| Cluster.node_id := "n1"; Cluster.hostname := "h"; Cluster.ip_address := "127.0.0.1"; Cluster.port := 8080;
     Cluster.status := "mining"; Cluster.last_seen := 0;
     Cluster.cpu_cores := 1; Cluster.cpu_threads := 1; Cluster.gpu_count := 0; Cluster.gpu_memory := 0;
     Cluster.total_memory := 0;
     Cluster.hashrate := 0; Cluster.temperature := ∅; Cluster.power_usage := 0; Cluster.uptime := 0;
     Cluster.assigned_algorithm := "SHA256"; Cluster.assigned_pool := "p"; Cluster.work_segments := [] |}.


(** Scenario data for the registry: a registration payload carrying only
    an id, and a status report carrying only a hashrate. *)
Definition info_of (id : string) (cores : Z) : Cluster.NodeInfo :=
  {| Cluster.ni_node_id := Some id; Cluster.ni_hostname := None;
     Cluster.ni_ip_address := None; Cluster.ni_port := None;
     Cluster.ni_cpu_cores := Some cores; Cluster.ni_cpu_threads := None;
     Cluster.ni_gpu_count := None; Cluster.ni_gpu_memory := None;
     Cluster.ni_total_memory := None |}.

Definition hashrate_report (h : Q) : Cluster.StatusData :=
  {| Cluster.sd_hashrate := Some h; Cluster.sd_temperature := None;
     Cluster.sd_power_usage := None; Cluster.sd_uptime := None;
     Cluster.sd_status := None; Cluster.sd_algorithm := None;
     Cluster.sd_pool := None |}.

(** A manager with the single node ["n1"], registered at time 0. *)
Definition one_node : Cluster.ClusterManager :=
  (Cluster.register_node (Cluster.init "c") (info_of "n1" 4) "uuid" 0).1.


End Spec.

(** ** Pool protocol client: configuration, framing, share submission *)

Module PoolIO.
Import Pool.

(** *** Line framing of the receive loop ([_pool_connection_handler]) *)

Definition newline : ascii := ascii_of_nat 10.

(** [buffer.split(b"\n", 1)], or [None] when there is no newline in [buffer]. *)
Fixpoint split_newline (buffer : string) : option (string * string) :=
  match buffer with
  | EmptyString => None
  | String c rest =>
      if Ascii.eqb c newline then Some (EmptyString, rest)
      else match split_newline rest with
           | Some (line, rest') => Some (String c line, rest')
           | None => None
           end
  end.

(** [while b"\n" in buffer: line, buffer = buffer.split(b"\n", 1); ...]:
    the complete lines, in order, and what is left in the buffer. *)
Fixpoint drain (fuel : nat) (buffer : string) : option (list string * string) :=
  match split_newline buffer with
  | None => Some ([], buffer)
  | Some (line, rest) =>
      match fuel with
      | O => None
      | S fuel' =>
          match drain fuel' rest with
          | Some (lines, buffer') => Some (line :: lines, buffer')
          | None => None
          end
      end
  end.

(** The bytes that [bytes.strip()] removes. *)
Definition is_space (c : ascii) : bool :=
  let n := nat_of_ascii c in
  (n =? 32)%nat || ((9 <=? n)%nat && (n <=? 13)%nat).

Fixpoint is_blank (line : string) : bool :=
  match line with
  | EmptyString => true
  | String c rest => is_space c && is_blank rest
  end.

(** One turn of the receive loop on a non-empty [data]: the lines handed to
    [_process_pool_message] (those with [line.strip()] non-empty) and the
    new buffer.  Lines are kept as the bytes received; a line that is not
    valid UTF-8, on which [decode] raises and the source leaves the loop, is
    not part of the model. *)
Definition receive (buffer data : string) : option (list string * string) :=
  let buffer := (buffer ++ data)%string in
  match drain (String.length buffer) buffer with
  | Some (lines, buffer') =>
      Some (List.filter (fun l => negb (is_blank l)) lines, buffer')
  | None => None
  end.

(** The same framing by a single pass over the buffer. *)
Fixpoint frame (buffer : string) : list string * string :=
  match buffer with
  | EmptyString => ([], EmptyString)
  | String c rest =>
      let '(lines, tail) := frame rest in
      if Ascii.eqb c newline then (EmptyString :: lines, tail)
      else match lines with
           | [] => ([], String c tail)
           | l :: lines' => (String c l :: lines', tail)
           end
  end.

Fixpoint no_char (c : ascii) (s : string) : bool :=
  match s with
  | EmptyString => true
  | String a s' => negb (Ascii.eqb a c) && no_char c s'
  end.

(** [b"\n".join(lines) + b"\n" + rest], each line followed by its newline. *)
Fixpoint join_lines (lines : list string) (rest : string) : string :=
  match lines with
  | [] => rest
  | l :: lines' => (l ++ String newline (join_lines lines' rest))%string
  end.

(** *** [add_pool] *)

(** [s.split(sep, 1)] at the first occurrence of [sep], or [None] when
    [sep] does not occur in [s]. *)
Fixpoint split_first (sep s : string) : option (string * string) :=
  if String.prefix sep s then Some (EmptyString, str_drop (String.length sep) s)
  else match s with
       | EmptyString => None
       | String c s' =>
           match split_first sep s' with
           | Some (a, b) => Some (String c a, b)
           | None => None
           end
       end.

(** [s.rsplit(c, 1)] at the last occurrence of the character [c]. *)
Fixpoint rsplit_char (c : ascii) (s : string) : option (string * string) :=
  match s with
  | EmptyString => None
  | String a s' =>
      match rsplit_char c s' with
      | Some (l, r) => Some (String a l, r)
      | None => if Ascii.eqb a c then Some (EmptyString, s') else None
      end
  end.

Definition dec_val (c : ascii) : option N :=
  let n := N_of_ascii c in
  if ((48 <=? n) && (n <=? 57))%N then Some (n - 48)%N else None.

Fixpoint parse_dec_digits (s : string) (acc : N) : option N :=
  match s with
  | EmptyString => Some acc
  | String c s' =>
      match dec_val c with
      | Some d => parse_dec_digits s' (acc * 10 + d)%N
      | None => None
      end
  end.

Definition parse_unsigned_dec (s : string) : option N :=
  match s with
  | EmptyString => None
  | _ => parse_dec_digits s 0%N
  end.

(** [int(s)]: an optional sign and at least one decimal digit; [None] stands
    for [ValueError].  (Surrounding white space and digit-group underscores,
    which Python also accepts, are not recognised here.) *)
Definition py_int10 (s : string) : option Z :=
  match s with
  | String "-" s' => (fun n => (- Z.of_N n)%Z) <$> parse_unsigned_dec s'
  | String "+" s' => Z.of_N <$> parse_unsigned_dec s'
  | _ => Z.of_N <$> parse_unsigned_dec s
  end%char.

(** [PoolConnection(name=..., url=host, port=port, username=..., password=...)] *)
Definition new_connection (name host : string) (port : Z)
    (username password : string) : PoolConnection :=
  {| name := name; url := host; port := port; username := username;
     password := password; connected := false; last_work := None;
     last_ping := 0; share_count := 0; difficulty := 1 |}.

Definition with_pools (pm : PoolManager) (ps : list (string * PoolConnection))
    : PoolManager :=
  {| pools := ps; active_work := active_work pm;
     shares_submitted := shares_submitted pm;
     shares_accepted := shares_accepted pm;
     shares_rejected := shares_rejected pm |}.

(** [add_pool]: the exception of a port that is not a number is caught and
    leaves the manager as it was. *)
Definition add_pool (pm : PoolManager) (name url username password : string)
    : PoolManager :=
  let address :=
    match split_first "://" url with
    | Some (_, address) => address
    | None => url
    end in
  match rsplit_char ":" address with
  | Some (host, port_str) =>
      match py_int10 port_str with
      | Some port =>
          with_pools pm
            (set_pool name (new_connection name host port username password)
               (pools pm))
      | None => pm
      end
  | None =>
      with_pools pm
        (set_pool name (new_connection name address 4444 username password)
           (pools pm))
  end.

(** [self.pools[name]], when the key is there. *)
Definition pool_named (pm : PoolManager) (n : string) : option PoolConnection :=
  snd <$> List.find (fun np => String.eqb n np.1) (pools pm).

(** *** [submit_share] *)

(** What [socket.send] does inside [_send_json_message]. *)
Inductive send_outcome : Type := Sent | SendError.

Definition with_connected (p : PoolConnection) (b : bool) : PoolConnection :=
  {| name := name p; url := url p; port := port p; username := username p;
     password := password p; connected := b;
     last_work := last_work p; last_ping := last_ping p;
     share_count := share_count p; difficulty := difficulty p |}.

Definition with_share_count (p : PoolConnection) (n : Z) : PoolConnection :=
  {| name := name p; url := url p; port := port p; username := username p;
     password := password p; connected := connected p;
     last_work := last_work p; last_ping := last_ping p;
     share_count := n; difficulty := difficulty p |}.

(** [_send_json_message]: a connected pool has its socket; an error of the
    send is caught and marks the pool as disconnected. *)
Definition _send_json_message (p : PoolConnection) (o : send_outcome)
    : PoolConnection :=
  if connected p then
    match o with
    | Sent => p
    | SendError => with_connected p false
    end
  else p.

(** The parameters of the [mining.submit] message. *)
Definition submit_params (p : PoolConnection) (result : pydict)
    (ntime_default : string) : list pyval :=
  [VStr (username p);
   dict_get result "job_id" (VStr "");
   dict_get result "extranonce2" (VStr "00000000");
   dict_get result "ntime" (VStr ntime_default);
   dict_get result "nonce" (VStr "00000000")].

(** [submit_share]; the pool object is updated in place, here under its
    name. *)
Definition submit_share (pm : PoolManager) (pool_url : string)
    (result : pydict) (o : send_outcome) : PoolManager * bool :=
  match find_pool pm pool_url with
  | None => (pm, false)
  | Some target_pool =>
      if negb (connected target_pool) then (pm, false)
      else
        let p1 := _send_json_message target_pool o in
        let p2 := with_share_count p1 (share_count p1 + 1) in
        ({| pools := set_pool (name target_pool) p2 (pools pm);
            active_work := active_work pm;
            shares_submitted := shares_submitted pm + 1;
            shares_accepted := shares_accepted pm;
            shares_rejected := shares_rejected pm |}, true)
  end.

(** [_handle_pool_response]: [has_id] is ["id" in response], [result_truthy]
    the truth value of [response.get("result")]. *)
Definition _handle_pool_response (pm : PoolManager) (has_id result_truthy : bool)
    : PoolManager :=
  if has_id then
    {| pools := pools pm; active_work := active_work pm;
       shares_submitted := shares_submitted pm;
       shares_accepted :=
         if result_truthy then shares_accepted pm + 1 else shares_accepted pm;
       shares_rejected :=
         if result_truthy then shares_rejected pm else shares_rejected pm + 1 |}
  else pm.

(** The entries of [self.pools] agree with the connections they hold, and
    the pool [p] is the one [pool_url] selects: it sits under its own name,
    and no entry before it has that name or matches [pool_url]. *)
Definition selects (pm : PoolManager) (pool_url : string) (p : PoolConnection)
    : Prop :=
  exists before after,
    pools pm = before ++ (name p, p) :: after
    /\ (str_contains (url p) pool_url || str_contains (name p) pool_url = true)
    /\ Forall (fun np : string * PoolConnection =>
                 np.1 <> name p
                 /\ str_contains (url np.2) pool_url
                    || str_contains (name np.2) pool_url = false) before.

End PoolIO.

(** ** Work / policy optimizer: initial configuration and recommendations *)

Module Policy.
Import Optimizer.

(** [l[-n:]] *)
Definition last_n {A} (n : nat) (l : list A) : list A :=
  skipn (length l - n) l.

(** [statistics.mean] of a non-empty list. *)
Definition mean (l : list Q) : Q :=
  (Cluster.Qsum l / inject_Z (Z.of_nat (length l)))%Q.

(** [statistics.mean]: an empty list raises [StatisticsError], which is a
    [ValueError]. *)
Definition py_mean (l : list Q) : outcome Q :=
  match l with
  | [] => Raise ValueError
  | _ :: _ => Ret (mean l)
  end.

(** [d[k] = v] on a dict kept as the list of its items: in place when the
    key exists, at the end otherwise. *)
Fixpoint alist_set {V} (k : string) (v : V) (d : list (string * V))
    : list (string * V) :=
  match d with
  | [] => [(k, v)]
  | (k', v') :: d' =>
      if String.eqb k k' then (k, v) :: d' else (k', v') :: alist_set k v d'
  end.

(** [max(items, key=...)]: the first of the items with the greatest key;
    [None] for no item ([ValueError]). *)
Fixpoint max_by {A} (key : A -> Q) (best : A) (l : list A) : A :=
  match l with
  | [] => best
  | x :: l' =>
      if Qlt_le_dec (key best) (key x) then max_by key x l'
      else max_by key best l'
  end.

Definition py_max_by {A} (key : A -> Q) (l : list A) : option A :=
  match l with
  | [] => None
  | x :: l' => Some (max_by key x l')
  end.

(** *** Hardware scores *)

Record CpuInfo : Type := {
  cores : option Z;
  threads : option Z;
  frequency_max : option Q;
  features : list string
}.

Record GpuInfo : Type := {
  memory_total : option Z;
  gpu_name : option string
}.

Record MemoryInfo : Type := {
  total : option Z;
  percentage : option Q;
  available : option Z
}.

(** [hardware_info]; an absent key is [None] (an absent [cpu] or [memory]
    dict is a record of [None]s, an absent [gpus] the empty list). *)
Record Hardware : Type := {
  hw_cpu : CpuInfo;
  hw_gpus : list GpuInfo;
  hw_memory : MemoryInfo
}.

Definition has_feature (f : string) (fs : list string) : bool :=
  existsb (String.eqb f) fs.

Definition _calculate_cpu_score (cpu_info : CpuInfo) : Q :=
  let cores := default 1%Z (cores cpu_info) in
  let threads := default 1%Z (threads cpu_info) in
  let frequency := default 2000%Q (frequency_max cpu_info) in
  let base_score :=
    (inject_Z (cores * 10 + threads * 5) + (frequency / 1000) * 2)%Q in
  let base_score :=
    if has_feature "AES" (features cpu_info)
    then (base_score * (12 # 10))%Q else base_score in
  let base_score :=
    if has_feature "AVX2" (features cpu_info)
    then (base_score * (11 # 10))%Q else base_score in
  py_min base_score 100.

(** [str.upper] on the letters a to z. *)
Definition upper_char (c : ascii) : ascii :=
  let n := nat_of_ascii c in
  if ((97 <=? n) && (n <=? 122))%nat then ascii_of_nat (n - 32) else c.

Fixpoint str_upper (s : string) : string :=
  match s with
  | EmptyString => EmptyString
  | String c s' => String (upper_char c) (str_upper s')
  end.

Definition gpu_base_score (gpu : GpuInfo) : Q :=
  let memory_gb :=
    (inject_Z (default 0%Z (memory_total gpu)) / inject_Z GiB)%Q in
  let gpu_name := str_upper (default "" (gpu_name gpu)) in
  let base_score := (memory_gb * 10)%Q in
  if str_contains "H100" gpu_name then (base_score * 3)%Q
  else if str_contains "H200" gpu_name then (base_score * (35 # 10))%Q
  else if str_contains "MI300" gpu_name then (base_score * (28 # 10))%Q
  else if str_contains "RTX" gpu_name then (base_score * (15 # 10))%Q
  else base_score.

Definition _calculate_gpu_score (gpu_info : list GpuInfo) : Q :=
  match gpu_info with
  | [] => 0%Q
  | _ :: _ =>
      let total_score :=
        fold_left (fun acc gpu => (acc + gpu_base_score gpu)%Q) gpu_info 0%Q in
      py_min total_score 100
  end.

Definition _calculate_memory_score (memory_info : MemoryInfo) : Q :=
  let total_gb := (inject_Z (default 0%Z (total memory_info)) / inject_Z GiB)%Q in
  let available_percent := (100 - default 0%Q (percentage memory_info))%Q in
  let score := (total_gb * 2 + available_percent * (5 # 10))%Q in
  py_min score 100.

(** *** Algorithm selection *)

Definition hardware_fit (algorithm : string) (cpu_score gpu_score memory_score : Q)
    : Q :=
  if String.eqb algorithm "RandomX" then
    (cpu_score * (7 # 10) + memory_score * (3 # 10))%Q
  else if String.eqb algorithm "Ethash" then
    (gpu_score * (8 # 10) + memory_score * (2 # 10))%Q
  else if String.eqb algorithm "SHA256" then
    (py_max cpu_score gpu_score * (6 # 10)
     + py_min cpu_score gpu_score * (4 # 10))%Q
  else if String.eqb algorithm "Scrypt" || String.eqb algorithm "Yescrypt" then
    (memory_score * (5 # 10) + cpu_score * (3 # 10) + gpu_score * (2 # 10))%Q
  else if String.eqb algorithm "Kawpow" || String.eqb algorithm "X11" then
    (gpu_score * (7 # 10) + cpu_score * (3 # 10))%Q
  else 0%Q.

(** The score one turn of the loop gives to [algorithm]. *)
Definition algorithm_score (opt : AIOptimizer) (cpu_score gpu_score memory_score : Q)
    (algorithm : string) : outcome Q :=
  let score := hardware_fit algorithm cpu_score gpu_score memory_score in
  match algorithm_performance opt !! algorithm with
  | Some history =>
      bind (py_mean (last_n 10 history)) (fun historical_avg =>
        Ret (score * (7 # 10) + historical_avg * (3 # 10))%Q)
  | None => Ret score
  end.

(** The dict [algorithm_scores], as the list of its items. *)
Fixpoint algorithm_scores (opt : AIOptimizer) (cpu_score gpu_score memory_score : Q)
    (algorithms : list string) (acc : list (string * Q))
    : outcome (list (string * Q)) :=
  match algorithms with
  | [] => Ret acc
  | algorithm :: rest =>
      bind (algorithm_score opt cpu_score gpu_score memory_score algorithm)
        (fun score =>
           algorithm_scores opt cpu_score gpu_score memory_score rest
             (alist_set algorithm score acc))
  end.

Definition _select_optimal_algorithm (opt : AIOptimizer) (algorithms : list string)
    (cpu_score gpu_score memory_score : Q) : outcome string :=
  bind (algorithm_scores opt cpu_score gpu_score memory_score algorithms [])
    (fun scores =>
       match py_max_by snd scores with
       | Some best => Ret best.1
       | None => Raise ValueError
       end).

(** *** Pool selection *)

Record PoolEntry : Type := {
  pe_name : string;
  pe_url : string;
  pe_wallet : option string;
  pe_fee : Q;
  pe_latency : Z
}.

Definition entry (n u : string) (fee : Q) (latency : Z) : PoolEntry :=
  {| pe_name := n; pe_url := u; pe_wallet := None; pe_fee := fee;
     pe_latency := latency |}.

Definition sha256_pools : list PoolEntry :=
  [entry "NiceHash" "stratum+tcp://sha256.nicehash.com:3334" (2 # 100) 50;
   entry "Slush Pool" "stratum+tcp://stratum.slushpool.com:4444" (2 # 100) 60].

Definition pools_db : gmap string (list PoolEntry) :=
  <["SHA256" := sha256_pools]>
  (<["RandomX" :=
      [entry "NiceHash" "stratum+tcp://randomx.nicehash.com:3380" (2 # 100) 55;
       entry "MineXMR" "stratum+tcp://pool.minexmr.com:4444" (1 # 100) 70]]>
  (<["Ethash" :=
      [entry "NiceHash" "stratum+tcp://daggerhashimoto.nicehash.com:3353"
         (2 # 100) 45;
       entry "Ethermine" "stratum+tcp://eth-us-east1.nanopool.org:9999"
         (1 # 100) 65]]> ∅)).

(** [pools.get(algorithm, pools["SHA256"])] *)
Definition available_pools (algorithm : string) : list PoolEntry :=
  default sha256_pools (pools_db !! algorithm).

Definition pool_total_score (opt : AIOptimizer) (pool : PoolEntry) : Q :=
  let latency_score := py_maxZ 0 (100 - pe_latency pool) in
  let fee_score := ((1 - pe_fee pool) * 100)%Q in
  let historical_score :=
    match pool_performance opt !! pe_name pool with
    | Some history =>
        match last_n 5 history with
        | [] => 50%Q
        | recent_performance => mean recent_performance
        end
    | None => 50%Q
    end in
  (inject_Z latency_score * (3 # 10) + fee_score * (4 # 10)
   + historical_score * (3 # 10))%Q.

(** The dict [pool_scores], keyed by pool name. *)
Definition pool_scores (opt : AIOptimizer) (pools : list PoolEntry)
    : list (string * (Q * PoolEntry)) :=
  fold_left (fun acc pool =>
               alist_set (pe_name pool) (pool_total_score opt pool, pool) acc)
    pools [].

Definition _select_optimal_pool (opt : AIOptimizer) (algorithm : string)
    : outcome PoolEntry :=
  match py_max_by (fun item : string * (Q * PoolEntry) => item.2.1)
          (pool_scores opt (available_pools algorithm)) with
  | Some (_, (_, best_pool)) => Ret best_pool
  | None => Raise ValueError
  end.

(** *** [optimize_mining_setup] *)

Record SetupConfig : Type := {
  cfg_algorithm : string;
  cfg_pool_url : string;
  cfg_wallet_address : string;
  cfg_cpu_threads : Z;
  cfg_gpu_intensity : Z;
  cfg_optimization_confidence : Q
}.

(** What [_optimize_worker_configuration] reads of the hardware. *)
Definition worker_view (hardware_info : Hardware) : HardwareInfo :=
  {| cpu_cores := cores (hw_cpu hardware_info);
     gpus := map (fun _ => (∅ : pydict)) (hw_gpus hardware_info);
     memory_available := available (hw_memory hardware_info) |}.

Definition optimize_mining_setup (opt : AIOptimizer) (hardware_info : Hardware)
    (available_algorithms : list string) : outcome SetupConfig :=
  let cpu_score := _calculate_cpu_score (hw_cpu hardware_info) in
  let gpu_score := _calculate_gpu_score (hw_gpus hardware_info) in
  let memory_score := _calculate_memory_score (hw_memory hardware_info) in
  bind (_select_optimal_algorithm opt available_algorithms
          cpu_score gpu_score memory_score) (fun optimal_algorithm =>
  bind (_select_optimal_pool opt optimal_algorithm) (fun optimal_pool =>
    let worker_config :=
      _optimize_worker_configuration (worker_view hardware_info)
        optimal_algorithm in
    Ret {| cfg_algorithm := optimal_algorithm;
           cfg_pool_url := pe_url optimal_pool;
           cfg_wallet_address :=
             default "your_wallet_address" (pe_wallet optimal_pool);
           cfg_cpu_threads := cpu_threads worker_config;
           cfg_gpu_intensity := gpu_intensity worker_config;
           cfg_optimization_confidence := 85 # 100 |})).

(** *** Recommendations *)


(** The loop of [_recommend_pool_switch] and [_recommend_algorithm_switch]
    over the items of the performance dict. *)
Definition best_other_step (current : string) (n : nat)
    (st : option string * Q) (item : string * list Q) : option string * Q :=
  let '(best, best_score) := st in
  let '(key, scores) := item in
  if negb (String.eqb key current) then
    match scores with
    | [] => st
    | _ :: _ =>
        let avg := mean (last_n n scores) in
        if Qlt_le_dec best_score avg then (Some key, avg) else st
    end
  else st.

Definition best_other (items : list (string * list Q)) (current : string)
    : option string :=
  (fold_left (best_other_step current 5) items (None, 0%Q)).1.

Definition _recommend_pool_switch (pool_items : list (string * list Q))
    (current_metrics : Metrics) : option string :=
  best_other pool_items (default "" (m_pool current_metrics)).

Definition _recommend_algorithm_switch (algorithm_items : list (string * list Q))
    (current_metrics : Metrics) : option string :=
  best_other algorithm_items (default "" (m_algorithm current_metrics)).

Record Redistribution : Type := {
  underperforming_workers : list string;
  suggested_action : string;
  efficiency_threshold : Q
}.

Definition _recommend_worker_redistribution (worker_items : list (string * Q))
    : option Redistribution :=
  match worker_items with
  | [] => None
  | _ :: _ =>
      let avg_efficiency := mean worker_items.*2 in
      let underperforming :=
        List.filter (fun we : string * Q =>
                       if Qlt_le_dec we.2 (avg_efficiency * (8 # 10))
                       then true else false) worker_items in
      match underperforming with
      | [] => None
      | _ :: _ =>
          Some {| underperforming_workers := underperforming.*1;
                  suggested_action := "reduce_workload";
                  efficiency_threshold := (avg_efficiency * (8 # 10))%Q |}
      end
  end.

(** The dict [recommendations]: a key that is absent is [false] or [None]. *)
Record Recommendations : Type := {
  performance_declining : bool;
  switch_pool : option (option string);
  switch_algorithm : option (option string);
  redistribute_workers : option Redistribution;
  reduce_intensity : bool;
  temperature_warning : option Q
}.

Definition is_empty (r : Recommendations) : bool :=
  negb (performance_declining r)
  && bool_decide (switch_pool r = None)
  && bool_decide (switch_algorithm r = None)
  && match redistribute_workers r with Some _ => false | None => true end
  && negb (reduce_intensity r)
  && match temperature_warning r with Some _ => false | None => true end.

(** [max(values, default=0)] *)
Definition max_default (values : list Q) : Q :=
  match values with
  | [] => 0%Q
  | v :: vs => max_by (fun x => x) v vs
  end.

(** [get_recommendations]; the three lists are the items of
    [pool_performance], [algorithm_performance] and [worker_efficiency], and
    [temperatures] the values of the temperature dict, each in the order
    Python iterates it. *)
Definition get_recommendations (opt : AIOptimizer)
    (pool_items algorithm_items : list (string * list Q))
    (worker_items : list (string * Q)) (temperatures : list Q)
    (current_metrics : Metrics) : option Recommendations :=
  if (length (performance_history opt) <? 10)%nat then None
  else
    let recent_metrics := last_n 10 (performance_history opt) in
    let current_hashrate := default 0%Q (m_hashrate current_metrics) in
    let recent_avg_hashrate := mean (hashrate <$> recent_metrics) in
    let declining :=
      if Qlt_le_dec current_hashrate (recent_avg_hashrate * (9 # 10))
      then true else false in
    let switch_pool :=
      if declining
         && (if Qlt_le_dec (5 # 100) (default 0%Q (m_rejection_rate current_metrics))
             then true else false)
      then Some (_recommend_pool_switch pool_items current_metrics)
      else None in
    let low :=
      List.filter (fun m : PerformanceMetric =>
                     if Qlt_le_dec (hashrate m) (recent_avg_hashrate * (8 # 10))
                     then true else false) recent_metrics in
    let switch_algorithm :=
      if declining && (5 <? length low)%nat
      then Some (_recommend_algorithm_switch algorithm_items current_metrics)
      else None in
    let max_temp := max_default temperatures in
    let hot := if Qlt_le_dec 85 max_temp then true else false in
    let recommendations :=
      {| performance_declining := declining;
         switch_pool := switch_pool;
         switch_algorithm := switch_algorithm;
         redistribute_workers := _recommend_worker_redistribution worker_items;
         reduce_intensity := hot;
         temperature_warning := if hot then Some max_temp else None |} in
    if is_empty recommendations then None else Some recommendations.

(** The number of performance samples in a run of reports. *)
Definition count_performance (rs : list report) : nat :=
  length (List.filter (fun r => negb (is_rejection r)) rs).

Definition count_rejections (rs : list report) : nat :=
  length (List.filter is_rejection rs).

(** Every history kept in [algorithm_performance] has an element. *)
Definition histories_nonempty (opt : AIOptimizer) : Prop :=
  forall a h, algorithm_performance opt !! a = Some h -> h <> [].

End Policy.

(** ** Cluster manager: shutdown, health check, node selection *)

Module ClusterOps.
Import Cluster.

(** [_stop_all_nodes]: every node object of [self.nodes] is stopped in
    place; the dict keeps its keys. *)
Definition _stop_all_nodes (cm : ClusterManager) : ClusterManager :=
  with_nodes cm (_stop_node_mining <$> nodes cm).

(** [stop]: the two background tasks are cancelled, then all nodes are
    stopped. *)
Definition stop (cm : ClusterManager) : ClusterManager := _stop_all_nodes cm.

(** A list holds [self.nodes.values()], in the order Python iterates it. *)
Definition values_of (cm : ClusterManager) (values : list MiningNode) : Prop :=
  values ≡ₚ node_values (nodes cm).

(** Every node is stored under its own [node_id]. *)
Definition keyed_by_id (cm : ClusterManager) : Prop :=
  forall k n, nodes cm !! k = Some n -> node_id n = k.

Definition _calculate_algorithm_suitability (node : MiningNode)
    (algorithm : string) : Q :=
  let base_score := _calculate_hardware_score node in
  if String.eqb algorithm "RandomX" then
    let cpu_bonus := inject_Z (cpu_threads node * 5) in
    let memory_bonus := ((inject_Z (total_memory node) / inject_Z GiB) * 10)%Q in
    (base_score + cpu_bonus + memory_bonus)%Q
  else if String.eqb algorithm "Ethash" then
    let gpu_bonus :=
      (inject_Z (gpu_count node * 30)
       + (inject_Z (gpu_memory node) / inject_Z GiB) * 20)%Q in
    (base_score + gpu_bonus)%Q
  else if String.eqb algorithm "SHA256" then base_score
  else base_score.

(** The filter of [get_optimal_node_assignment]. *)
Definition is_available (algorithm : string) (n : MiningNode) : bool :=
  String.eqb (status n) "active"
  || (String.eqb (status n) "mining"
      && String.eqb (assigned_algorithm n) algorithm).

(** One turn of its loop; the state is [(best_node, best_score)]. *)
Definition best_node_step (algorithm : string)
    (st : option MiningNode * Q) (node : MiningNode) : option MiningNode * Q :=
  let score := _calculate_algorithm_suitability node algorithm in
  if Qlt_le_dec st.2 score then (Some node, score) else st.

(** [get_optimal_node_assignment]; [values] is [self.nodes.values()]. *)
Definition get_optimal_node_assignment (values : list MiningNode)
    (algorithm : string) : option string :=
  let available_nodes := List.filter (is_available algorithm) values in
  match available_nodes with
  | [] => None
  | _ :: _ =>
      node_id <$> (fold_left (best_node_step algorithm) available_nodes
                     (None, 0%Q)).1
  end.

(** *** One pass of the health check *)

(** What [_ping_node] gets back: nothing usable (no answer, a status other
    than 200, an exception, all of them swallowed), or an answer received at
    clock [t], possibly with a [metrics] payload, which [update_node_status]
    stamps at clock [t']. *)
Inductive ping_outcome : Type :=
| PingFailed
| PingOk (t : Q) (metrics : option (StatusData * Q)).

Definition with_last_seen (node : MiningNode) (t : Q) : MiningNode :=
  {| node_id := node_id node; hostname := hostname node;
     ip_address := ip_address node; port := port node;
     status := status node; last_seen := t;
     cpu_cores := cpu_cores node; cpu_threads := cpu_threads node;
     gpu_count := gpu_count node; gpu_memory := gpu_memory node;
     total_memory := total_memory node;
     hashrate := hashrate node; temperature := temperature node;
     power_usage := power_usage node; uptime := uptime node;
     assigned_algorithm := assigned_algorithm node;
     assigned_pool := assigned_pool node;
     work_segments := work_segments node |}.

Definition with_status (node : MiningNode) (s : string) : MiningNode :=
  {| node_id := node_id node; hostname := hostname node;
     ip_address := ip_address node; port := port node;
     status := s; last_seen := last_seen node;
     cpu_cores := cpu_cores node; cpu_threads := cpu_threads node;
     gpu_count := gpu_count node; gpu_memory := gpu_memory node;
     total_memory := total_memory node;
     hashrate := hashrate node; temperature := temperature node;
     power_usage := power_usage node; uptime := uptime node;
     assigned_algorithm := assigned_algorithm node;
     assigned_pool := assigned_pool node;
     work_segments := work_segments node |}.

(** [_ping_node] for the node object stored under [key]: the object gets the
    new [last_seen], and a [metrics] payload goes to [update_node_status]
    under the object's own [node_id]. *)
Definition _ping_node (cm : ClusterManager) (key : string) (node : MiningNode)
    (answer : ping_outcome) : ClusterManager :=
  match answer with
  | PingFailed => cm
  | PingOk t metrics =>
      let cm1 := with_nodes cm (<[key := with_last_seen node t]> (nodes cm)) in
      match metrics with
      | Some (status_data, t') =>
          update_node_status cm1 (node_id node) status_data t'
      | None => cm1
      end
  end.

(** [self.node_timeout] *)
Definition node_timeout : Q := 300.

(** [current_time - node.last_seen > self.node_timeout] *)
Definition unresponsive (current_time : Q) (node : MiningNode) : bool :=
  if Qlt_le_dec node_timeout (current_time - last_seen node) then true else false.

(** The first loop of the pass, over the keys in iteration order; the state
    is the manager and [nodes_to_remove]. *)
Definition check_node (current_time : Q) (ping : string -> ping_outcome)
    (st : ClusterManager * list string) (key : string)
    : ClusterManager * list string :=
  let '(cm, nodes_to_remove) := st in
  match nodes cm !! key with
  | None => st
  | Some node =>
      if unresponsive current_time node then
        (with_nodes cm (<[key := with_status node "error"]> (nodes cm)),
         nodes_to_remove ++ [key])
      else (_ping_node cm key node (ping key), nodes_to_remove)
  end.

(** One turn of [_health_check_loop], run without interleaving: [keys] is
    the iteration order of [self.nodes], [ping] what each node answers. *)
Definition health_check_pass (cm : ClusterManager) (current_time : Q)
    (ping : string -> ping_outcome) (keys : list string) : ClusterManager :=
  let '(cm1, nodes_to_remove) :=
    fold_left (check_node current_time ping) keys (cm, []) in
  _update_cluster_stats (fold_left unregister_node nodes_to_remove cm1).

End ClusterOps.

(** ** Miners ([mining_engine/algorithms.py]) *)

Module Miner.

(** *** [AlgorithmManager] *)

(** The keys of [self.algorithms]; an algorithm object is represented by
    its key. *)
Definition algorithms : list string := ["SHA256"; "RandomX"; "Ethash"; "Scrypt"].

(** [self.algorithms.get(name.upper())] *)
Definition get_algorithm (name : string) : option string :=
  let key := Policy.str_upper name in
  if bool_decide (key ∈ algorithms) then Some key else None.

Definition list_algorithms : list string := algorithms.

(** [algorithm.upper() in self.algorithms] *)
Definition is_supported (algorithm : string) : bool :=
  bool_decide (Policy.str_upper algorithm ∈ algorithms).

(** A lower-case letter a to z. *)
Definition is_lower (c : ascii) : bool :=
  let n := nat_of_ascii c in ((97 <=? n) && (n <=? 122))%nat.

(** *** Bytes *)

Definition byte_of_Z (z : Z) : Byte.byte :=
  default Byte.x00 (Byte.of_N (Z.to_N (z mod 256))).

Definition Z_of_byte (b : Byte.byte) : Z := Z.of_N (Byte.to_N b).

(** [int.from_bytes(b, byteorder='big')] *)
Definition from_bytes_big (bs : list Byte.byte) : Z :=
  fold_left (fun acc b => (acc * 256 + Z_of_byte b)%Z) bs 0%Z.

(** [struct.pack('<I', n)]; [None] stands for [struct.error]. *)
Definition pack_u32_le (n : Z) : option (list Byte.byte) :=
  if ((0 <=? n) && (n <? 2 ^ 32))%Z then
    Some [byte_of_Z n; byte_of_Z (n / 256); byte_of_Z (n / 65536);
          byte_of_Z (n / 16777216)]
  else None.

(** [bytes.fromhex]: two hexadecimal digits per byte, ASCII white space
    between bytes skipped; [None] stands for [ValueError]. *)
Fixpoint fromhex (s : string) : option (list Byte.byte) :=
  match s with
  | EmptyString => Some []
  | String c rest =>
      if PoolIO.is_space c then fromhex rest
      else
        match rest with
        | EmptyString => None
        | String d rest' =>
            match hex_val c, hex_val d with
            | Some a, Some b =>
                cons (byte_of_Z (Z.of_N (a * 16 + b))) <$> fromhex rest'
            | _, _ => None
            end
        end
  end.

(** [b.hex()] *)
Definition bytes_hex (bs : list Byte.byte) : string :=
  fold_right
    (fun b acc =>
       String (hex_digit (Byte.to_N b / 16))
         (String (hex_digit (Byte.to_N b mod 16)) acc))
    EmptyString bs.

(** [self.difficulty_target] *)
Definition difficulty_target : Z :=
  0x00000000FFFF0000000000000000000000000000000000000000000000000000%Z.

(** [check_difficulty]: an absent target ([None]) is the default one; a
    string cannot be compared with an int ([None] stands for [TypeError]). *)
Definition check_difficulty (hash_result : list Byte.byte) (target : pyval)
    : option bool :=
  let hash_int := from_bytes_big hash_result in
  match target with
  | VNone => Some (hash_int <? difficulty_target)%Z
  | VInt t => Some (hash_int <? t)%Z
  | VFloat q => Some (if Qlt_le_dec (inject_Z hash_int) q then true else false)
  | VStr _ => None
  end.

(** *** [SHA256Algorithm.mine] *)

(** The result dicts.  Python's [True] and [False] are the ints 1 and 0. *)
Definition valid_result (nonce : Z) (hash_result : list Byte.byte)
    (worker_id : string) : pydict :=
  <["valid" := VInt 1]>
  (<["nonce" := VInt nonce]>
  (<["hash" := VStr (bytes_hex hash_result)]>
  (<["algorithm" := VStr "SHA256"]>
  (<["worker_id" := VStr worker_id]> ∅)))).

Definition invalid_result (nonces_tried : Z) : pydict :=
  <["valid" := VInt 0]> (<["nonces_tried" := VInt nonces_tried]> ∅).

(** [block_header[:76] + struct.pack('<I', nonce) + block_header[80:]] *)
Definition header_with_nonce (block_header packed : list Byte.byte)
    : list Byte.byte :=
  firstn 76 block_header ++ packed ++ skipn 80 block_header.

Section Mine.

(** [self.hash]: the double SHA-256 of [hashlib]. *)
Variable hash : list Byte.byte -> list Byte.byte.

(** The loop over [range(nonce_start, nonce_end)], [count] nonces from
    [nonce] on.  [None] is the answer of the [except] clause. *)
Fixpoint mine_loop (block_header : list Byte.byte) (target : pyval)
    (worker_id : string) (nonces_tried : Z) (count : nat) (nonce : Z)
    : option pydict :=
  match count with
  | O => Some (invalid_result nonces_tried)
  | S count' =>
      match pack_u32_le nonce with
      | None => None
      | Some packed =>
          let hash_result := hash (header_with_nonce block_header packed) in
          match check_difficulty hash_result target with
          | None => None
          | Some true => Some (valid_result nonce hash_result worker_id)
          | Some false =>
              mine_loop block_header target worker_id nonces_tried count'
                (nonce + 1)
          end
      end
  end.

(** [mine(work, worker_type, config)]; of [config] only [worker_id] is
    read. *)
Definition mine (work : pydict) (worker_id : string) : option pydict :=
  match dict_get work "data" (VStr "") with
  | VStr data =>
      match fromhex data with
      | None => None
      | Some block_header =>
          let target := dict_get work "target" (VInt difficulty_target) in
          if (length block_header <? 80)%nat then None
          else
            match dict_get work "nonce_start" (VInt 0),
                  dict_get work "nonce_end" (VInt 0xFFFFFFFF) with
            | VInt nonce_start, VInt nonce_end =>
                mine_loop block_header target worker_id
                  (nonce_end - nonce_start)
                  (Z.to_nat (nonce_end - nonce_start)) nonce_start
            | _, _ => None
            end
      end
  | _ => None
  end.

(** Nonce [n] solves the work: the hash of the header carrying it is below
    the target. *)
Definition solves (block_header : list Byte.byte) (target : pyval) (n : Z)
    : Prop :=
  exists packed,
    pack_u32_le n = Some packed
    /\ check_difficulty (hash (header_with_nonce block_header packed)) target
       = Some true.

End Mine.

End Miner.

(** * Properties *)

(** ** Built-ins *)

Section Builtins.

Lemma py_int_nonneg (q : Q) : (0 <= q)%Q -> (0 <= py_int q)%Z.
Proof.
  destruct q as [n d]. unfold Qle, py_int. simpl. intros H.
  apply Z.quot_pos; lia.
Qed.

Lemma py_int_floor (q : Q) : (0 <= q)%Q -> py_int q = Qfloor q.
Proof.
  destruct q as [n d]. unfold Qle, py_int, Qfloor. simpl. intros H.
  apply Z.quot_div_nonneg; lia.
Qed.

Lemma py_max_ge_l (a b : Q) : (a <= py_max a b)%Q.
Proof. unfold py_max. destruct (Qlt_le_dec a b); lra. Qed.

Lemma py_max_Qmax (a b : Q) : (py_max a b == Qmax a b)%Q.
Proof.
  unfold py_max. destruct (Qlt_le_dec a b).
  - symmetry. apply Q.max_r. lra.
  - symmetry. apply Q.max_l. lra.
Qed.

Lemma py_min_Qmin (a b : Q) : (py_min a b == Qmin a b)%Q.
Proof.
  unfold py_min. destruct (Qlt_le_dec b a).
  - symmetry. apply Q.min_r. lra.
  - symmetry. apply Q.min_l. lra.
Qed.

Lemma py_minZ_min (a b : Z) : py_minZ a b = Z.min a b.
Proof. unfold py_minZ. destruct (Z.ltb_spec b a); lia. Qed.

Lemma py_maxZ_max (a b : Z) : py_maxZ a b = Z.max a b.
Proof. unfold py_maxZ. destruct (Z.ltb_spec a b); lia. Qed.

Lemma hex_val_digit (d : N) : (d < 16)%N -> hex_val (hex_digit d) = Some d.
Proof.
  intros H.
  assert (Hc : (d = 0 \/ d = 1 \/ d = 2 \/ d = 3 \/ d = 4 \/ d = 5 \/ d = 6
               \/ d = 7 \/ d = 8 \/ d = 9 \/ d = 10 \/ d = 11 \/ d = 12
               \/ d = 13 \/ d = 14 \/ d = 15)%N) by lia.
  repeat (destruct Hc as [-> | Hc]; [reflexivity|]). now subst.
Qed.

Lemma size_nat_zero (n : N) : N.size_nat n = O -> n = 0%N.
Proof. destruct n as [|p]; [reflexivity|]. destruct p; discriminate. Qed.

Lemma size_nat_div16 (n : N) (f : nat) :
  (N.size_nat n <= S f)%nat -> (N.size_nat (n / 16) <= f)%nat.
Proof.
  intros H. change 16%N with (2 ^ 4)%N. rewrite <- N.shiftr_div_pow2.
  destruct n as [|p]; [simpl; lia|].
  destruct p as [p|p|]; simpl in *; try lia;
    destruct p as [p|p|]; simpl in *; try lia;
    destruct p as [p|p|]; simpl in *; try lia;
    destruct p as [p|p|]; simpl in *; try lia.
Qed.

(** Reading back the digits written by [hex_of_N_aux]. *)
Lemma parse_hex_of_N_aux (f : nat) : forall (n : N) (acc : string),
  (N.size_nat n <= f)%nat ->
  parse_hex_digits (hex_of_N_aux f n acc) 0 = parse_hex_digits acc n.
Proof.
  induction f as [|f IH]; intros n acc Hsz.
  - assert (n = 0%N) by (apply size_nat_zero; lia). now subst.
  - simpl. destruct (N.eqb_spec n 0) as [->|Hn]; [reflexivity|].
    rewrite IH by now apply size_nat_div16.
    simpl. rewrite hex_val_digit by (apply N.mod_lt; lia).
    f_equal. rewrite N.mul_comm. symmetry. apply N.div_mod. lia.
Qed.

Lemma parse_hex_of_N (n : N) : parse_hex_digits (hex_of_N n) 0 = Some n.
Proof.
  unfold hex_of_N. destruct (N.eqb_spec n 0) as [->|Hn]; [reflexivity|].
  now rewrite parse_hex_of_N_aux.
Qed.

Lemma parse_zeros (k : nat) (s : string) :
  parse_hex_digits (zeros k ++ s) 0 = parse_hex_digits s 0.
Proof. induction k as [|k IH]; [reflexivity|]. simpl. exact IH. Qed.

Lemma length_zeros (k : nat) : String.length (zeros k) = k.
Proof. induction k; simpl; congruence. Qed.

Lemma length_app (s t : string) :
  String.length (s ++ t) = (String.length s + String.length t)%nat.
Proof.
  induction s as [|c s IH]; [reflexivity|].
  change (String c s ++ t)%string with (String c (s ++ t)). simpl. congruence.
Qed.

Lemma sign_not_hex (c : ascii) : is_sign c = true -> hex_val c = None.
Proof.
  unfold is_sign. intros H. apply orb_true_iff in H.
  destruct H as [H|H]; apply Ascii.eqb_eq in H; subst; reflexivity.
Qed.

Lemma zfill_parse (w : nat) (s : string) (n : N) :
  parse_hex_digits s 0 = Some n -> parse_hex_digits (zfill w s) 0 = Some n.
Proof.
  intros H. unfold zfill. destruct (w <=? String.length s)%nat; [exact H|].
  destruct s as [|c rest].
  - simpl in H. injection H as <-. clear.
    induction w as [|w IH]; [reflexivity | exact IH].
  - destruct (is_sign c) eqn:Hs.
    + apply sign_not_hex in Hs. simpl in H. now rewrite Hs in H.
    + now rewrite parse_zeros.
Qed.

Lemma zfill_length (w : nat) (s : string) :
  (String.length s <= w)%nat -> String.length (zfill w s) = w.
Proof.
  intros H. unfold zfill. destruct (Nat.leb_spec w (String.length s)); [lia|].
  destruct s as [|c rest]; [apply length_zeros|].
  destruct (is_sign c); simpl in *; rewrite length_app, length_zeros;
    simpl; lia.
Qed.

Lemma length_hex_of_N_aux (f : nat) : forall (k : nat) (n : N) (acc : string),
  (n < 16 ^ N.of_nat k)%N ->
  (String.length (hex_of_N_aux f n acc) <= String.length acc + k)%nat.
Proof.
  induction f as [|f IH]; intros k n acc Hlt; simpl; [lia|].
  destruct (N.eqb_spec n 0) as [->|Hn]; [lia|].
  destruct k as [|k]; [simpl in Hlt; lia|].
  specialize (IH k (n / 16)%N (String (hex_digit (n mod 16)) acc)).
  simpl in IH. etransitivity; [apply IH|lia].
  apply N.Div0.div_lt_upper_bound.
  rewrite Nnat.Nat2N.inj_succ, N.pow_succ_r' in Hlt. exact Hlt.
Qed.

Lemma length_hex_of_N (k : nat) (n : N) :
  (0 < k)%nat -> (n < 16 ^ N.of_nat k)%N -> (String.length (hex_of_N n) <= k)%nat.
Proof.
  intros Hk Hlt. unfold hex_of_N. destruct (N.eqb_spec n 0); [simpl; lia|].
  now apply (length_hex_of_N_aux _ k n "").
Qed.

(** A non-empty string of hexadecimal digits is read by [int(s, 16)] as the
    number its digits spell. *)
Lemma py_int16_digits (s : string) (n : N) :
  s <> EmptyString -> parse_hex_digits s 0 = Some n ->
  py_int16 s = Some (Z.of_N n).
Proof.
  intros Hne H. destruct s as [|c s']; [congruence|].
  assert (Hc : hex_val c <> None) by (simpl in H; destruct (hex_val c); congruence).
  assert (Hstrip : strip_0x (String c s') = String c s').
  { destruct s' as [|c' s'']; [now destruct c as [[] [] [] [] [] [] [] []]|].
    assert (Hc' : hex_val c' <> None).
    { simpl in H. destruct (hex_val c); [|congruence].
      destruct (hex_val c'); congruence. }
    destruct c as [[] [] [] [] [] [] [] []]; try reflexivity.
    destruct c' as [[] [] [] [] [] [] [] []]; try reflexivity;
      exfalso; apply Hc'; reflexivity. }
  assert (Hu : parse_unsigned_hex (String c s') = Some n).
  { unfold parse_unsigned_hex. rewrite Hstrip. exact H. }
  destruct c as [[] [] [] [] [] [] [] []];
    try (exfalso; apply Hc; reflexivity);
    unfold py_int16; rewrite Hu; reflexivity.
Qed.

End Builtins.

(** ** Pool protocol client *)

Section PoolTargets.
Import Pool.

Lemma drop_0x (s : string) : str_drop 2 ("0x" ++ s) = s.
Proof. reflexivity. Qed.

Lemma zfill_length_ge (w : nat) (s : string) :
  (w <= String.length (zfill w s))%nat.
Proof.
  destruct (Nat.le_gt_cases (String.length s) w) as [H|H].
  - rewrite zfill_length; lia.
  - unfold zfill. destruct (Nat.leb_spec w (String.length s)); lia.
Qed.

Lemma zfill_nonempty (w : nat) (s : string) :
  (0 < w)%nat -> zfill w s <> EmptyString.
Proof.
  intros Hw Heq. pose proof (zfill_length_ge w s) as H.
  rewrite Heq in H. simpl in H. lia.
Qed.

(** What [hex(t)[2:].zfill(64)] gives for a non-negative [t]. *)
Lemma hex_zfill_nonneg (t : Z) :
  (0 <= t)%Z ->
  py_int16 (zfill 64 (str_drop 2 (py_hex t))) = Some t /\
  ((t < 16 ^ 64)%Z -> String.length (zfill 64 (str_drop 2 (py_hex t))) = 64%nat).
Proof.
  intros Ht. unfold py_hex.
  destruct (Z.ltb_spec t 0) as [?|_]; [lia|]. rewrite drop_0x. split.
  - rewrite (py_int16_digits _ (Z.to_N t)).
    + now rewrite Z2N.id.
    + apply zfill_nonempty. lia.
    + apply zfill_parse, parse_hex_of_N.
  - intros Hlt. apply zfill_length, length_hex_of_N; [lia|].
    change (16 ^ N.of_nat 64)%N with (Z.to_N (16 ^ 64)).
    apply Z2N.inj_lt; lia.
Qed.

Lemma difficulty_to_target_pos (d : Q) :
  (0 < d)%Q ->
  exists s, _difficulty_to_target d = Ret s
    /\ py_int16 s = Some (Qfloor (inject_Z diff1_target / d))
    /\ ((Qfloor (inject_Z diff1_target / d) < 16 ^ 64)%Z -> String.length s = 64%nat).
Proof.
  intros Hd. unfold _difficulty_to_target.
  destruct (Qeq_bool d 0) eqn:E.
  { apply Qeq_bool_eq in E. lra. }
  assert (Hq : (0 <= inject_Z diff1_target / d)%Q).
  { apply Qle_shift_div_l; [exact Hd|]. rewrite Qmult_0_l.
    change 0%Q with (inject_Z 0). rewrite <- Zle_Qle. now vm_compute. }
  eexists. split; [reflexivity|].
  rewrite (py_int_floor _ Hq).
  apply hex_zfill_nonneg.
  rewrite <- (py_int_floor _ Hq). now apply py_int_nonneg.
Qed.


End PoolTargets.

(** ** Work segmentation *)

Section Segmentation.
Import Optimizer.

Lemma base_sizes_nonneg (a : string) :
  (0 <= default 500000 (base_sizes !! a))%Z.
Proof.
  destruct (base_sizes !! a) as [z|] eqn:E; simpl; [|lia].
  apply elem_of_map_to_list in E.
  vm_compute in E.
  repeat (apply elem_of_cons in E as [E|E]; [injection E as _ ->; lia|]).
  now apply elem_of_nil in E.
Qed.

Lemma difficulty_factor_pos (r : Q) : (0 < py_min 2 (py_max (1 # 10) r))%Q.
Proof.
  unfold py_min, py_max.
  destruct (Qlt_le_dec (1 # 10) r); destruct (Qlt_le_dec _ 2); lra.
Qed.

Lemma base_segment_size_nonneg (algorithm difficulty : pyval) (b : Z) :
  _calculate_base_segment_size algorithm difficulty = Ret b -> (0 <= b)%Z.
Proof.
  unfold _calculate_base_segment_size.
  set (bs := match algorithm with VStr a => _ | _ => _ end).
  assert (Hbs : (0 <= bs)%Z).
  { subst bs. destruct algorithm; try lia. apply base_sizes_nonneg. }
  intros H.
  assert (Hgen : forall r, (0 <= py_int (inject_Z bs * py_min 2 (py_max (1 # 10) r)))%Z).
  { intros r. apply py_int_nonneg. apply Qmult_le_0_compat.
    - change 0%Q with (inject_Z 0). now rewrite <- Zle_Qle.
    - apply Qlt_le_weak, difficulty_factor_pos. }
  destruct difficulty; simpl in H; try discriminate;
    injection H as <-; apply Hgen.
Qed.

Lemma adjusted_size_nonneg (b : Z) (e : Q) :
  (0 <= b)%Z -> (0 <= e)%Q -> (0 <= adjusted_size b e)%Z.
Proof.
  intros Hb He. apply py_int_nonneg, Qmult_le_0_compat; [|exact He].
  change 0%Q with (inject_Z 0). now rewrite <- Zle_Qle.
Qed.

(** One turn of the loop moves [current_nonce] forward: the segment end is
    not before the current nonce, and the next nonce is one past it. *)
Lemma loop_advances (size ne cur : Z) :
  (0 <= size)%Z -> (cur < ne)%Z ->
  (cur <= py_minZ (cur + size) ne)%Z /\ (cur < py_minZ (cur + size) ne + 1)%Z.
Proof. intros. rewrite py_minZ_min. lia. Qed.

Lemma segment_loop_done (fuel : nat) work w size ne active cur sid :
  (ne <= cur)%Z ->
  segment_loop fuel work w size ne active cur sid = Some (active, []).
Proof.
  intros H. destruct fuel; simpl; destruct (Z.ltb_spec cur ne); (lia || reflexivity).
Qed.

Lemma segment_loop_step (fuel : nat) work w size ne active cur sid :
  (cur < ne)%Z ->
  segment_loop (S fuel) work w size ne active cur sid =
  let segment_end := Z.min (cur + size) ne in
  let segment_work := segment_dict work w cur segment_end sid in
  match segment_loop fuel work w size ne
          (<[(w ++ "_" ++ pretty sid)%string :=
               {| segment_id := (w ++ "_" ++ pretty sid)%string;
                  work_data := segment_work;
                  nonce_start := cur; nonce_end := segment_end;
                  assigned_worker := w |}]> active)
          (segment_end + 1) (sid + 1) with
  | Some (active', segments) => Some (active', segment_work :: segments)
  | None => None
  end.
Proof.
  intros H. simpl. destruct (Z.ltb_spec cur ne); [|lia].
  now rewrite py_minZ_min.
Qed.

Lemma segment_loop_enough_fuel (fuel : nat) :
  forall work w size ne active cur sid,
  (0 <= size)%Z -> (Z.to_nat (ne - cur) <= fuel)%nat ->
  exists active' segs,
    segment_loop fuel work w size ne active cur sid = Some (active', segs)
    /\ (length segs <= Z.to_nat (ne - cur))%nat.
Proof.
  induction fuel as [|fuel IH]; intros work w size ne active cur sid Hs Hf.
  - simpl. destruct (Z.ltb_spec cur ne); [lia|].
    eexists _, _. split; [reflexivity|simpl; lia].
  - simpl. destruct (Z.ltb_spec cur ne) as [Hlt|Hge].
    + destruct (loop_advances size ne cur Hs Hlt) as [_ Hadv].
      edestruct (IH work w size ne) as (a' & segs & -> & Hlen); [exact Hs| |].
      2:{ eexists _, _. split; [reflexivity|]. simpl.
          etransitivity; [apply le_n_S, Hlen|]. lia. }
      lia.
    + eexists _, _. split; [reflexivity|simpl; lia].
Qed.

Lemma segment_dict_range (work : pydict) (w : string) (cur e sid : Z) :
  segment_range (segment_dict work w cur e sid) = Some (cur, e).
Proof.
  unfold segment_range, segment_dict, dict_update. simpl.
  rewrite !lookup_insert_ne by discriminate.
  rewrite lookup_insert_eq.
  rewrite !lookup_insert_ne by discriminate.
  now rewrite lookup_insert_eq.
Qed.

(** Every segment produced from [cur] on starts at or after [cur]. *)
Lemma segment_loop_starts (fuel : nat) :
  forall work w size ne active cur sid active' segs,
  (0 <= size)%Z ->
  segment_loop fuel work w size ne active cur sid = Some (active', segs) ->
  forall seg, In seg segs ->
    exists a b, segment_range seg = Some (a, b) /\ (cur <= a)%Z.
Proof.
  induction fuel as [|fuel IH]; intros work w size ne active cur sid a' segs Hs H seg Hin.
  - simpl in H. destruct (cur <? ne)%Z; [discriminate|].
    injection H as _ <-. destruct Hin.
  - simpl in H. destruct (Z.ltb_spec cur ne) as [Hlt|Hge].
    + destruct (segment_loop fuel _ _ _ _ _ _ _) as [[a1 segs1]|] eqn:E;
        [|discriminate].
      injection H as _ <-. destruct Hin as [<-|Hin].
      * eexists _, _. split; [apply segment_dict_range|lia].
      * destruct (IH _ _ _ _ _ _ _ _ _ Hs E seg Hin) as (a & b & Hr & Hle).
        exists a, b. split; [exact Hr|].
        destruct (loop_advances size ne cur Hs Hlt). lia.
    + injection H as _ <-. destruct Hin.
Qed.

(** The nonce at the end of the first segment is searched by nobody, as soon
    as that end lies inside the range. *)
Lemma segment_loop_gap (fuel : nat) work w size ne active cur sid active' segs :
  (0 <= size)%Z -> (cur + size < ne)%Z ->
  segment_loop fuel work w size ne active cur sid = Some (active', segs) ->
  forall seg, In seg segs -> ~ Spec.covers seg (cur + size).
Proof.
  intros Hs Hlt H seg Hin (a & b & Hr & Hab).
  destruct fuel as [|fuel]; simpl in H.
  - destruct (cur <? ne)%Z; [discriminate|]. injection H as _ <-. destruct Hin.
  - destruct (Z.ltb_spec cur ne) as [_|?]; [|lia].
    destruct (segment_loop fuel _ _ _ _ _ _ _) as [[a1 segs1]|] eqn:E;
      [|discriminate].
    injection H as _ <-. rewrite py_minZ_min in *.
    replace (Z.min (cur + size) ne) with (cur + size)%Z in * by lia.
    destruct Hin as [<-|Hin].
    + rewrite segment_dict_range in Hr. injection Hr as <- <-. lia.
    + destruct (segment_loop_starts _ _ _ _ _ _ _ _ _ _ Hs E seg Hin)
        as (a2 & b2 & Hr2 & Hle).
      rewrite Hr in Hr2. injection Hr2 as <- <-. lia.
Qed.

(** C1 (the code at a failing input). With the default algorithm, target and
    efficiency the segment size is 1,000,000; the range [0, 2000001) is cut
    into the segments [0, 1000000) and [1000001, 2000001), and nonce
    1,000,000, which belongs to the input range, is in neither. *)
Theorem segment_work_skips_boundary_nonce :
  let work : pydict :=
    <["nonce_start" := VInt 0]> (<["nonce_end" := VInt 2000001]> ∅) in
  exists opt' segs,
    segment_work 2 (init (1 # 10)) work "w1" = Segments opt' segs
    /\ map segment_range segs
       = [Some (0, 1000000)%Z; Some (1000001, 2000001)%Z]
    /\ (0 <= 1000000 < 2000001)%Z
    /\ forall seg, In seg segs -> ~ Spec.covers seg 1000000.
Proof.
  intros work.
  assert (Hbase : _calculate_base_segment_size
                    (dict_get work "algorithm" (VStr "SHA256"))
                    (dict_get work "target" (VInt diff1_target)) = Ret 1000000%Z)
    by now vm_compute.
  unfold segment_work. rewrite Hbase.
  change (adjusted_size 1000000 (efficiency_of (init (1 # 10)) "w1"))
    with 1000000%Z.
  change (dict_get work "nonce_start" (VInt 0)) with (VInt 0).
  change (dict_get work "nonce_end" (VInt 4294967295)) with (VInt 2000001).
  cbv iota beta.
  assert (E : exists a',
             segment_loop 2 work "w1" 1000000 2000001
               (active_segments (init (1 # 10))) 0 0
             = Some (a', [segment_dict work "w1" 0 1000000 0;
                          segment_dict work "w1" 1000001 2000001 1])).
  { rewrite segment_loop_step by lia. cbv zeta.
    change (Z.min (0 + 1000000) 2000001)%Z with 1000000%Z.
    change (1000000 + 1)%Z with 1000001%Z.
    rewrite segment_loop_step by lia. cbv zeta.
    change (Z.min (1000001 + 1000000) 2000001)%Z with 2000001%Z.
    rewrite segment_loop_done by lia.
    eexists. reflexivity. }
  destruct E as [a' E]. rewrite E.
  eexists (with_active (init (1 # 10)) a'), _.
  split; [reflexivity|]. split; [|split; [lia|]].
  - simpl. now rewrite !segment_dict_range.
  - assert (Hs : (0 <= 1000000)%Z) by lia.
    assert (Hlt : (0 + 1000000 < 2000001)%Z) by lia.
    exact (segment_loop_gap 2 work "w1" 1000000 2000001 _ 0 0 a' _ Hs Hlt E).
Qed.

End Segmentation.

Section SegmentationTermination.
Import Optimizer.

(** C9. For a work dict whose nonce bounds are integers (or absent) and a
    worker whose efficiency is not negative, [segment_work] comes to an end:
    either the target entry cannot be divided and the call raises, or the
    adjusted segment size is non-negative (possibly 0), every turn of the
    loop moves [current_nonce] at least one step forward, and with fuel
    [nonce_end - nonce_start] the loop returns its segments, at most
    [nonce_end - nonce_start] of them. *)
Theorem segment_work_terminates (opt : AIOptimizer) (work : pydict)
    (worker_id : string) (ns ne : Z) (fuel : nat) :
  dict_get work "nonce_start" (VInt 0) = VInt ns ->
  dict_get work "nonce_end" (VInt 0xFFFFFFFF) = VInt ne ->
  (0 <= efficiency_of opt worker_id)%Q ->
  (Z.to_nat (ne - ns) <= fuel)%nat ->
  match _calculate_base_segment_size
          (dict_get work "algorithm" (VStr "SHA256"))
          (dict_get work "target" (VInt diff1_target)) with
  | Raise e => segment_work fuel opt work worker_id = SegRaise e
  | Ret base =>
      let size := adjusted_size base (efficiency_of opt worker_id) in
      (0 <= size)%Z
      /\ (forall cur, (cur < ne)%Z ->
            (cur <= py_minZ (cur + size) ne)%Z
            /\ (cur + 1 <= py_minZ (cur + size) ne + 1)%Z)
      /\ exists opt' segs,
           segment_work fuel opt work worker_id = Segments opt' segs
           /\ (length segs <= Z.to_nat (ne - ns))%nat
  end.
Proof.
  intros Hns Hne Heff Hfuel. unfold segment_work.
  destruct (_calculate_base_segment_size _ _) as [base|e] eqn:Hb; [|reflexivity].
  pose proof (base_segment_size_nonneg _ _ _ Hb) as Hbase.
  pose proof (adjusted_size_nonneg base _ Hbase Heff) as Hsize.
  cbv zeta. split; [exact Hsize|]. split.
  - intros cur Hcur. destruct (loop_advances _ ne cur Hsize Hcur). lia.
  - rewrite Hns, Hne.
    destruct (segment_loop_enough_fuel fuel work worker_id
                (adjusted_size base (efficiency_of opt worker_id)) ne
                (active_segments opt) ns 0 Hsize Hfuel)
      as (a' & segs & -> & Hlen).
    eexists _, _. split; [reflexivity|exact Hlen].
Qed.

Lemma segment_work_terminates_witness :
  let work : pydict := <["nonce_start" := VInt 0]> (<["nonce_end" := VInt 5]> ∅) in
  exists opt' segs,
    segment_work 5 (init (1 # 10)) work "w1" = Segments opt' segs
    /\ (length segs <= 5)%nat.
Proof.
  intros work.
  pose proof (segment_work_terminates (init (1 # 10)) work "w1" 0 5 5
                eq_refl eq_refl) as H.
  assert (Heff : (0 <= efficiency_of (init (1 # 10)) "w1")%Q)
    by (vm_compute; discriminate).
  assert (Hfuel : (Z.to_nat (5 - 0) <= 5)%nat) by (simpl; lia).
  specialize (H Heff Hfuel).
  change (_calculate_base_segment_size
            (dict_get work "algorithm" (VStr "SHA256"))
            (dict_get work "target" (VInt diff1_target)))
    with (Ret (A := Z) 1000000%Z) in H.
  exact (proj2 (proj2 H)).
Defined.

End SegmentationTermination.

(** ** Efficiency feedback *)

Section Efficiency.
Import Optimizer.

Import Spec.

Lemma eff_rejection (opt : AIOptimizer) result w now w' :
  efficiency_of (record_rejection opt result w now) w' =
  if decide (w = w')
  then py_max (1 # 10) (efficiency_of opt w * (98 # 100))
  else efficiency_of opt w'.
Proof.
  unfold efficiency_of at 1. simpl. rewrite lookup_insert.
  destruct (decide (w = w')); reflexivity.
Qed.

Lemma eff_performance (opt : AIOptimizer) metrics now w' :
  let w := default "" (m_worker_id metrics) in
  efficiency_of (record_performance opt metrics now) w' =
  if nonempty w && is_clean (Performance metrics now) && bool_decide (w = w')
  then py_min 2 (efficiency_of opt w * (101 # 100))
  else efficiency_of opt w'.
Proof.
  intros w. unfold efficiency_of at 1. simpl. fold w.
  destruct (nonempty w); simpl; [|reflexivity].
  destruct (Qlt_le_dec _ _); simpl; [|reflexivity].
  rewrite lookup_insert. destruct (decide (w = w')) as [->|Hne].
  - now rewrite bool_decide_eq_true_2.
  - now rewrite bool_decide_eq_false_2.
Qed.

Lemma rejection_step_bounds (e : Q) :
  (1 # 10 <= e)%Q -> (e <= 2)%Q ->
  (1 # 10 <= py_max (1 # 10) (e * (98 # 100)))%Q
  /\ (py_max (1 # 10) (e * (98 # 100)) <= e)%Q.
Proof.
  intros. unfold py_max. destruct (Qlt_le_dec _ _); split; lra.
Qed.

Lemma clean_step_bounds (e : Q) :
  (1 # 10 <= e)%Q -> (e <= 2)%Q ->
  (e <= py_min 2 (e * (101 # 100)))%Q
  /\ (py_min 2 (e * (101 # 100)) <= 2)%Q.
Proof.
  intros. unfold py_min. destruct (Qlt_le_dec _ _); split; lra.
Qed.

Lemma bounded_init (lr : Q) : bounded (init lr).
Proof. intros w. unfold efficiency_of. simpl. rewrite lookup_empty. simpl. lra. Qed.

Lemma bounded_step (opt : AIOptimizer) (r : report) :
  bounded opt -> bounded (apply_report opt r).
Proof.
  intros Hb w'. destruct r as [result w now|metrics now]; simpl.
  - rewrite eff_rejection. destruct (decide (w = w')); [|apply Hb].
    destruct (Hb w). destruct (rejection_step_bounds (efficiency_of opt w)); lra.
  - rewrite eff_performance. destruct (_ && _ && _); [|apply Hb].
    destruct (Hb (default "" (m_worker_id metrics))).
    destruct (clean_step_bounds
                (efficiency_of opt (default "" (m_worker_id metrics)))); lra.
Qed.

Lemma bounded_run (rs : list report) : forall opt,
  bounded opt -> bounded (run_reports opt rs).
Proof.
  induction rs as [|r rs IH]; intros opt Hb; [exact Hb|].
  apply IH, bounded_step, Hb.
Qed.

Lemma rejection_step_le (opt : AIOptimizer) (r : report) (w : string) :
  bounded opt -> is_rejection r = true ->
  (efficiency_of (apply_report opt r) w <= efficiency_of opt w)%Q.
Proof.
  intros Hb Hr. destruct r as [result w0 now|]; [|discriminate]. simpl.
  rewrite eff_rejection. destruct (decide (w0 = w)) as [->|]; [|lra].
  destruct (Hb w). destruct (rejection_step_bounds (efficiency_of opt w)); lra.
Qed.

Lemma clean_step_ge (opt : AIOptimizer) (r : report) (w : string) :
  bounded opt -> is_clean r = true ->
  (efficiency_of opt w <= efficiency_of (apply_report opt r) w)%Q.
Proof.
  intros Hb Hr. destruct r as [|metrics now]; [discriminate|]. simpl.
  rewrite eff_performance.
  destruct (_ && _ && _) eqn:E; [|lra].
  apply andb_true_iff in E as [_ E]. apply bool_decide_eq_true in E. rewrite E.
  destruct (Hb w). destruct (clean_step_bounds (efficiency_of opt w)); lra.
Qed.

Lemma rejections_nonincreasing (rs : list report) (w : string) : forall opt,
  bounded opt -> forallb is_rejection rs = true ->
  (efficiency_of (run_reports opt rs) w <= efficiency_of opt w)%Q.
Proof.
  induction rs as [|r rs IH]; intros opt Hb Hall; simpl in *; [lra|].
  apply andb_true_iff in Hall as [Hr Hrs].
  pose proof (rejection_step_le opt r w Hb Hr).
  pose proof (IH (apply_report opt r) (bounded_step _ _ Hb) Hrs).
  unfold run_reports in *. lra.
Qed.

Lemma cleans_nondecreasing (rs : list report) (w : string) : forall opt,
  bounded opt -> forallb is_clean rs = true ->
  (efficiency_of opt w <= efficiency_of (run_reports opt rs) w)%Q.
Proof.
  induction rs as [|r rs IH]; intros opt Hb Hall; simpl in *; [lra|].
  apply andb_true_iff in Hall as [Hr Hrs].
  pose proof (clean_step_ge opt r w Hb Hr).
  pose proof (IH (apply_report opt r) (bounded_step _ _ Hb) Hrs).
  unfold run_reports in *. lra.
Qed.

(** C7. A worker's efficiency starts at 1.0; a rejection recorded for the
    worker makes it [max(0.1, e * 0.98)]; a performance sample of the worker
    with a rejection rate below 0.02 makes it [min(2.0, e * 1.01)]; after
    any history of reports, a further run of rejections never raises it, a
    further run of clean samples never lowers it, and it always lies in
    [0.1, 2.0]. *)
Theorem worker_efficiency_feedback (lr : Q) (history rs : list report)
    (w : string) :
  let opt := run_reports (init lr) history in
  (efficiency_of (init lr) w == 1)%Q
  /\ (forall result now,
        (efficiency_of (record_rejection opt result w now) w
         == Qmax (1 # 10) (efficiency_of opt w * (98 # 100)))%Q)
  /\ (forall metrics now,
        m_worker_id metrics = Some w -> w <> EmptyString ->
        (default 0 (m_rejection_rate metrics) < 2 # 100)%Q ->
        (efficiency_of (record_performance opt metrics now) w
         == Qmin 2 (efficiency_of opt w * (101 # 100)))%Q)
  /\ (forallb is_rejection rs = true ->
      (efficiency_of (run_reports opt rs) w <= efficiency_of opt w)%Q)
  /\ (forallb is_clean rs = true ->
      (efficiency_of opt w <= efficiency_of (run_reports opt rs) w)%Q)
  /\ (1 # 10 <= efficiency_of (run_reports opt rs) w)%Q
  /\ (efficiency_of (run_reports opt rs) w <= 2)%Q.
Proof.
  intros opt.
  assert (Hb : bounded opt) by apply bounded_run, bounded_init.
  split; [unfold efficiency_of; simpl; rewrite lookup_empty; reflexivity|].
  split.
  { intros result now. rewrite eff_rejection.
    destruct (decide (w = w)); [|congruence]. apply py_max_Qmax. }
  split.
  { intros metrics now Hw Hne Hrate. rewrite eff_performance.
    rewrite Hw. simpl.
    assert (Hn : nonempty w = true).
    { unfold nonempty. destruct (String.eqb_spec w ""); [congruence|reflexivity]. }
    rewrite Hn. simpl.
    destruct (Qlt_le_dec _ _); [|lra]. simpl.
    rewrite bool_decide_eq_true_2 by reflexivity. apply py_min_Qmin. }
  split; [apply rejections_nonincreasing, Hb|].
  split; [apply cleans_nondecreasing, Hb|].
  apply (bounded_run rs opt Hb w).
Qed.

End Efficiency.

(** ** Worker configuration *)

Section WorkerConfiguration.
Import Optimizer.

Lemma threads_by_memory_zero (available : Z) :
  (0 <= available < 2 * GiB)%Z ->
  Qfloor (inject_Z available / inject_Z GiB / 2) = 0%Z.
Proof.
  intros [Hlo Hhi].
  change (2 * GiB)%Z with 2147483648%Z in Hhi.
  rewrite Zle_Qle in Hlo. rewrite Zlt_Qlt in Hhi.
  change (inject_Z GiB) with (1073741824 # 1)%Q.
  change (inject_Z 0) with 0%Q in Hlo.
  change (inject_Z 2147483648) with (2147483648 # 1)%Q in Hhi.
  set (x := (inject_Z available / (1073741824 # 1) / 2)%Q).
  assert (Hx : (0 <= x)%Q /\ (x < 1)%Q).
  { subst x. unfold Qdiv. split.
    - repeat apply Qmult_le_0_compat; try exact Hlo; now vm_compute.
    - change (/ (1073741824 # 1))%Q with (1 # 1073741824)%Q.
      change (/ 2)%Q with (1 # 2)%Q. lra. }
  destruct Hx as [Hx0 Hx1].
  pose proof (Qfloor_resp_le _ _ Hx0) as H0. change (Qfloor 0) with 0%Z in H0.
  pose proof (Qfloor_le x) as H1.
  assert (H2 : (inject_Z (Qfloor x) < inject_Z 1)%Q)
    by (change (inject_Z 1) with 1%Q; lra).
  rewrite <- Zlt_Qlt in H2. lia.
Qed.

(** C10. With RandomX selected and less than 2 GiB of available memory the
    configuration has [cpu_threads = 0] and [gpu_intensity = 0]: the base
    thread count [max(1, cores - 1)] is at least 1, and the memory cap
    [floor(availableGiB / 2) = 0] is applied to it afterwards. *)
Theorem randomx_low_memory_zero_threads (hardware_info : HardwareInfo) :
  (0 <= default 0 (memory_available hardware_info) < 2 * GiB)%Z ->
  (1 <= py_maxZ 1 (default 1 (cpu_cores hardware_info) - 1))%Z
  /\ _optimize_worker_configuration hardware_info "RandomX"
     = {| cpu_threads := 0; gpu_intensity := 0 |}.
Proof.
  intros Hmem. split; [rewrite py_maxZ_max; lia|].
  unfold _optimize_worker_configuration.
  change (String.eqb "RandomX" "RandomX") with true. cbv beta iota zeta.
  rewrite threads_by_memory_zero by exact Hmem.
  simpl (cpu_threads _).
  rewrite py_minZ_min, py_maxZ_max. f_equal. lia.
Qed.

Lemma randomx_low_memory_zero_threads_witness :
  _optimize_worker_configuration
    {| cpu_cores := Some 8%Z; gpus := []; memory_available := Some GiB |}
    "RandomX"
  = {| cpu_threads := 0; gpu_intensity := 0 |}.
Proof.
  refine (proj2 (randomx_low_memory_zero_threads
                   {| cpu_cores := Some 8%Z; gpus := [];
                      memory_available := Some GiB |} _)).
  simpl. unfold GiB. lia.
Defined.

End WorkerConfiguration.

(** ** Cluster manager *)

Section ClusterScores.
Import Cluster.

Lemma multiplier_table (a : string) :
  default 1%Q (algorithm_multipliers !! a) = Spec.spec_multiplier a.
Proof.
  unfold Spec.spec_multiplier, algorithm_multipliers.
  destruct (String.eqb_spec a "SHA256") as [->|H1]; [reflexivity|].
  destruct (String.eqb_spec a "Ethash") as [->|H2]; [reflexivity|].
  destruct (String.eqb_spec a "RandomX") as [->|H3]; [reflexivity|].
  destruct (String.eqb_spec a "Scrypt") as [->|H4]; [reflexivity|].
  rewrite !lookup_insert_ne by congruence. now rewrite lookup_empty.
Qed.

Lemma hardware_score_formula (n : MiningNode) :
  (_calculate_hardware_score n == Spec.spec_hardware_score n)%Q.
Proof.
  unfold _calculate_hardware_score, Spec.spec_hardware_score, GiB. cbv zeta.
  rewrite inject_Z_plus, !inject_Z_mult.
  change (inject_Z 10) with 10%Q. change (inject_Z 5) with 5%Q.
  change (inject_Z 50) with 50%Q. unfold Qdiv. ring.
Qed.

(** C3 as stated fails: a 1-core, 1-thread SHA256 node has score 15 and
    multiplier 1.0, and its expected hashrate is 15000, not 15. *)
Lemma expected_hashrate_is_scaled :
  (_expected_hashrate Spec.sample_node == 15000)%Q
  /\ (Spec.spec_hardware_score Spec.sample_node
      * Spec.spec_multiplier (assigned_algorithm Spec.sample_node) == 15)%Q
  /\ ~ (_expected_hashrate Spec.sample_node
        == Spec.spec_hardware_score Spec.sample_node
           * Spec.spec_multiplier (assigned_algorithm Spec.sample_node))%Q.
Proof.
  split; [now vm_compute|]. split; [now vm_compute|].
  intros H. vm_compute in H. discriminate.
Qed.

(** C3 (amended). The expected hashrate of a node is its hardware score
    ([cores*10 + threads*5 + gpuCount*50 + gpuMemGB*20 + totalMemGB*2])
    times the algorithm multiplier (SHA256 1.0, Ethash 1.2, RandomX 0.8,
    Scrypt 0.6, anything else 1.0) times the constant 1000. *)
Theorem expected_hashrate_formula (n : MiningNode) :
  (_expected_hashrate n
   == Spec.spec_hardware_score n
      * Spec.spec_multiplier (assigned_algorithm n) * 1000)%Q.
Proof.
  unfold _expected_hashrate. cbv zeta.
  now rewrite multiplier_table, hardware_score_formula.
Qed.

End ClusterScores.

Section Registry.
Import Cluster.

Lemma update_cluster_stats_consistent (cm : ClusterManager) :
  stats_consistent (_update_cluster_stats cm).
Proof. reflexivity. Qed.

Lemma register_node_consistent cm info uuid now :
  stats_consistent (register_node cm info uuid now).1.
Proof. reflexivity. Qed.

Lemma unregister_node_consistent cm id :
  stats_consistent cm -> stats_consistent (unregister_node cm id).
Proof.
  intros H. unfold unregister_node. destruct (nodes cm !! id); [reflexivity|exact H].
Qed.

Lemma update_node_status_consistent cm id sd now :
  stats_consistent cm -> stats_consistent (update_node_status cm id sd now).
Proof.
  intros H. unfold update_node_status.
  destruct (nodes cm !! id); [reflexivity|exact H].
Qed.

Lemma assign_work_failure_consistent cm id alg pool segs cmd :
  cmd <> CmdAnswer true ->
  stats_consistent cm -> stats_consistent (assign_work cm id alg pool segs cmd).1.
Proof.
  intros Hc H. unfold assign_work. destruct (nodes cm !! id); [|exact H].
  destruct cmd as [[]|]; [congruence|exact H|exact H].
Qed.

(** C4 (the code at a failing input). After registering node ["n1"] the
    stored statistics are the derived ones; a successful [assign_work] then
    puts the node in state [mining] with algorithm SHA256 and leaves the
    stored statistics as they were: they list no running algorithm, while
    the statistics derived from the node map list SHA256. *)
Theorem assign_work_leaves_stats_stale :
  let cm1 := Spec.one_node in
  let r := assign_work cm1 "n1" "SHA256" "poolA" ["seg1"] (CmdAnswer true) in
  stats_consistent cm1
  /\ r.2 = true
  /\ algorithms_running (cluster_stats r.1) = ∅
  /\ "SHA256" ∈ algorithms_running (compute_stats (nodes r.1))
  /\ ~ stats_consistent r.1.
Proof.
  intros cm1 r.
  assert (H1 : algorithms_running (cluster_stats r.1) = ∅) by now vm_compute.
  assert (H2 : "SHA256" ∈ algorithms_running (compute_stats (nodes r.1))).
  { apply (bool_decide_unpack _). vm_compute. exact I. }
  split; [reflexivity|]. split; [reflexivity|].
  split; [exact H1|]. split; [exact H2|].
  unfold stats_consistent. intros H. rewrite <- H, H1 in H2.
  now apply not_elem_of_empty in H2.
Qed.

(** C5 as stated fails: node ["n1"] reports a hashrate of 5 and is then
    registered again; its hashrate is 0 afterwards. *)
Lemma reregistration_resets_metrics :
  let cm2 := update_node_status Spec.one_node "n1" (Spec.hashrate_report 5) 1 in
  let cm3 := (register_node cm2 (Spec.info_of "n1" 8) "uuid" 2).1 in
  exists old new,
    nodes cm2 !! "n1" = Some old /\ nodes cm3 !! "n1" = Some new
    /\ hashrate old = 5%Q /\ hashrate new = 0%Q
    /\ Spec.runtime_metrics new <> Spec.runtime_metrics old.
Proof.
  intros cm2 cm3.
  destruct (nodes cm2 !! "n1") as [old|] eqn:E2; [|now vm_compute in E2].
  destruct (nodes cm3 !! "n1") as [new|] eqn:E3; [|now vm_compute in E3].
  exists old, new. split; [reflexivity|]. split; [reflexivity|].
  vm_compute in E2. vm_compute in E3.
  injection E2 as <-. injection E3 as <-.
  split; [reflexivity|]. split; [reflexivity|].
  unfold Spec.runtime_metrics. simpl. intros H. discriminate H.
Qed.

(** C5 (amended). Registering with an id that is already present replaces
    the node record: the hardware fields come from the supplied info (1 core
    and 1 thread, 0 GPUs and 0 memory when absent), the status is [active],
    [last_seen] is the time of the call, and every runtime metric is back at
    its initial value (hashrate 0, no temperatures, power 0, uptime 0, no
    algorithm, no pool, no segments).  The other nodes are untouched. *)
Theorem reregistration_replaces_node (cm : ClusterManager) (info : NodeInfo)
    (uuid id : string) (now : Q) (old : MiningNode) :
  ni_node_id info = Some id -> id <> EmptyString ->
  nodes cm !! id = Some old ->
  let r := register_node cm info uuid now in
  r.2 = id
  /\ (exists new,
        nodes r.1 !! id = Some new
        /\ Spec.hardware_fields new
           = (default 1%Z (ni_cpu_cores info), default 1%Z (ni_cpu_threads info),
              default 0%Z (ni_gpu_count info), default 0%Z (ni_gpu_memory info),
              default 0%Z (ni_total_memory info))
        /\ Spec.runtime_metrics new = (0%Q, ∅, 0%Q, 0%Q, ""%string, ""%string, [])
        /\ status new = "active"%string /\ last_seen new = now)
  /\ (forall id', id' <> id -> nodes r.1 !! id' = nodes cm !! id')
  /\ stats_consistent r.1.
Proof.
  intros Hid Hne Hold r.
  assert (Hc : chosen_id info uuid = id).
  { unfold chosen_id. rewrite Hid. unfold nonempty.
    destruct (String.eqb_spec id ""); [congruence|reflexivity]. }
  subst r. unfold register_node. rewrite Hc. simpl.
  split; [reflexivity|]. split.
  - eexists. rewrite lookup_insert_eq. split; [reflexivity|].
    repeat split.
  - split; [|reflexivity]. intros id' Hne'. now rewrite lookup_insert_ne.
Qed.

Lemma reregistration_replaces_node_witness :
  let cm2 := update_node_status Spec.one_node "n1" (Spec.hashrate_report 5) 1 in
  (register_node cm2 (Spec.info_of "n1" 8) "uuid" 2).2 = "n1"%string.
Proof.
  intros cm2.
  destruct (nodes cm2 !! "n1") as [old|] eqn:E; [|now vm_compute in E].
  assert (Hne : "n1"%string <> EmptyString) by discriminate.
  exact (proj1 (reregistration_replaces_node cm2 (Spec.info_of "n1" 8) "uuid"
                  "n1" 2 old eq_refl Hne E)).
Defined.

(** C6. For a registered node: when the assignment command answers false or
    raises, [assign_work] returns false and the whole manager, this node
    included, is as before; when it answers true, [assign_work] returns
    true, the node's algorithm, pool and segments are the arguments, its
    status is [mining], its other fields and all other nodes are as
    before. *)
Theorem assign_work_outcomes (cm : ClusterManager) (id algorithm pool : string)
    (segments : list string) (cmd : cmd_outcome) (node : MiningNode) :
  nodes cm !! id = Some node ->
  let r := assign_work cm id algorithm pool segments cmd in
  (cmd <> CmdAnswer true -> r = (cm, false))
  /\ (cmd = CmdAnswer true ->
      r.2 = true
      /\ (exists node',
            nodes r.1 !! id = Some node'
            /\ assigned_algorithm node' = algorithm
            /\ assigned_pool node' = pool
            /\ work_segments node' = segments
            /\ status node' = "mining"%string
            /\ Spec.hardware_fields node' = Spec.hardware_fields node
            /\ (hashrate node', temperature node', power_usage node', uptime node',
                last_seen node')
               = (hashrate node, temperature node, power_usage node, uptime node,
                  last_seen node)
            /\ (node_id node', hostname node', ip_address node', port node')
               = (node_id node, hostname node, ip_address node, port node))
      /\ (forall id', id' <> id -> nodes r.1 !! id' = nodes cm !! id')).
Proof.
  intros Hnode r. subst r. unfold assign_work. rewrite Hnode. split.
  - intros Hc. destruct cmd as [[]|]; [congruence|reflexivity|reflexivity].
  - intros ->. simpl. split; [reflexivity|]. split.
    + eexists. rewrite lookup_insert_eq. repeat split.
    + intros id' Hne. now rewrite lookup_insert_ne.
Qed.

Lemma assign_work_outcomes_witness :
  assign_work Spec.one_node "n1" "SHA256" "poolA" ["seg1"] (CmdAnswer false)
  = (Spec.one_node, false).
Proof.
  destruct (nodes Spec.one_node !! "n1") as [node|] eqn:E; [|now vm_compute in E].
  refine (proj1 (assign_work_outcomes Spec.one_node "n1" "SHA256" "poolA"
                   ["seg1"] (CmdAnswer false) node E) _).
  discriminate.
Defined.

End Registry.

(** ** Handing out work *)

Section PoolWork.
Import Pool.

Lemma alloc_fresh (h : store) (d : pydict) :
  h !! (alloc h d).2 = None /\ (alloc h d).1 = <[(alloc h d).2 := d]> h.
Proof.
  unfold alloc. simpl. split; [|reflexivity].
  apply not_elem_of_dom, is_fresh.
Qed.




(** Work stored by [_handle_mining_notify] for a pool of positive
    difficulty has a target entry that [get_work] can read. *)
Lemma notify_stores_readable_target pm h p params now ntime_default :
  (0 < difficulty p)%Q -> (7 <= length params)%nat ->
  exists l d,
    h !! l = None
    /\ (_handle_mining_notify pm h p params now ntime_default).2 = <[l := d]> h
    /\ In (name p, with_last_work p l)
         (pools (_handle_mining_notify pm h p params now ntime_default).1)
    /\ d <> ∅
    /\ target_entry d
       = Ret (VInt (Qfloor (inject_Z diff1_target / difficulty p))).
Proof.
  intros Hd Hlen. unfold _handle_mining_notify.
  destruct (Nat.leb_spec 7 (length params)) as [_|?]; [|lia].
  destruct (difficulty_to_target_pos _ Hd) as (s & -> & Hs & _).
  cbv zeta. destruct (alloc_fresh h
    (work_unit_dict (nth 0 params EmptyString)
       (nth 5 params "" ++ nth 1 params "" ++ nth 2 params "" ++ nth 3 params ""
        ++ (if (7 <? length params)%nat then nth 7 params "" else ntime_default)
        ++ nth 6 params "")%string s now (name p) (difficulty p)))
    as [Hfresh _].
  unfold alloc in *. simpl in *.
  eexists _, _. split; [exact Hfresh|]. split; [reflexivity|].
  split.
  { clear. induction (pools pm) as [|[n' p'] ps IH]; simpl; [now left|].
    destruct (String.eqb (name p) n'); simpl; [now left|now right]. }
  split.
  { intros H. apply (f_equal (fun m : pydict => m !! "job_id")) in H.
    unfold work_unit_dict in H. rewrite lookup_insert_eq, lookup_empty in H.
    discriminate. }
  unfold target_entry, work_unit_dict.
  rewrite !lookup_insert_ne by discriminate.
  now rewrite lookup_insert_eq, Hs.
Qed.

End PoolWork.

(** ** Pool protocol client: framing, configuration, share submission *)

Section PoolFraming.
Import Pool PoolIO.

Lemma append_cons (c : ascii) (s t : string) :
  (String c s ++ t)%string = String c (s ++ t)%string.
Proof. reflexivity. Qed.

Lemma append_nil_r (s : string) : (s ++ "")%string = s.
Proof. induction s as [|c s IH]; [reflexivity|]. now rewrite append_cons, IH. Qed.

Lemma append_assoc (s t u : string) :
  ((s ++ t) ++ u)%string = (s ++ (t ++ u))%string.
Proof.
  induction s as [|c s IH]; [reflexivity|]. now rewrite !append_cons, IH.
Qed.

Lemma frame_join (buffer : string) :
  join_lines (frame buffer).1 (frame buffer).2 = buffer.
Proof.
  induction buffer as [|c rest IH]; [reflexivity|].
  simpl. destruct (frame rest) as [lines tail]. simpl in IH.
  destruct (Ascii.eqb_spec c newline) as [->|Hc]; simpl.
  - now rewrite IH.
  - destruct lines as [|l lines]; simpl in *; [now rewrite IH|].
    now rewrite append_cons, IH.
Qed.

Lemma frame_no_newline (buffer : string) :
  Forall (fun l => no_char newline l = true) (frame buffer).1
  /\ no_char newline (frame buffer).2 = true.
Proof.
  induction buffer as [|c rest [IH1 IH2]]; [split; [constructor|reflexivity]|].
  simpl. destruct (frame rest) as [lines tail]. simpl in *.
  destruct (Ascii.eqb c newline) eqn:E; simpl.
  - split; [constructor; [reflexivity|exact IH1]|exact IH2].
  - destruct lines as [|l lines]; simpl.
    + split; [constructor|]. now rewrite E, IH2.
    + inversion IH1 as [|? ? Hl Hls]; subst. split; [|exact IH2].
      constructor; [|exact Hls]. simpl. now rewrite E, Hl.
Qed.

Lemma split_newline_join (l : string) (lines : list string) (tail : string) :
  no_char newline l = true ->
  split_newline (join_lines (l :: lines) tail) = Some (l, join_lines lines tail).
Proof.
  intros Hl. cbn [join_lines]. induction l as [|c l IH].
  - change ("" ++ String newline (join_lines lines tail))%string
      with (String newline (join_lines lines tail)).
    cbn [split_newline]. now rewrite Ascii.eqb_refl.
  - cbn [no_char] in Hl. apply andb_true_iff in Hl as [Hc Hl].
    apply negb_true_iff in Hc. rewrite append_cons. cbn [split_newline].
    now rewrite Hc, (IH Hl).
Qed.

Lemma split_newline_none (s : string) :
  no_char newline s = true -> split_newline s = None.
Proof.
  induction s as [|c s IH]; [reflexivity|]. simpl. intros H.
  apply andb_true_iff in H as [Hc Hs]. apply negb_true_iff in Hc.
  now rewrite Hc, (IH Hs).
Qed.

Lemma length_join_lines (lines : list string) (tail : string) :
  (length lines <= String.length (join_lines lines tail))%nat.
Proof.
  induction lines as [|l lines IH]; simpl; [lia|].
  rewrite length_app. simpl. lia.
Qed.

(** The loop on fuel computes the framing, for any buffer written as a list
    of newline-free lines and a newline-free tail. *)
Lemma drain_join (fuel : nat) : forall (lines : list string) (tail : string),
  Forall (fun l => no_char newline l = true) lines ->
  no_char newline tail = true ->
  (length lines <= fuel)%nat ->
  drain fuel (join_lines lines tail) = Some (lines, tail).
Proof.
  induction fuel as [|fuel IH]; intros lines tail Hls Ht Hf.
  - destruct lines; [|simpl in Hf; lia].
    cbn [join_lines drain]. now rewrite (split_newline_none tail Ht).
  - destruct lines as [|l lines].
    + cbn [join_lines drain]. now rewrite (split_newline_none tail Ht).
    + inversion Hls as [|? ? Hl Hls']; subst.
      cbn [drain]. rewrite (split_newline_join l lines tail Hl).
      rewrite (IH lines tail Hls' Ht) by (simpl in Hf; lia). reflexivity.
Qed.

Lemma drain_frame (buffer : string) (fuel : nat) :
  (String.length buffer <= fuel)%nat ->
  drain fuel buffer = Some (frame buffer).
Proof.
  intros Hf. destruct (frame_no_newline buffer) as [H1 H2].
  pose proof (frame_join buffer) as Hj.
  pose proof (length_join_lines (frame buffer).1 (frame buffer).2) as Hlen.
  rewrite Hj in Hlen.
  rewrite <- Hj at 1. rewrite (drain_join fuel _ _ H1 H2) by lia.
  now destruct (frame buffer).
Qed.

Lemma frame_app (a b : string) :
  frame (a ++ b) =
  (((frame a).1 ++ (frame ((frame a).2 ++ b)).1)%list,
   (frame ((frame a).2 ++ b)).2).
Proof.
  induction a as [|c a IH].
  - change (frame "") with (([] : list string), EmptyString). cbn [fst snd app].
    change ("" ++ b)%string with b. now destruct (frame b).
  - rewrite append_cons. cbn [frame]. rewrite IH.
    destruct (frame a) as [la ta]. cbn [fst snd].
    destruct (Ascii.eqb c newline) eqn:E; cbn [fst snd app]; [reflexivity|].
    destruct la as [|l la]; cbn [fst snd app].
    + rewrite append_cons. cbn [frame].
      destruct (frame (ta ++ b)) as [l2 t2]. cbn [fst snd]. rewrite E.
      now destruct l2.
    + reflexivity.
Qed.

(** X1. The receive loop always comes out of its inner [while]: on fuel
    [len(buffer)] it returns the complete lines and the remainder; joining
    the lines, each followed by its newline, and the remainder gives back
    the buffer, and neither a line nor the remainder contains a newline. *)
Theorem drain_reconstructs_buffer (buffer : string) :
  exists lines rest,
    drain (String.length buffer) buffer = Some (lines, rest)
    /\ join_lines lines rest = buffer
    /\ Forall (fun l => no_char newline l = true) lines
    /\ no_char newline rest = true.
Proof.
  exists (frame buffer).1, (frame buffer).2.
  rewrite drain_frame by lia.
  destruct (frame_no_newline buffer) as [H1 H2].
  split; [now destruct (frame buffer)|].
  split; [apply frame_join|]. split; assumption.
Qed.

(** X2. Framing does not depend on how the bytes are cut into chunks:
    receiving [d1] and then [d2] hands the same messages to the dispatcher,
    in the same order, and leaves the same buffer as receiving [d1 ++ d2]
    at once. *)
Theorem receive_chunking (buffer d1 d2 : string) :
  exists m1 r1 m2 r2,
    receive buffer d1 = Some (m1, r1)
    /\ receive r1 d2 = Some (m2, r2)
    /\ receive buffer (d1 ++ d2) = Some ((m1 ++ m2)%list, r2).
Proof.
  set (nb := fun l : string => negb (is_blank l)).
  exists (List.filter nb (frame (buffer ++ d1)).1), (frame (buffer ++ d1)).2,
         (List.filter nb (frame ((frame (buffer ++ d1)).2 ++ d2)).1),
         (frame ((frame (buffer ++ d1)).2 ++ d2)).2.
  unfold receive. fold nb. split; [|split].
  - rewrite drain_frame by lia. now destruct (frame (buffer ++ d1)).
  - rewrite drain_frame by lia.
    now destruct (frame ((frame (buffer ++ d1)).2 ++ d2)).
  - rewrite <- append_assoc, drain_frame by lia.
    rewrite (frame_app (buffer ++ d1) d2). now rewrite List.filter_app.
Qed.

End PoolFraming.

Section PoolConfiguration.
Import Pool PoolIO.

Lemma prefix_head_ne (a b : ascii) (s t : string) :
  a <> b -> String.prefix (String a s) (String b t) = false.
Proof.
  intros H. simpl. destruct (Ascii.ascii_dec a b); [contradiction|reflexivity].
Qed.

Lemma split_first_scheme (scheme rest : string) :
  no_char ":" scheme = true ->
  split_first "://" (scheme ++ "://" ++ rest) = Some (scheme, rest).
Proof.
  induction scheme as [|c s IH]; intros H.
  - change ("" ++ "://" ++ rest)%string
      with (String ":" (String "/" (String "/" rest))).
    cbn [split_first]. simpl String.prefix.
    now replace (String.prefix "" rest) with true by (now destruct rest).
  - cbn [no_char] in H. apply andb_true_iff in H as [Hc Hs].
    apply negb_true_iff, Ascii.eqb_neq in Hc.
    rewrite append_cons. cbn [split_first].
    rewrite prefix_head_ne by congruence. now rewrite (IH Hs).
Qed.

Lemma split_first_none (s : string) :
  no_char ":" s = true -> split_first "://" s = None.
Proof.
  induction s as [|c s IH]; intros H; [reflexivity|].
  cbn [no_char] in H. apply andb_true_iff in H as [Hc Hs].
  apply negb_true_iff, Ascii.eqb_neq in Hc.
  cbn [split_first]. rewrite prefix_head_ne by congruence. now rewrite (IH Hs).
Qed.

Lemma rsplit_char_none (c : ascii) (s : string) :
  no_char c s = true -> rsplit_char c s = None.
Proof.
  induction s as [|a s IH]; intros H; [reflexivity|].
  cbn [no_char] in H. apply andb_true_iff in H as [Ha Hs].
  apply negb_true_iff in Ha. cbn [rsplit_char]. now rewrite (IH Hs), Ha.
Qed.

Lemma rsplit_char_last (c : ascii) (l r : string) :
  no_char c r = true -> rsplit_char c (l ++ String c r) = Some (l, r).
Proof.
  intros Hr. induction l as [|a l IH].
  - change ("" ++ String c r)%string with (String c r). cbn [rsplit_char].
    now rewrite (rsplit_char_none c r Hr), Ascii.eqb_refl.
  - rewrite append_cons. cbn [rsplit_char]. now rewrite IH.
Qed.

Lemma pool_named_set (pm : PoolManager) (n : string) (p : PoolConnection) :
  pool_named (with_pools pm (set_pool n p (pools pm))) n = Some p
  /\ forall n', n' <> n ->
       pool_named (with_pools pm (set_pool n p (pools pm))) n' = pool_named pm n'.
Proof.
  unfold pool_named. cbn [pools with_pools].
  induction (pools pm) as [|[k q] ps [IH1 IH2]]; cbn [set_pool List.find].
  - split.
    + cbn [fst]. now rewrite String.eqb_refl.
    + intros n' Hn. cbn [fst]. apply String.eqb_neq in Hn. now rewrite Hn.
  - destruct (String.eqb_spec n k) as [->|Hnk]; cbn [List.find fst snd].
    + split.
      * now rewrite String.eqb_refl.
      * intros n' Hn. apply String.eqb_neq in Hn. now rewrite Hn.
    + split.
      * apply String.eqb_neq in Hnk. rewrite Hnk. exact IH1.
      * intros n' Hn. destruct (String.eqb n' k); [reflexivity|]. now apply IH2.
Qed.

(** X3. [add_pool] with a url of the form [scheme://host:port] (no colon in
    the scheme, a decimal port) stores, under the pool's name, a connection
    to [host] and [port] that is not connected, holds no work and has
    difficulty 1; whatever was stored under that name before is replaced,
    the other pools and the share counters are as before. *)
Theorem add_pool_parses_url (pm : PoolManager)
    (name scheme host port_str username password : string) (port : Z) :
  no_char ":" scheme = true -> no_char ":" port_str = true ->
  py_int10 port_str = Some port ->
  let pm' := add_pool pm name (scheme ++ "://" ++ host ++ ":" ++ port_str)
               username password in
  pool_named pm' name
    = Some {| Pool.name := name; url := host; port := port;
              username := username; password := password;
              connected := false; last_work := None; last_ping := 0;
              share_count := 0; difficulty := 1 |}
  /\ (forall n, n <> name -> pool_named pm' n = pool_named pm n)
  /\ (shares_submitted pm', shares_accepted pm', shares_rejected pm')
     = (shares_submitted pm, shares_accepted pm, shares_rejected pm).
Proof.
  intros Hs Hp Hport pm'. subst pm'. unfold add_pool.
  rewrite (split_first_scheme scheme _ Hs).
  change (host ++ ":" ++ port_str)%string with (host ++ String ":" port_str)%string.
  rewrite (rsplit_char_last ":" host port_str Hp), Hport.
  destruct (pool_named_set pm name
              (new_connection name host port username password)) as [H1 H2].
  split; [exact H1|]. split; [exact H2|reflexivity].
Qed.

Lemma add_pool_parses_url_witness :
  pool_named
    (add_pool {| pools := []; active_work := ∅; shares_submitted := 0;
                 shares_accepted := 0; shares_rejected := 0 |}
       "poolA" ("stratum+tcp" ++ "://" ++ "pool.example.com" ++ ":" ++ "3333")
       "user" "x") "poolA"
  = Some (new_connection "poolA" "pool.example.com" 3333 "user" "x").
Proof.
  refine (proj1 (add_pool_parses_url _ "poolA" "stratum+tcp" "pool.example.com"
                   "3333" "user" "x" 3333 _ _ _)); reflexivity.
Defined.

(** X4. A url without a port gets port 4444: when the address after the
    scheme has no colon, and also when the url has neither scheme nor
    port, the whole of it is taken as the host. *)
Theorem add_pool_default_port (pm : PoolManager)
    (name scheme host username password : string) :
  no_char ":" scheme = true -> no_char ":" host = true ->
  pool_named (add_pool pm name (scheme ++ "://" ++ host) username password) name
    = Some (new_connection name host 4444 username password)
  /\ pool_named (add_pool pm name host username password) name
    = Some (new_connection name host 4444 username password).
Proof.
  intros Hs Hh. unfold add_pool.
  rewrite (split_first_scheme scheme _ Hs), (split_first_none host Hh).
  rewrite (rsplit_char_none ":" host Hh).
  split; apply pool_named_set.
Qed.

Lemma add_pool_default_port_witness :
  pool_named
    (add_pool {| pools := []; active_work := ∅; shares_submitted := 0;
                 shares_accepted := 0; shares_rejected := 0 |}
       "poolA" "pool.example.com" "user" "x") "poolA"
  = Some (new_connection "poolA" "pool.example.com" 4444 "user" "x").
Proof.
  refine (proj2 (add_pool_default_port _ "poolA" "tcp" "pool.example.com"
                   "user" "x" _ _)); reflexivity.
Defined.



End PoolConfiguration.


Section PoolShares.
Import Pool PoolIO.

Lemma find_selected (pm : PoolManager) (pool_url : string) (p : PoolConnection) :
  selects pm pool_url p -> find_pool pm pool_url = Some p.
Proof.
  intros (before & after & Hps & Hm & Hb). unfold find_pool. rewrite Hps.
  clear Hps. induction Hb as [|[k q] before [_ Hq] _ IH]; cbn [List.find app].
  - cbn [snd]. now rewrite Hm.
  - cbn [snd] in *. now rewrite Hq.
Qed.

Lemma set_pool_selected (before after : list (string * PoolConnection))
    (n : string) (p p' : PoolConnection) :
  Forall (fun np : string * PoolConnection => np.1 <> n) before ->
  set_pool n p' (before ++ (n, p) :: after) = before ++ (n, p') :: after.
Proof.
  induction 1 as [|[k q] before Hk _ IH]; cbn [set_pool app].
  - now rewrite String.eqb_refl.
  - cbn [fst] in Hk. apply not_eq_sym, String.eqb_neq in Hk.
    now rewrite Hk, IH.
Qed.

Lemma selects_update (pm pm' : PoolManager) (pool_url : string)
    (p p' : PoolConnection) :
  selects pm pool_url p -> name p' = name p -> url p' = url p ->
  pools pm' = set_pool (name p) p' (pools pm) ->
  selects pm' pool_url p'.
Proof.
  intros (before & after & Hps & Hm & Hb) Hn Hu Hps'.
  exists before, after. rewrite Hps', Hps, Hn, Hu.
  split; [|split; [exact Hm|exact Hb]].
  apply set_pool_selected.
  eapply Forall_impl; [exact Hb|]. now intros np [H _].
Qed.

Lemma pool_named_selected (pm : PoolManager) (pool_url : string)
    (p : PoolConnection) :
  selects pm pool_url p -> pool_named pm (name p) = Some p.
Proof.
  intros (before & after & Hps & _ & Hb). unfold pool_named. rewrite Hps.
  clear Hps. induction Hb as [|[k q] before [Hk _] _ IH]; cbn [List.find app].
  - cbn [fst snd]. now rewrite String.eqb_refl.
  - cbn [fst] in *. apply not_eq_sym, String.eqb_neq in Hk. now rewrite Hk.
Qed.




(** X7. [_handle_mining_notify] never touches what is already there: every
    dict of the store is kept as it is, the share counters and the pools
    under other names are unchanged; and with fewer than seven parameters,
    or at difficulty 0 (where computing the target divides by zero), it
    changes nothing at all. *)
Theorem notify_only_adds (pm : PoolManager) (h : store) (p : PoolConnection)
    (params : list string) (now : Q) (ntime_default : string) :
  let st := _handle_mining_notify pm h p params now ntime_default in
  (forall l d, h !! l = Some d -> st.2 !! l = Some d)
  /\ (shares_submitted st.1, shares_accepted st.1, shares_rejected st.1)
     = (shares_submitted pm, shares_accepted pm, shares_rejected pm)
  /\ (forall n, n <> name p -> pool_named st.1 n = pool_named pm n)
  /\ ((length params < 7)%nat \/ (difficulty p == 0)%Q -> st = (pm, h)).
Proof.
  intros st. subst st. unfold _handle_mining_notify.
  destruct (Nat.leb_spec 7 (length params)) as [Hlen|Hlen].
  2:{ cbn [fst snd]. repeat split; auto. }
  unfold _difficulty_to_target.
  destruct (Qeq_bool (difficulty p) 0) eqn:E.
  { cbn [fst snd]. repeat split; auto. }
  cbv zeta.
  match goal with
  | |- context [alloc h ?d] =>
      destruct (alloc_fresh h d) as [Hfresh _]; unfold alloc in *; cbn [fst snd] in *
  end.
  split.
  { intros l d Hl. rewrite lookup_insert_ne; [exact Hl|]. intros <-. congruence. }
  split; [reflexivity|]. split.
  { intros n Hn.
    exact (proj2 (pool_named_set pm (name p) _) n Hn). }
  intros [H|H]; [lia|]. apply Qeq_bool_neq in E. contradiction.
Qed.

(** X8. For the pool that [pool_url] selects, [submit_share] returns true
    exactly when the pool is connected.  When it is not, nothing changes.
    When it is, the share is counted ([shares_submitted] and the pool's
    [share_count] go up by one) and true is returned even if the send
    fails; a failed send leaves the pool disconnected, so that the next
    [submit_share] returns false and changes nothing. *)
Theorem submit_share_counts (pm : PoolManager) (pool_url : string)
    (p : PoolConnection) (result result' : pydict) (o o' : send_outcome) :
  selects pm pool_url p ->
  let r := submit_share pm pool_url result o in
  r.2 = connected p
  /\ (connected p = false -> r.1 = pm)
  /\ (connected p = true ->
      shares_submitted r.1 = (shares_submitted pm + 1)%Z
      /\ (shares_accepted r.1, shares_rejected r.1)
         = (shares_accepted pm, shares_rejected pm)
      /\ (exists p', pool_named r.1 (name p) = Some p'
            /\ share_count p' = (share_count p + 1)%Z
            /\ connected p' = match o with Sent => true | SendError => false end
            /\ last_work p' = last_work p /\ difficulty p' = difficulty p)
      /\ (o = SendError -> submit_share r.1 pool_url result' o' = (r.1, false))).
Proof.
  intros Hsel r. subst r. unfold submit_share.
  rewrite (find_selected _ _ _ Hsel).
  destruct (connected p) eqn:Hc; cbn [negb fst snd].
  2:{ split; [reflexivity|]. split; [reflexivity|discriminate]. }
  split; [reflexivity|]. split; [discriminate|]. intros _.
  set (p2 := with_share_count _ _).
  set (pm' := {| pools := _ |}).
  assert (Hsel' : selects pm' pool_url p2).
  { apply (selects_update pm pm' pool_url p); [exact Hsel| | |reflexivity];
      subst p2; unfold _send_json_message; rewrite Hc; now destruct o. }
  assert (Hn2 : name p2 = name p).
  { subst p2. unfold _send_json_message. rewrite Hc. now destruct o. }
  split; [reflexivity|]. split; [reflexivity|]. split.
  - exists p2. rewrite <- Hn2. split; [exact (pool_named_selected _ _ _ Hsel')|].
    subst p2. unfold _send_json_message. rewrite Hc.
    destruct o; cbn; repeat split; assumption.
  - intros ->. rewrite (find_selected _ _ _ Hsel').
    subst p2. unfold _send_json_message. rewrite Hc. reflexivity.
Qed.

Lemma submit_share_counts_witness :
  let p := with_connected
             (new_connection "poolA" "pool.example.com" 3333 "user" "x") true in
  let pm := {| pools := [("poolA"%string, p)]; active_work := ∅;
               shares_submitted := 0; shares_accepted := 0;
               shares_rejected := 0 |} in
  (submit_share pm "stratum+tcp://pool.example.com:3333" ∅ SendError).2 = true.
Proof.
  intros p pm.
  assert (Hsel : selects pm "stratum+tcp://pool.example.com:3333" p).
  { exists [], []. split; [reflexivity|]. split; [reflexivity|constructor]. }
  exact (proj1 (submit_share_counts pm _ p ∅ ∅ SendError Sent Hsel)).
Defined.

End PoolShares.

(** ** Initial configuration: algorithm and pool selection *)

Section Selection.
Import Optimizer Policy.

Lemma max_by_spec {A} (key : A -> Q) (l : list A) : forall best : A,
  (max_by key best l = best \/ In (max_by key best l) l)
  /\ (key best <= key (max_by key best l))%Q
  /\ (forall x, In x l -> (key x <= key (max_by key best l))%Q).
Proof.
  induction l as [|x l IH]; intros best; cbn [max_by].
  - split; [now left|]. split; [lra|]. intros x [].
  - destruct (Qlt_le_dec (key best) (key x)) as [Hlt|Hle].
    + destruct (IH x) as (Hin & Hge & Hall). split; [|split].
      * destruct Hin as [->|Hin]; right; [now left|now right].
      * lra.
      * intros y [<-|Hy]; [exact Hge|now apply Hall].
    + destruct (IH best) as (Hin & Hge & Hall). split; [|split].
      * destruct Hin as [->|Hin]; [now left|right; now right].
      * exact Hge.
      * intros y [<-|Hy]; [lra|now apply Hall].
Qed.

Lemma py_max_by_spec {A} (key : A -> Q) (l : list A) (r : A) :
  py_max_by key l = Some r ->
  In r l /\ forall x, In x l -> (key x <= key r)%Q.
Proof.
  destruct l as [|x l]; [discriminate|]. cbn [py_max_by]. intros [= <-].
  destruct (max_by_spec key l x) as (Hin & Hge & Hall). split.
  - destruct Hin as [->|Hin]; [now left|now right].
  - intros y [<-|Hy]; [exact Hge|now apply Hall].
Qed.

Lemma alist_set_in {V} (k : string) (v : V) (d : list (string * V)) kv :
  In kv (alist_set k v d) -> kv = (k, v) \/ In kv d.
Proof.
  induction d as [|[k' v'] d IH]; cbn [alist_set].
  - intros [<-|[]]. now left.
  - destruct (String.eqb k k').
    + intros [<-|H]; [now left|right; now right].
    + intros [<-|H]; [right; now left|].
      destruct (IH H) as [->|H']; [now left|right; now right].
Qed.

Lemma alist_set_has {V} (k : string) (v : V) (d : list (string * V)) :
  In (k, v) (alist_set k v d).
Proof.
  induction d as [|[k' v'] d IH]; cbn [alist_set]; [now left|].
  destruct (String.eqb k k'); [now left|now right].
Qed.

Lemma alist_set_keeps_key {V} (k : string) (v : V) (d : list (string * V)) k' :
  In k' d.*1 -> In k' (alist_set k v d).*1.
Proof.
  induction d as [|[k0 v0] d IH]; cbn [alist_set]; [intros []|].
  destruct (String.eqb_spec k k0) as [->|Hne].
  - intros [<-|H]; [now left|now right].
  - intros [<-|H]; [now left|right; now apply IH].
Qed.

(** The items that the scoring loop leaves in [algorithm_scores]. *)
Lemma algorithm_scores_spec opt c g m (algorithms : list string) :
  forall acc scores,
  algorithm_scores opt c g m algorithms acc = Ret scores ->
  (forall a s, In (a, s) scores ->
     In (a, s) acc \/ (In a algorithms /\ algorithm_score opt c g m a = Ret s))
  /\ (forall a, In a algorithms -> In a scores.*1)
  /\ (forall a, In a acc.*1 -> In a scores.*1).
Proof.
  induction algorithms as [|a0 rest IH]; intros acc scores H; cbn in H.
  - injection H as <-. split; [now left|]. split; [intros a []|auto].
  - destruct (algorithm_score opt c g m a0) as [s0|e] eqn:E; [|discriminate].
    cbn in H. destruct (IH _ _ H) as (H1 & H2 & H3). split; [|split].
    + intros a s Hin. destruct (H1 a s Hin) as [Hacc|[Hr Hs]].
      * destruct (alist_set_in _ _ _ _ Hacc) as [[= -> ->]|Hacc'];
          [right; split; [now left|exact E]|now left].
      * right. split; [now right|exact Hs].
    + intros a [<-|Hin]; [|now apply H2].
      apply H3. change a0 with ((a0, s0).1). apply in_map, alist_set_has.
    + intros a Hin. now apply H3, alist_set_keeps_key.
Qed.

Lemma last_n_nonempty {A} (n : nat) (l : list A) :
  (0 < n)%nat -> l <> [] -> last_n n l <> [].
Proof.
  intros Hn Hl Hs. unfold last_n in Hs.
  apply (f_equal (@length A)) in Hs. rewrite length_skipn in Hs. simpl in Hs.
  destruct l; [congruence|]. simpl in *. lia.
Qed.

Lemma histories_nonempty_init (lr : Q) : histories_nonempty (init lr).
Proof. intros a h H. simpl in H. now rewrite lookup_empty in H. Qed.

Lemma histories_nonempty_step (opt : AIOptimizer) (r : report) :
  histories_nonempty opt -> histories_nonempty (apply_report opt r).
Proof.
  intros Hn a h. destruct r as [result w now|metrics now]; cbn; [apply Hn|].
  destruct (nonempty (default "" (m_algorithm metrics))); [|apply Hn].
  unfold append_at. rewrite lookup_insert.
  destruct (decide (default "" (m_algorithm metrics) = a)); [|apply Hn].
  intros [= <-]. now destruct (default [] _).
Qed.

Lemma histories_nonempty_run (rs : list report) : forall opt,
  histories_nonempty opt -> histories_nonempty (run_reports opt rs).
Proof.
  induction rs as [|r rs IH]; intros opt H; [exact H|].
  apply IH, histories_nonempty_step, H.
Qed.

Lemma algorithm_score_returns opt c g m a :
  histories_nonempty opt -> exists s, algorithm_score opt c g m a = Ret s.
Proof.
  intros Hn. unfold algorithm_score.
  destruct (algorithm_performance opt !! a) as [h|] eqn:E; [|eauto].
  pose proof (last_n_nonempty 10 h ltac:(lia) (Hn _ _ E)) as Hl.
  destruct (last_n 10 h); [congruence|]. cbn. eauto.
Qed.

Lemma algorithm_scores_returns opt c g m (algorithms : list string) :
  histories_nonempty opt ->
  forall acc, exists scores, algorithm_scores opt c g m algorithms acc = Ret scores.
Proof.
  intros Hn. induction algorithms as [|a rest IH]; intros acc; cbn; [eauto|].
  destruct (algorithm_score_returns opt c g m a Hn) as [s ->]. cbn. apply IH.
Qed.

(** X9. Algorithm selection returns one of the candidates with the greatest
    score.  On an optimizer reached from a fresh one by any run of reports,
    a non-empty candidate list always gives an algorithm of that list whose
    score (hardware fit, blended 70/30 with the mean of its last 10
    recorded hashrates when it has a history) is at least the score of
    every other candidate; an empty candidate list raises [ValueError]. *)
Theorem select_optimal_algorithm_is_best (lr : Q) (history : list report)
    (algorithms : list string) (c g m : Q) :
  let opt := run_reports (init lr) history in
  (algorithms = [] ->
   _select_optimal_algorithm opt algorithms c g m = Raise ValueError)
  /\ (algorithms <> [] ->
      exists a sa,
        _select_optimal_algorithm opt algorithms c g m = Ret a
        /\ In a algorithms
        /\ algorithm_score opt c g m a = Ret sa
        /\ forall b, In b algorithms ->
             exists sb, algorithm_score opt c g m b = Ret sb /\ (sb <= sa)%Q).
Proof.
  intros opt. split; [now intros ->|]. intros Hne.
  assert (Hn : histories_nonempty opt)
    by apply histories_nonempty_run, histories_nonempty_init.
  unfold _select_optimal_algorithm.
  destruct (algorithm_scores_returns opt c g m algorithms Hn []) as [scores Hs].
  rewrite Hs. cbn [bind].
  destruct (algorithm_scores_spec _ _ _ _ _ _ _ Hs) as (H1 & H2 & _).
  destruct (py_max_by snd scores) as [[a sa]|] eqn:Hmax.
  - destruct (py_max_by_spec _ _ _ Hmax) as [Hin Hall].
    destruct (H1 a sa Hin) as [[]|[Ha Hsa]].
    exists a, sa. split; [reflexivity|]. split; [exact Ha|]. split; [exact Hsa|].
    intros b Hb. specialize (H2 b Hb).
    apply in_map_iff in H2 as ([b' sb] & Hb' & Hinb). cbn in Hb'. subst b'.
    destruct (H1 b sb Hinb) as [[]|[_ Hsb]].
    exists sb. split; [exact Hsb|]. exact (Hall _ Hinb).
  - exfalso. destruct algorithms as [|a rest]; [congruence|].
    specialize (H2 a (or_introl eq_refl)).
    destruct scores; [destruct H2|discriminate].
Qed.

Lemma available_pools_cases (algorithm : string) :
  (algorithm = "SHA256"%string \/ pools_db !! algorithm = None)
  /\ available_pools algorithm = sha256_pools
  \/ algorithm = "RandomX"%string \/ algorithm = "Ethash"%string.
Proof.
  unfold available_pools, pools_db.
  destruct (String.eqb_spec algorithm "SHA256") as [->|H1];
    [left; split; [now left|reflexivity]|].
  destruct (String.eqb_spec algorithm "RandomX") as [->|H2]; [right; now left|].
  destruct (String.eqb_spec algorithm "Ethash") as [->|H3]; [right; now right|].
  left. rewrite !lookup_insert_ne by congruence. rewrite lookup_empty.
  split; [now right|reflexivity].
Qed.

Lemma select_pool_of_two (opt : AIOptimizer) (e1 e2 : PoolEntry) :
  String.eqb (pe_name e2) (pe_name e1) = false ->
  let r := match py_max_by (fun item : string * (Q * PoolEntry) => item.2.1)
                   (pool_scores opt [e1; e2]) with
           | Some (_, (_, best_pool)) => Ret best_pool
           | None => Raise ValueError
           end in
  exists e, r = Ret e /\ In e [e1; e2]
    /\ (forall e', In e' [e1; e2] ->
          (pool_total_score opt e' <= pool_total_score opt e)%Q)
    /\ ((pool_total_score opt e2 <= pool_total_score opt e1)%Q -> e = e1).
Proof.
  intros Hne r. subst r. unfold pool_scores. cbn [fold_left alist_set].
  rewrite Hne. cbn [py_max_by max_by snd fst].
  destruct (Qlt_le_dec (pool_total_score opt e1) (pool_total_score opt e2))
    as [Hlt|Hle].
  - exists e2. split; [reflexivity|]. split; [right; now left|]. split.
    + intros e' [<-|[<-|[]]]; lra.
    + intros H. lra.
  - exists e1. split; [reflexivity|]. split; [now left|]. split.
    + intros e' [<-|[<-|[]]]; lra.
    + reflexivity.
Qed.

(** X10. Pool selection returns one of the pools listed for the algorithm
    (those of SHA256 when the algorithm has no list of its own), and no
    listed pool has a greater score (0.3 x latency score + 0.4 x fee score
    + 0.3 x historical score); it never raises. *)
Theorem select_optimal_pool_is_best (opt : AIOptimizer) (algorithm : string) :
  exists e,
    _select_optimal_pool opt algorithm = Ret e
    /\ In e (available_pools algorithm)
    /\ (forall e', In e' (available_pools algorithm) ->
          (pool_total_score opt e' <= pool_total_score opt e)%Q)
    /\ (pools_db !! algorithm = None -> In e sha256_pools).
Proof.
  unfold _select_optimal_pool.
  destruct (available_pools_cases algorithm) as [[Hc Ha] | [-> | ->]].
  - rewrite Ha. unfold sha256_pools.
    lazymatch goal with
    | |- context [pool_scores opt [?a; ?b]] =>
        destruct (select_pool_of_two opt a b eq_refl) as (e & He & Hin & Hmax & _)
    end.
    exists e. split; [exact He|]. split; [exact Hin|].
    split; [exact Hmax|intros _; exact Hin].
  - change (available_pools "RandomX")
      with [entry "NiceHash" "stratum+tcp://randomx.nicehash.com:3380" (2 # 100) 55;
            entry "MineXMR" "stratum+tcp://pool.minexmr.com:4444" (1 # 100) 70].
    lazymatch goal with
    | |- context [pool_scores opt [?a; ?b]] =>
        destruct (select_pool_of_two opt a b eq_refl) as (e & He & Hin & Hmax & _)
    end.
    exists e. split; [exact He|]. split; [exact Hin|].
    split; [exact Hmax|intros H; now vm_compute in H].
  - change (available_pools "Ethash")
      with [entry "NiceHash" "stratum+tcp://daggerhashimoto.nicehash.com:3353"
              (2 # 100) 45;
            entry "Ethermine" "stratum+tcp://eth-us-east1.nanopool.org:9999"
              (1 # 100) 65].
    lazymatch goal with
    | |- context [pool_scores opt [?a; ?b]] =>
        destruct (select_pool_of_two opt a b eq_refl) as (e & He & Hin & Hmax & _)
    end.
    exists e. split; [exact He|]. split; [exact Hin|].
    split; [exact Hmax|intros H; now vm_compute in H].
Qed.

Lemma no_history_score (opt : AIOptimizer) (e : PoolEntry) :
  pool_performance opt = ∅ ->
  pool_total_score opt e
  = (inject_Z (py_maxZ 0 (100 - pe_latency e)) * (3 # 10)
     + (1 - pe_fee e) * 100 * (4 # 10) + 50 * (3 # 10))%Q.
Proof. intros H. unfold pool_total_score. now rewrite H, lookup_empty. Qed.

(** X11. As long as no pool performance has been recorded, the pool
    selected is NiceHash, whatever the algorithm. *)
Theorem fresh_optimizer_selects_nicehash (opt : AIOptimizer) (algorithm : string) :
  pool_performance opt = ∅ ->
  exists e, _select_optimal_pool opt algorithm = Ret e
            /\ pe_name e = "NiceHash"%string
            /\ In e (available_pools algorithm).
Proof.
  intros Hp. unfold _select_optimal_pool.
  destruct (available_pools_cases algorithm) as [[Hc Ha] | [-> | ->]].
  - rewrite Ha. unfold sha256_pools.
    lazymatch goal with
    | |- context [pool_scores opt [?a; ?b]] =>
        destruct (select_pool_of_two opt a b eq_refl) as (e & He & Hin & _ & H1)
    end.
    exists e. split; [exact He|]. split; [|exact Hin].
    rewrite H1; [reflexivity|]. rewrite !(no_history_score _ _ Hp).
    now vm_compute.
  - change (available_pools "RandomX")
      with [entry "NiceHash" "stratum+tcp://randomx.nicehash.com:3380" (2 # 100) 55;
            entry "MineXMR" "stratum+tcp://pool.minexmr.com:4444" (1 # 100) 70].
    lazymatch goal with
    | |- context [pool_scores opt [?a; ?b]] =>
        destruct (select_pool_of_two opt a b eq_refl) as (e & He & Hin & _ & H1)
    end.
    exists e. split; [exact He|]. split; [|exact Hin].
    rewrite H1; [reflexivity|]. rewrite !(no_history_score _ _ Hp).
    now vm_compute.
  - change (available_pools "Ethash")
      with [entry "NiceHash" "stratum+tcp://daggerhashimoto.nicehash.com:3353"
              (2 # 100) 45;
            entry "Ethermine" "stratum+tcp://eth-us-east1.nanopool.org:9999"
              (1 # 100) 65].
    lazymatch goal with
    | |- context [pool_scores opt [?a; ?b]] =>
        destruct (select_pool_of_two opt a b eq_refl) as (e & He & Hin & _ & H1)
    end.
    exists e. split; [exact He|]. split; [|exact Hin].
    rewrite H1; [reflexivity|]. rewrite !(no_history_score _ _ Hp).
    now vm_compute.
Qed.

Lemma fresh_optimizer_selects_nicehash_witness :
  exists e, _select_optimal_pool (init (1 # 10)) "RandomX" = Ret e
            /\ pe_name e = "NiceHash"%string.
Proof.
  destruct (fresh_optimizer_selects_nicehash (init (1 # 10)) "RandomX" eq_refl)
    as (e & H1 & H2 & _).
  exists e. split; assumption.
Defined.

End Selection.

(** ** Initial configuration as a whole, and the recommendation loop *)

Section Recommendations.
Import Optimizer Policy.

Lemma select_optimal_algorithm_in opt algorithms c g m a :
  _select_optimal_algorithm opt algorithms c g m = Ret a -> In a algorithms.
Proof.
  unfold _select_optimal_algorithm.
  destruct (algorithm_scores opt c g m algorithms []) as [scores|e] eqn:Hs;
    [|discriminate].
  cbn [bind]. destruct (py_max_by snd scores) as [[b sb]|] eqn:Hmax;
    [|discriminate].
  intros [= <-].
  destruct (algorithm_scores_spec _ _ _ _ _ _ _ Hs) as (H1 & _).
  destruct (py_max_by_spec _ _ _ Hmax) as [Hin _].
  now destruct (H1 _ _ Hin) as [[]|[Hb _]].
Qed.

Lemma available_pools_two (algorithm : string) :
  exists e1 e2,
    available_pools algorithm = [e1; e2]
    /\ String.eqb (pe_name e2) (pe_name e1) = false
    /\ pe_wallet e1 = None /\ pe_wallet e2 = None.
Proof.
  destruct (available_pools_cases algorithm) as [[_ Ha] | [-> | ->]].
  - rewrite Ha. eexists _, _. split; [reflexivity|]. now repeat split.
  - eexists _, _. split; [reflexivity|]. now repeat split.
  - eexists _, _. split; [reflexivity|]. now repeat split.
Qed.

Lemma available_pools_no_wallet (algorithm : string) (e : PoolEntry) :
  In e (available_pools algorithm) -> pe_wallet e = None.
Proof.
  destruct (available_pools_two algorithm) as (e1 & e2 & -> & _ & H1 & H2).
  now intros [<-|[<-|[]]].
Qed.

Lemma select_optimal_pool_in opt algorithm e :
  _select_optimal_pool opt algorithm = Ret e -> In e (available_pools algorithm).
Proof.
  unfold _select_optimal_pool.
  destruct (available_pools_two algorithm) as (e1 & e2 & -> & Hne & _).
  destruct (select_pool_of_two opt e1 e2 Hne) as (e0 & He & Hin & _).
  cbv zeta in He. rewrite He. now intros [= <-].
Qed.

(** X12. Whatever configuration [optimize_mining_setup] returns, its wallet
    address is the placeholder ["your_wallet_address"] (no pool of the
    database carries a wallet), its confidence is 0.85, its algorithm is one
    of the candidates, its pool url is that of a pool listed for this
    algorithm, and the worker settings follow the algorithm: Ethash gives
    one CPU thread at GPU intensity 100, RandomX gives GPU intensity 0. *)
Theorem optimize_mining_setup_result (opt : AIOptimizer) (hardware_info : Hardware)
    (available_algorithms : list string) (cfg : SetupConfig) :
  optimize_mining_setup opt hardware_info available_algorithms = Ret cfg ->
  cfg_wallet_address cfg = "your_wallet_address"%string
  /\ cfg_optimization_confidence cfg = (85 # 100)%Q
  /\ In (cfg_algorithm cfg) available_algorithms
  /\ (exists e, In e (available_pools (cfg_algorithm cfg))
                /\ cfg_pool_url cfg = pe_url e)
  /\ (cfg_algorithm cfg = "Ethash"%string ->
      cfg_cpu_threads cfg = 1%Z /\ cfg_gpu_intensity cfg = 100%Z)
  /\ (cfg_algorithm cfg = "RandomX"%string -> cfg_gpu_intensity cfg = 0%Z).
Proof.
  unfold optimize_mining_setup. cbv zeta.
  destruct (_select_optimal_algorithm _ _ _ _ _) as [a|?] eqn:Ha; [|discriminate].
  cbn [bind].
  destruct (_select_optimal_pool opt a) as [e|?] eqn:He; [|discriminate].
  cbn [bind]. intros [= <-]. cbn.
  pose proof (select_optimal_pool_in _ _ _ He) as Hin.
  split; [now rewrite (available_pools_no_wallet _ _ Hin)|].
  split; [reflexivity|].
  split; [exact (select_optimal_algorithm_in _ _ _ _ _ _ Ha)|].
  split; [now exists e|]. split.
  - intros ->. now vm_compute.
  - intros ->. reflexivity.
Qed.

Lemma optimize_mining_setup_result_witness :
  let hw := {| hw_cpu := {| cores := Some 8%Z; threads := Some 16%Z;
                            frequency_max := None; features := [] |};
               hw_gpus := [];
               hw_memory := {| total := None; percentage := None;
                               available := None |} |} in
  exists cfg,
    optimize_mining_setup (init (1 # 10)) hw ["RandomX"%string] = Ret cfg
    /\ cfg_wallet_address cfg = "your_wallet_address"%string.
Proof.
  intros hw.
  destruct (optimize_mining_setup (init (1 # 10)) hw ["RandomX"%string])
    as [cfg|e] eqn:E.
  - exists cfg. split; [reflexivity|].
    exact (proj1 (optimize_mining_setup_result _ _ _ _ E)).
  - exfalso. vm_compute in E. discriminate.
Defined.

Lemma deque_append_length {A} (n : nat) (l : list A) (x : A) :
  (length l <= n)%nat -> length (deque_append n l x) = Nat.min n (S (length l)).
Proof.
  intros H. unfold deque_append. rewrite List.length_app. simpl.
  destruct (Nat.ltb_spec n (length l + 1)).
  - destruct l as [|y l]; simpl in *; [lia|]. rewrite List.length_app. simpl. lia.
  - rewrite List.length_app. simpl. lia.
Qed.

Lemma rejection_history_step opt result w now :
  (length (rejection_history opt) <= 500)%nat ->
  length (rejection_history (record_rejection opt result w now))
  = Nat.min 500 (S (length (rejection_history opt)))
  /\ performance_history (record_rejection opt result w now)
     = performance_history opt.
Proof.
  intros H. split; [|reflexivity].
  unfold record_rejection. cbn [rejection_history].
  now apply deque_append_length.
Qed.

Lemma performance_history_step opt metrics now :
  (length (performance_history opt) <= 1000)%nat ->
  length (performance_history (record_performance opt metrics now))
  = Nat.min 1000 (S (length (performance_history opt)))
  /\ rejection_history (record_performance opt metrics now)
     = rejection_history opt.
Proof.
  intros H. split; [|reflexivity].
  unfold record_performance. cbn [performance_history].
  now apply deque_append_length.
Qed.

Lemma history_lengths (rs : list report) : forall opt,
  (length (performance_history opt) <= 1000)%nat ->
  (length (rejection_history opt) <= 500)%nat ->
  length (performance_history (run_reports opt rs))
  = Nat.min 1000 (length (performance_history opt) + count_performance rs)
  /\ length (rejection_history (run_reports opt rs))
     = Nat.min 500 (length (rejection_history opt) + count_rejections rs).
Proof.
  unfold count_performance, count_rejections.
  induction rs as [|r rs IH]; intros opt Hp Hr.
  - cbn [run_reports fold_left List.filter length]. lia.
  - change (run_reports opt (r :: rs)) with (run_reports (apply_report opt r) rs).
    destruct r as [result w now|metrics now];
      cbn [List.filter is_rejection negb apply_report length].
    + destruct (rejection_history_step opt result w now Hr) as [H1 H2].
      destruct (IH (record_rejection opt result w now)) as [IH1 IH2];
        [rewrite H2; exact Hp|lia|].
      rewrite IH1, IH2, H1, H2. lia.
    + destruct (performance_history_step opt metrics now Hp) as [H1 H2].
      destruct (IH (record_performance opt metrics now)) as [IH1 IH2];
        [lia|rewrite H2; exact Hr|].
      rewrite IH1, IH2, H1, H2. lia.
Qed.

(** X13. The two histories are bounded: after any run of reports on a fresh
    optimizer, [performance_history] holds [min(1000, p)] samples and
    [rejection_history] holds [min(500, r)] entries, where [p] and [r] count
    the performance samples and the rejections of the run. *)
Theorem histories_are_bounded (lr : Q) (rs : list report) :
  let opt := run_reports (init lr) rs in
  length (performance_history opt) = Nat.min 1000 (count_performance rs)
  /\ length (rejection_history opt) = Nat.min 500 (count_rejections rs)
  /\ (length (performance_history opt) <= 1000)%nat
  /\ (length (rejection_history opt) <= 500)%nat.
Proof.
  intros opt. subst opt.
  destruct (history_lengths rs (init lr)) as [H1 H2];
    [cbn [init performance_history length]; lia
    |cbn [init rejection_history length]; lia|].
  cbn [init performance_history rejection_history length] in H1, H2.
  rewrite H1, H2. repeat split; lia.
Qed.

(** X14. Until ten performance samples have been recorded,
    [get_recommendations] returns none, whatever the current metrics are,
    an overheating reading included. *)
Theorem no_recommendation_before_ten_samples (lr : Q) (rs : list report)
    (pool_items algorithm_items : list (string * list Q))
    (worker_items : list (string * Q)) (temperatures : list Q)
    (current_metrics : Metrics) :
  (count_performance rs < 10)%nat ->
  get_recommendations (run_reports (init lr) rs) pool_items algorithm_items
    worker_items temperatures current_metrics = None.
Proof.
  intros Hc. unfold get_recommendations.
  destruct (history_lengths rs (init lr)) as [H1 _];
    [cbn [init performance_history length]; lia
    |cbn [init rejection_history length]; lia|].
  cbn [init performance_history length] in H1. rewrite H1.
  destruct (Nat.ltb_spec (Nat.min 1000 (0 + count_performance rs)) 10);
    [reflexivity|lia].
Qed.

Lemma no_recommendation_before_ten_samples_witness :
  get_recommendations (run_reports (init (1 # 10)) []) [] [] [] [100%Q]
    {| m_hashrate := None; m_rejection_rate := None; m_temperature := None;
       m_power_usage := None; m_algorithm := None; m_pool := None;
       m_worker_id := None |} = None.
Proof.
  apply no_recommendation_before_ten_samples. unfold count_performance. simpl. lia.
Defined.

(** X15. With ten samples or more, a temperature reading above 85 always
    yields a recommendation: it asks to reduce the intensity and carries as
    warning the highest of the readings. *)
Theorem overheating_is_reported (opt : AIOptimizer)
    (pool_items algorithm_items : list (string * list Q))
    (worker_items : list (string * Q)) (temperatures : list Q)
    (current_metrics : Metrics) (t : Q) :
  (10 <= length (performance_history opt))%nat ->
  In t temperatures -> (85 < t)%Q ->
  exists r w,
    get_recommendations opt pool_items algorithm_items worker_items
      temperatures current_metrics = Some r
    /\ reduce_intensity r = true
    /\ temperature_warning r = Some w
    /\ In w temperatures
    /\ (85 < w)%Q
    /\ forall t', In t' temperatures -> (t' <= w)%Q.
Proof.
  intros Hlen Hin Ht. unfold get_recommendations.
  destruct (Nat.ltb_spec (length (performance_history opt)) 10); [lia|].
  cbv zeta.
  assert (Hmax : In (max_default temperatures) temperatures
                 /\ forall t', In t' temperatures ->
                      (t' <= max_default temperatures)%Q).
  { destruct temperatures as [|v vs]; [destruct Hin|]. cbn [max_default].
    destruct (max_by_spec (fun x : Q => x) vs v) as (H1 & H2 & H3). split.
    - destruct H1 as [->|H1]; [now left|now right].
    - intros t' [<-|Ht']; [exact H2|now apply H3]. }
  destruct Hmax as [Hmin Hmall].
  pose proof (Hmall t Hin) as Hge.
  destruct (Qlt_le_dec 85 (max_default temperatures)) as [Hhot|Hcold]; [|lra].
  unfold is_empty. cbn [reduce_intensity negb].
  rewrite !andb_false_r. cbn [andb].
  eexists _, _. split; [reflexivity|]. cbn.
  split; [reflexivity|]. split; [reflexivity|].
  split; [exact Hmin|]. split; [exact Hhot|exact Hmall].
Qed.

Lemma overheating_is_reported_witness :
  let sample := {| m_hashrate := Some 1%Q; m_rejection_rate := None;
                   m_temperature := None; m_power_usage := None;
                   m_algorithm := None; m_pool := None; m_worker_id := None |} in
  let opt := run_reports (init (1 # 10))
               (repeat (Performance sample 0%Q) 10) in
  exists r, get_recommendations opt [] [] [] [90%Q] sample = Some r
            /\ reduce_intensity r = true.
Proof.
  intros sample opt.
  assert (Hlen : (10 <= length (performance_history opt))%nat).
  { destruct (history_lengths (repeat (Performance sample 0%Q) 10) (init (1 # 10)))
      as [H _];
      [cbn [init performance_history length]; lia
      |cbn [init rejection_history length]; lia|].
    subst opt. rewrite H. vm_compute. lia. }
  assert (Ht : (85 < 90)%Q) by reflexivity.
  destruct (overheating_is_reported opt [] [] [] [90%Q] sample 90%Q Hlen
              (or_introl eq_refl) Ht) as (r & w & H1 & H2 & _).
  exists r. split; assumption.
Defined.

End Recommendations.

Section Switching.
Import Optimizer Policy.

Lemma best_other_inv (current : string) (n : nat) (items : list (string * list Q)) :
  forall (processed : list (string * list Q)) (best : option string) (bs : Q),
  (0 <= bs)%Q ->
  (forall k s, In (k, s) processed -> k <> current -> s <> [] ->
     (mean (last_n n s) <= bs)%Q) ->
  match best with
  | None => bs = 0%Q
  | Some k => k <> current
              /\ exists s, In (k, s) processed /\ s <> []
                           /\ bs = mean (last_n n s) /\ (0 < bs)%Q
  end ->
  let st := fold_left (best_other_step current n) items (best, bs) in
  (0 <= st.2)%Q
  /\ (forall k s, In (k, s) (processed ++ items) -> k <> current -> s <> [] ->
        (mean (last_n n s) <= st.2)%Q)
  /\ match st.1 with
     | None => st.2 = 0%Q
     | Some k => k <> current
                 /\ exists s, In (k, s) (processed ++ items) /\ s <> []
                              /\ st.2 = mean (last_n n s) /\ (0 < st.2)%Q
     end.
Proof.
  induction items as [|[k0 s0] items IH]; intros processed best bs H0 Hall Hbest.
  - cbn [fold_left fst snd]. rewrite app_nil_r. repeat split; assumption.
  - cbn [fold_left].
    replace (processed ++ (k0, s0) :: items)
      with ((processed ++ [(k0, s0)]) ++ items)
      by now rewrite <- app_assoc.
    destruct (best_other_step current n (best, bs) (k0, s0)) as [best' bs']
      eqn:Estep.
    assert (Hkeep :
      (k0 = current \/ s0 = [] \/ (mean (last_n n s0) <= bs)%Q) ->
      (forall k s, In (k, s) (processed ++ [(k0, s0)]) -> k <> current ->
         s <> [] -> (mean (last_n n s) <= bs)%Q)
      /\ match best with
         | None => bs = 0%Q
         | Some k => k <> current
                     /\ exists s, In (k, s) (processed ++ [(k0, s0)]) /\ s <> []
                                  /\ bs = mean (last_n n s) /\ (0 < bs)%Q
         end).
    { intros Hcase. split.
      - intros k s Hin Hk Hs. apply in_app_or in Hin as [Hin|[[= -> ->]|[]]];
          [exact (Hall _ _ Hin Hk Hs)|]. destruct Hcase as [?|[?|?]]; congruence || assumption.
      - destruct best as [k|]; [|exact Hbest].
        destruct Hbest as (Hk & s & Hin & Hrest). split; [exact Hk|].
        exists s. split; [apply in_or_app; now left|exact Hrest]. }
    unfold best_other_step in Estep.
    destruct (String.eqb_spec k0 current) as [Heq|Hne]; cbn [negb] in Estep.
    { injection Estep as <- <-.
      destruct Hkeep as [Ha Hb]; [now left|]. now apply IH. }
    destruct s0 as [|x s0].
    { injection Estep as <- <-.
      destruct Hkeep as [Ha Hb]; [right; now left|]. now apply IH. }
    destruct (Qlt_le_dec bs (mean (last_n n (x :: s0)))) as [Hlt|Hle].
    + injection Estep as <- <-. apply IH; [lra| |].
      * intros k s Hin Hk Hs. apply in_app_or in Hin as [Hin|[[= -> ->]|[]]].
        -- specialize (Hall k s Hin Hk Hs). lra.
        -- lra.
      * split; [exact Hne|]. exists (x :: s0).
        split; [apply in_or_app; right; now left|].
        split; [discriminate|]. split; [reflexivity|lra].
    + injection Estep as <- <-.
      destruct Hkeep as [Ha Hb]; [right; now right|]. now apply IH.
Qed.

Lemma best_other_spec (items : list (string * list Q)) (current : string) :
  match best_other items current with
  | Some k =>
      k <> current
      /\ exists s, In (k, s) items /\ s <> [] /\ (0 < mean (last_n 5 s))%Q
           /\ forall k' s', In (k', s') items -> k' <> current -> s' <> [] ->
                (mean (last_n 5 s') <= mean (last_n 5 s))%Q
  | None =>
      forall k' s', In (k', s') items -> k' <> current -> s' <> [] ->
        (mean (last_n 5 s') <= 0)%Q
  end.
Proof.
  unfold best_other.
  destruct (best_other_inv current 5 items [] None 0%Q) as (H0 & Hall & Hbest);
    [lra|intros k s []|reflexivity|].
  cbn [app] in *. cbv zeta in *.
  destruct (fold_left (best_other_step current 5) items (None, 0%Q)) as [best bs].
  cbn [fst snd] in *. destruct best as [k|].
  - destruct Hbest as (Hk & s & Hin & Hs & Hbs & Hpos). split; [exact Hk|].
    exists s. split; [exact Hin|]. split; [exact Hs|]. rewrite <- Hbs.
    split; [exact Hpos|exact Hall].
  - subst bs. exact Hall.
Qed.

(** X16. [_recommend_pool_switch] never recommends the current pool.  A
    recommended pool has a recorded history whose recent mean (over its last
    five scores) is positive and at least the recent mean of every other
    pool with a history; when no other pool has a positive recent mean it
    recommends none. *)
Theorem recommend_pool_switch_is_best (pool_items : list (string * list Q))
    (current_metrics : Metrics) :
  let current := default "" (m_pool current_metrics) in
  match _recommend_pool_switch pool_items current_metrics with
  | Some k =>
      k <> current
      /\ exists s, In (k, s) pool_items /\ s <> []
           /\ (0 < mean (last_n 5 s))%Q
           /\ forall k' s', In (k', s') pool_items -> k' <> current ->
                s' <> [] -> (mean (last_n 5 s') <= mean (last_n 5 s))%Q
  | None =>
      forall k' s', In (k', s') pool_items -> k' <> current -> s' <> [] ->
        (mean (last_n 5 s') <= 0)%Q
  end.
Proof.
  intros current. unfold _recommend_pool_switch. fold current.
  pose proof (best_other_spec pool_items current) as H.
  destruct (best_other pool_items current) as [k|].
  - destruct H as (Hk & s & H1 & H2 & H3 & H4). split; [exact Hk|].
    exists s. repeat split; assumption.
  - exact H.
Qed.







End Switching.

Section SegmentCoverage.
Import Optimizer.




(** Two segment ids of one worker are equal only for equal counters. *)
Lemma segment_id_inj (w : string) (i j : Z) :
  (w ++ "_" ++ pretty i)%string = (w ++ "_" ++ pretty j)%string -> i = j.
Proof.
  intros H. apply (inj (String.app w)) in H.
  apply (inj (String.app "_")) in H.
  now apply (inj pretty) in H.
Qed.

(** What the loop leaves in [active_segments]: the [k]-th segment of the
    result under the id made of the worker and [sid + k], and every entry
    under another key as it was. *)
Lemma segment_loop_registers (fuel : nat) :
  forall work w size ne active cur sid active' segs,
  segment_loop fuel work w size ne active cur sid = Some (active', segs) ->
  (forall k seg, nth_error segs k = Some seg ->
     exists a b,
       seg = segment_dict work w a b (sid + Z.of_nat k)
       /\ active' !! (w ++ "_" ++ pretty (sid + Z.of_nat k)%Z)%string
          = Some {| segment_id := (w ++ "_" ++ pretty (sid + Z.of_nat k)%Z)%string;
                    work_data := seg; nonce_start := a; nonce_end := b;
                    assigned_worker := w |})
  /\ (forall key,
        (forall k, (k < length segs)%nat ->
           key <> (w ++ "_" ++ pretty (sid + Z.of_nat k)%Z)%string) ->
        active' !! key = active !! key).
Proof.
  induction fuel as [|fuel IH];
    intros work w size ne active cur sid a' segs H.
  - simpl in H. destruct (cur <? ne)%Z; [discriminate|].
    injection H as <- <-. split; [|reflexivity].
    intros [|k] seg Hk; discriminate.
  - simpl in H. destruct (cur <? ne)%Z.
    2:{ injection H as <- <-. split; [|reflexivity].
        intros [|k] seg Hk; discriminate. }
    destruct (segment_loop fuel _ _ _ _ _ _ _) as [[a1 segs1]|] eqn:E;
      [|discriminate].
    injection H as <- <-.
    destruct (IH _ _ _ _ _ _ _ _ _ E) as [Hreg Hkeep].
    split.
    + intros [|k] seg Hk.
      * injection Hk as <-. rewrite Z.add_0_r.
        eexists _, _. split; [reflexivity|].
        rewrite Hkeep.
        -- now rewrite lookup_insert_eq.
        -- intros k _ Heq. apply segment_id_inj in Heq. lia.
      * destruct (Hreg k seg Hk) as (a & b & Hseg & Hlook).
        replace (sid + Z.of_nat (S k))%Z with (sid + 1 + Z.of_nat k)%Z by lia.
        now exists a, b.
    + intros key Hkey. rewrite Hkeep.
      * rewrite lookup_insert_ne; [reflexivity|].
        intros Heq. apply (Hkey 0%nat); [simpl; lia|].
        now rewrite Z.add_0_r.
      * intros k Hk Heq. apply (Hkey (S k)); [simpl; lia|].
        rewrite Heq. f_equal. f_equal. f_equal. lia.
Qed.

(** X19. Book-keeping of [segment_work].  When the call returns, the [k]-th
    returned segment is the work dict with its nonce bounds replaced, its
    [segment_id] set to the worker id, an underscore and [k], and
    [original_work_id] set to the work's [job_id]; every other entry of the
    work dict is in the segment unchanged.  The segment is recorded in
    [active_segments] under that id, with the same nonce bounds and the
    worker.  Nothing else of the optimizer changes: entries of
    [active_segments] under other keys, the histories and the efficiencies
    are as before. *)
Theorem segment_work_registers_segments (fuel : nat) (opt opt' : AIOptimizer)
    (work : pydict) (worker_id : string) (segs : list pydict) :
  segment_work fuel opt work worker_id = Segments opt' segs ->
  (forall k seg, nth_error segs k = Some seg ->
     let id := (worker_id ++ "_" ++ pretty (Z.of_nat k))%string in
     exists a b,
       segment_range seg = Some (a, b)
       /\ seg !! "segment_id" = Some (VStr id)
       /\ seg !! "original_work_id"
          = Some (dict_get work "job_id" (VStr "unknown"))
       /\ (forall key, key <> "nonce_start" -> key <> "nonce_end" ->
             key <> "segment_id" -> key <> "original_work_id" ->
             seg !! key = work !! key)
       /\ active_segments opt' !! id
          = Some {| segment_id := id; work_data := seg; nonce_start := a;
                    nonce_end := b; assigned_worker := worker_id |})
  /\ (forall key,
        (forall k, (k < length segs)%nat ->
           key <> (worker_id ++ "_" ++ pretty (Z.of_nat k))%string) ->
        active_segments opt' !! key = active_segments opt !! key)
  /\ opt' = with_active opt (active_segments opt').
Proof.
  intros H. unfold segment_work in H.
  destruct (_calculate_base_segment_size _ _) as [base|e]; [|discriminate].
  destruct (dict_get work "nonce_start" _) as [|ns| |]; try discriminate.
  destruct (dict_get work "nonce_end" _) as [|ne| |]; try discriminate.
  destruct (segment_loop fuel _ _ _ _ _ _ _) as [[a1 segs1]|] eqn:E;
    [|discriminate].
  injection H as <- <-.
  destruct (segment_loop_registers fuel _ _ _ _ _ _ _ _ _ E) as [Hreg Hkeep].
  split; [|split; [exact Hkeep|reflexivity]].
  intros k seg Hk id.
  destruct (Hreg k seg Hk) as (a & b & Hseg & Hlook).
  change (0 + Z.of_nat k)%Z with (Z.of_nat k) in *.
  exists a, b. fold id in Hlook.
  split; [subst seg; apply segment_dict_range|].
  split; [|split; [|split; [|exact Hlook]]].
  - subst seg. unfold segment_dict, dict_update. simpl.
    rewrite lookup_insert_ne by discriminate.
    now rewrite lookup_insert_eq.
  - subst seg. unfold segment_dict, dict_update. simpl.
    now rewrite lookup_insert_eq.
  - intros key H1 H2 H3 H4. subst seg. unfold segment_dict, dict_update. simpl.
    now rewrite !lookup_insert_ne by congruence.
Qed.

Lemma segment_work_registers_segments_witness :
  let work : pydict := <["nonce_start" := VInt 0]> (<["nonce_end" := VInt 5]> ∅) in
  exists opt' segs,
    segment_work 5 (init (1 # 10)) work "w1" = Segments opt' segs
    /\ opt' = with_active (init (1 # 10)) (active_segments opt').
Proof.
  intros work.
  assert (Hb : _calculate_base_segment_size
                 (dict_get work "algorithm" (VStr "SHA256"))
                 (dict_get work "target" (VInt diff1_target)) = Ret 1000000%Z)
    by now vm_compute.
  assert (E : exists opt' segs,
             segment_work 5 (init (1 # 10)) work "w1" = Segments opt' segs).
  { unfold segment_work. rewrite Hb.
    change (adjusted_size 1000000 (efficiency_of (init (1 # 10)) "w1"))
      with 1000000%Z.
    change (dict_get work "nonce_start" (VInt 0)) with (VInt 0).
    change (dict_get work "nonce_end" (VInt 4294967295)) with (VInt 5).
    cbv iota beta.
    rewrite segment_loop_step by lia. cbv zeta.
    change (Z.min (0 + 1000000) 5)%Z with 5%Z.
    rewrite segment_loop_done by lia.
    eexists _, _. reflexivity. }
  destruct E as (opt' & segs & E).
  exists opt', segs. split; [exact E|].
  exact (proj2 (proj2 (segment_work_registers_segments 5 (init (1 # 10)) opt'
                         work "w1" segs E))).
Defined.

End SegmentCoverage.

Section ClusterLifecycle.
Import Cluster ClusterOps.

Lemma filter_none {A} (p : A -> bool) (l : list A) :
  (forall x, In x l -> p x = false) -> List.filter p l = [].
Proof.
  induction l as [|x l IH]; intros H; [reflexivity|].
  cbn [List.filter]. rewrite (H x) by now left.
  apply IH. intros y Hy. apply H. now right.
Qed.

Lemma filter_perm {A} (p : A -> bool) (l l' : list A) :
  l ≡ₚ l' -> List.filter p l ≡ₚ List.filter p l'.
Proof.
  induction 1 as [|x l l' _ IH|x y l|l1 l2 l3 _ IH1 _ IH2]; cbn [List.filter].
  - constructor.
  - destruct (p x); [now constructor|exact IH].
  - destruct (p x), (p y); try reflexivity. apply perm_swap.
  - now transitivity (List.filter p l2).
Qed.

Lemma Qsum_perm (l l' : list Q) : l ≡ₚ l' -> (Qsum l == Qsum l')%Q.
Proof.
  induction 1 as [|x l l' _ IH|x y l|l1 l2 l3 _ IH1 _ IH2]; cbn [Qsum fold_right].
  - reflexivity.
  - fold (Qsum l) (Qsum l'). now rewrite IH.
  - ring.
  - now transitivity (Qsum l2).
Qed.

(** The values of the node map are the nodes stored under some key. *)
Lemma in_node_values (m : gmap string MiningNode) (n : MiningNode) :
  In n (node_values m) <-> exists k, m !! k = Some n.
Proof.
  unfold node_values. rewrite <- list_elem_of_In, list_elem_of_fmap. split.
  - intros ([k n'] & -> & Hin). exists k. now apply elem_of_map_to_list in Hin.
  - intros (k & Hk). exists (k, n). split; [reflexivity|].
    now apply elem_of_map_to_list.
Qed.

Lemma node_values_insert (m : gmap string MiningNode) k n :
  m !! k = None -> node_values (<[k := n]> m) ≡ₚ n :: node_values m.
Proof.
  intros H. unfold node_values.
  now rewrite (map_to_list_insert m k n H).
Qed.

(** X20. Shutdown.  [stop] leaves every node in the registry, under the same
    key, with status inactive and no algorithm, pool or work segment, and
    with its hardware description and last metrics as they were.  The stored
    statistics are not recomputed: they still describe the cluster before
    the shutdown, whereas the statistics derived from the node map now count
    no active node, no hashrate, no power, no algorithm and no pool. *)
Theorem stop_leaves_idle_cluster (cm : ClusterManager) :
  (forall id, nodes (stop cm) !! id = _stop_node_mining <$> nodes cm !! id)
  /\ compute_stats (nodes (stop cm))
     = {| total_nodes := size (nodes cm); active_nodes := 0;
          total_hashrate := 0; total_power := 0;
          algorithms_running := ∅; pools_connected := ∅;
          efficiency_score := 0 |}
  /\ cluster_stats (stop cm) = cluster_stats cm.
Proof.
  split; [|split; [|reflexivity]].
  - intros id. unfold stop, _stop_all_nodes. cbn [nodes with_nodes].
    apply lookup_fmap.
  - unfold stop, _stop_all_nodes. cbn [nodes with_nodes].
    set (m := _stop_node_mining <$> nodes cm).
    assert (Hst : forall n, In n (node_values m) -> status n = "inactive").
    { intros n Hin. apply in_node_values in Hin as (k & Hk).
      unfold m in Hk. rewrite lookup_fmap in Hk.
      destruct (nodes cm !! k); [|discriminate].
      now injection Hk as <-. }
    assert (Hm : List.filter is_mining (node_values m) = []).
    { apply filter_none. intros n Hin. unfold is_mining.
      now rewrite (Hst n Hin). }
    assert (Ha : List.filter is_active (node_values m) = []).
    { apply filter_none. intros n Hin. unfold is_active.
      now rewrite (Hst n Hin). }
    unfold compute_stats, _calculate_cluster_efficiency.
    rewrite Hm, Ha. unfold m at 1. rewrite map_size_fmap.
    reflexivity.
Qed.

(** X21. Registration followed by removal.  On a manager whose stored
    statistics are up to date, registering a node under an id that is not in
    the registry and then unregistering the returned id gives back the
    manager as it was: node map, statistics and cluster id. *)
Theorem register_then_unregister (cm : ClusterManager) (info : NodeInfo)
    (uuid : string) (now : Q) :
  stats_consistent cm ->
  nodes cm !! chosen_id info uuid = None ->
  unregister_node (register_node cm info uuid now).1
                  (register_node cm info uuid now).2 = cm.
Proof.
  intros Hc Hfresh. unfold register_node. cbn [fst snd].
  set (id := chosen_id info uuid) in *.
  unfold unregister_node. cbn [nodes _update_cluster_stats with_nodes].
  rewrite lookup_insert_eq.
  cbn [nodes _update_cluster_stats with_nodes cluster_id].
  rewrite !delete_insert_eq, (delete_id _ _ Hfresh).
  unfold _update_cluster_stats, with_nodes. cbn [nodes cluster_id].
  unfold stats_consistent in Hc. rewrite <- Hc.
  now destruct cm.
Qed.

Lemma register_then_unregister_witness :
  unregister_node (register_node (init "c") (Spec.info_of "n1" 4) "uuid" 0).1
                  (register_node (init "c") (Spec.info_of "n1" 4) "uuid" 0).2
  = init "c".
Proof.
  apply (register_then_unregister (init "c") (Spec.info_of "n1" 4) "uuid" 0).
  - reflexivity.
  - reflexivity.
Defined.

(** X22. Registering a node under an id that is not in the registry adds one
    to the number of nodes and to the number of active nodes, and leaves the
    figures about mining nodes (hashrate, power, algorithms, pools) as the
    node map had them: the new node is active and does not mine yet.  The
    two sums are compared as rationals, the order of the summands being the
    iteration order of the dict. *)
Theorem register_fresh_node_counts (cm : ClusterManager) (info : NodeInfo)
    (uuid : string) (now : Q) :
  nodes cm !! chosen_id info uuid = None ->
  let old := compute_stats (nodes cm) in
  let new := cluster_stats (register_node cm info uuid now).1 in
  total_nodes new = S (total_nodes old)
  /\ active_nodes new = S (active_nodes old)
  /\ (total_hashrate new == total_hashrate old)%Q
  /\ (total_power new == total_power old)%Q
  /\ algorithms_running new = algorithms_running old
  /\ pools_connected new = pools_connected old.
Proof.
  intros Hfresh old new. subst old new.
  unfold register_node. cbn [fst cluster_stats _update_cluster_stats nodes with_nodes].
  set (id := chosen_id info uuid) in *.
  match goal with |- context [<[id := ?n]> _] => set (node := n) end.
  pose proof (node_values_insert (nodes cm) id node Hfresh) as Hp.
  assert (Hm : List.filter is_mining (node_values (<[id := node]> (nodes cm)))
               ≡ₚ List.filter is_mining (node_values (nodes cm))).
  { rewrite (filter_perm is_mining _ _ Hp). reflexivity. }
  assert (Ha : List.filter is_active (node_values (<[id := node]> (nodes cm)))
               ≡ₚ node :: List.filter is_active (node_values (nodes cm))).
  { rewrite (filter_perm is_active _ _ Hp). reflexivity. }
  unfold compute_stats.
  cbn [total_nodes active_nodes total_hashrate total_power
       algorithms_running pools_connected].
  repeat split.
  - now apply map_size_insert_None.
  - now rewrite (Permutation_length Ha).
  - apply Qsum_perm. now rewrite Hm.
  - apply Qsum_perm. now rewrite Hm.
  - apply list_to_set_perm_L, filter_perm. now rewrite Hm.
  - apply list_to_set_perm_L, filter_perm. now rewrite Hm.
Qed.

Lemma register_fresh_node_counts_witness :
  total_nodes (cluster_stats
                 (register_node (init "c") (Spec.info_of "n1" 4) "uuid" 0).1)
  = S (total_nodes (compute_stats (nodes (init "c")))).
Proof.
  exact (proj1 (register_fresh_node_counts (init "c") (Spec.info_of "n1" 4)
                  "uuid" 0 eq_refl)).
Defined.

(** *** Keys and node ids *)

Lemma keyed_init c : keyed_by_id (init c).
Proof. intros k n H. cbn in H. now rewrite lookup_empty in H. Qed.

Lemma keyed_insert (cm : ClusterManager) k n :
  keyed_by_id cm -> node_id n = k ->
  keyed_by_id (with_nodes cm (<[k := n]> (nodes cm))).
Proof.
  intros Hk Hn k' n' H. cbn [nodes with_nodes] in H.
  apply lookup_insert_Some in H as [[<- <-]|[_ H]]; [exact Hn|exact (Hk _ _ H)].
Qed.

Lemma keyed_update_stats cm :
  keyed_by_id cm -> keyed_by_id (_update_cluster_stats cm).
Proof. intros H. exact H. Qed.

Lemma register_node_keyed cm info uuid now :
  keyed_by_id cm -> keyed_by_id (register_node cm info uuid now).1.
Proof.
  intros H. unfold register_node. cbn [fst].
  apply keyed_update_stats, keyed_insert; [exact H|reflexivity].
Qed.

Lemma unregister_node_nodes cm id :
  nodes (unregister_node cm id) = delete id (nodes cm).
Proof.
  unfold unregister_node. destruct (nodes cm !! id) eqn:E.
  - cbn [nodes _update_cluster_stats with_nodes]. apply delete_insert_eq.
  - symmetry. now apply delete_id.
Qed.

Lemma unregister_node_keyed cm id :
  keyed_by_id cm -> keyed_by_id (unregister_node cm id).
Proof.
  intros H k n Hk. rewrite unregister_node_nodes in Hk.
  apply lookup_delete_Some in Hk as [_ Hk]. exact (H _ _ Hk).
Qed.

Lemma update_node_status_nodes cm id sd now node :
  nodes cm !! id = Some node ->
  exists node', node_id node' = node_id node
    /\ nodes (update_node_status cm id sd now) = <[id := node']> (nodes cm).
Proof.
  intros H. unfold update_node_status. rewrite H.
  eexists. split; [|reflexivity]. reflexivity.
Qed.

Lemma update_node_status_keyed cm id sd now :
  keyed_by_id cm -> keyed_by_id (update_node_status cm id sd now).
Proof.
  intros H. destruct (nodes cm !! id) as [node|] eqn:E.
  - destruct (update_node_status_nodes cm id sd now node E) as (n' & Hid & Hn).
    intros k n Hk. rewrite Hn in Hk.
    apply lookup_insert_Some in Hk as [[<- <-]|[_ Hk]]; [|exact (H _ _ Hk)].
    rewrite Hid. exact (H _ _ E).
  - unfold update_node_status. now rewrite E.
Qed.

Lemma assign_work_keyed cm id alg pool segs cmd :
  keyed_by_id cm -> keyed_by_id (assign_work cm id alg pool segs cmd).1.
Proof.
  intros H. unfold assign_work.
  destruct (nodes cm !! id) as [node|] eqn:E; [|exact H].
  destruct cmd as [[|]|]; try exact H.
  cbn [fst]. apply keyed_insert; [exact H|]. exact (H _ _ E).
Qed.

(** *** Node selection *)

Lemma best_node_fold (algorithm : string) (l : list MiningNode) :
  forall b s b' s',
  fold_left (best_node_step algorithm) l (b, s) = (b', s') ->
  (s <= s')%Q
  /\ (forall n, In n l -> (_calculate_algorithm_suitability n algorithm <= s')%Q)
  /\ ((b' = b /\ s' = s)
      \/ exists n, b' = Some n /\ In n l
           /\ _calculate_algorithm_suitability n algorithm = s' /\ (s < s')%Q).
Proof.
  induction l as [|x l IH]; intros b s b' s' H.
  - injection H as <- <-. split; [lra|]. split; [intros n []|]. now left.
  - cbn [fold_left] in H. unfold best_node_step at 2 in H. cbn [snd] in H.
    destruct (Qlt_le_dec s (_calculate_algorithm_suitability x algorithm))
      as [Hlt|Hle].
    + destruct (IH _ _ _ _ H) as (Hs & Hall & Hb). split; [lra|]. split.
      * intros n [<-|Hin]; [exact Hs|exact (Hall n Hin)].
      * right. destruct Hb as [[-> ->]|(n & -> & Hin & Hn & Hlt')].
        -- exists x. repeat split; [now left|exact Hlt].
        -- exists n. repeat split; [now right|exact Hn|lra].
    + destruct (IH _ _ _ _ H) as (Hs & Hall & Hb). split; [exact Hs|]. split.
      * intros n [<-|Hin]; [lra|exact (Hall n Hin)].
      * destruct Hb as [Hb|(n & -> & Hin & Hn & Hlt')]; [now left|].
        right. exists n. repeat split; [now right|exact Hn|exact Hlt'].
Qed.

(** X23. Node selection.  On a registry that stores every node under its
    own id, [get_optimal_node_assignment] answers the id of a registered
    node that is available for the algorithm (active, or mining that very
    algorithm), whose suitability score is positive and is not exceeded by
    any available node; it answers [None] exactly when no available node has
    a positive score. *)
Theorem optimal_node_is_best (cm : ClusterManager) (values : list MiningNode)
    (algorithm : string) :
  keyed_by_id cm ->
  values_of cm values ->
  match get_optimal_node_assignment values algorithm with
  | Some id =>
      exists n, nodes cm !! id = Some n
        /\ is_available algorithm n = true
        /\ (0 < _calculate_algorithm_suitability n algorithm)%Q
        /\ forall k m, nodes cm !! k = Some m ->
             is_available algorithm m = true ->
             (_calculate_algorithm_suitability m algorithm
              <= _calculate_algorithm_suitability n algorithm)%Q
  | None =>
      forall k m, nodes cm !! k = Some m ->
        is_available algorithm m = true ->
        (_calculate_algorithm_suitability m algorithm <= 0)%Q
  end.
Proof.
  intros Hkey Hval.
  assert (Hin : forall k m, nodes cm !! k = Some m ->
                  is_available algorithm m = true ->
                  In m (List.filter (is_available algorithm) values)).
  { intros k m Hk Ha. apply filter_In. split; [|exact Ha].
    apply list_elem_of_In. rewrite Hval. apply list_elem_of_In.
    apply in_node_values. now exists k. }
  assert (Hout : forall m, In m (List.filter (is_available algorithm) values) ->
                   is_available algorithm m = true
                   /\ nodes cm !! node_id m = Some m).
  { intros m Hm. apply filter_In in Hm as [Hm Ha]. split; [exact Ha|].
    apply list_elem_of_In in Hm. rewrite Hval in Hm.
    apply list_elem_of_In, in_node_values in Hm as (k & Hk).
    now rewrite (Hkey _ _ Hk). }
  unfold get_optimal_node_assignment.
  destruct (List.filter (is_available algorithm) values) as [|x l] eqn:E.
  - intros k m Hk Ha. destruct (Hin k m Hk Ha).
  - destruct (fold_left _ (x :: l) _) as [b s] eqn:F.
    destruct (best_node_fold algorithm (x :: l) _ _ _ _ F)
      as (Hs & Hall & [[-> ->]|(n & -> & Hn & Hsn & Hpos)]).
    + cbn. intros k m Hk Ha. exact (Hall m (Hin k m Hk Ha)).
    + cbn. exists n. destruct (Hout n Hn) as [Ha Hlook].
      split; [exact Hlook|]. split; [exact Ha|]. split; [now rewrite Hsn|].
      intros k m Hk Hm. rewrite Hsn. exact (Hall m (Hin k m Hk Hm)).
Qed.

Lemma keyed_one_node : keyed_by_id Spec.one_node.
Proof. apply register_node_keyed, keyed_init. Qed.

Lemma optimal_node_is_best_witness :
  match get_optimal_node_assignment (node_values (nodes Spec.one_node)) "SHA256" with
  | Some id =>
      exists n, nodes Spec.one_node !! id = Some n
        /\ is_available "SHA256" n = true
        /\ (0 < _calculate_algorithm_suitability n "SHA256")%Q
        /\ forall k m, nodes Spec.one_node !! k = Some m ->
             is_available "SHA256" m = true ->
             (_calculate_algorithm_suitability m "SHA256"
              <= _calculate_algorithm_suitability n "SHA256")%Q
  | None =>
      forall k m, nodes Spec.one_node !! k = Some m ->
        is_available "SHA256" m = true ->
        (_calculate_algorithm_suitability m "SHA256" <= 0)%Q
  end.
Proof.
  apply (optimal_node_is_best Spec.one_node (node_values (nodes Spec.one_node))
           "SHA256").
  - exact keyed_one_node.
  - unfold values_of. reflexivity.
Defined.

End ClusterLifecycle.

Section HealthCheck.
Import Cluster ClusterOps.

(** A ping changes at most the node object it is sent to. *)
Lemma ping_node_nodes cm k node answer :
  keyed_by_id cm -> nodes cm !! k = Some node ->
  exists node', node_id node' = k
    /\ nodes (_ping_node cm k node answer) = <[k := node']> (nodes cm).
Proof.
  intros Hkey Hk. pose proof (Hkey _ _ Hk) as Hid.
  destruct answer as [|t [[sd t']|]]; cbn [_ping_node].
  - exists node. split; [exact Hid|]. symmetry. now apply insert_id.
  - rewrite Hid.
    set (cm1 := with_nodes cm (<[k := with_last_seen node t]> (nodes cm))).
    assert (H1 : nodes cm1 !! k = Some (with_last_seen node t))
      by apply lookup_insert_eq.
    destruct (update_node_status_nodes cm1 k sd t' _ H1) as (n' & Hn' & Hnodes).
    exists n'. split; [now rewrite Hn'|].
    rewrite Hnodes. unfold cm1. cbn [nodes with_nodes].
    apply insert_insert_eq.
  - exists (with_last_seen node t). split; [exact Hid|reflexivity].
Qed.

(** The first loop of the pass: it keeps the key set, touches only the
    node it is visiting, and collects exactly the unresponsive nodes. *)
Lemma check_nodes_spec (orig : gmap string MiningNode) (now : Q)
    (ping : string -> ping_outcome) :
  forall keys c rm c1 rm1,
  NoDup keys ->
  keyed_by_id c ->
  (forall k, In k keys -> nodes c !! k = orig !! k) ->
  (forall k, is_Some (nodes c !! k) <-> is_Some (orig !! k)) ->
  fold_left (check_node now ping) keys (c, rm) = (c1, rm1) ->
  keyed_by_id c1
  /\ (forall k, is_Some (nodes c1 !! k) <-> is_Some (orig !! k))
  /\ (forall k, In k rm1 <->
        In k rm \/ (In k keys /\ exists n, orig !! k = Some n
                                   /\ unresponsive now n = true)).
Proof.
  induction keys as [|a keys IH]; intros c rm c1 rm1 Hnd Hkey Hun Hdom H.
  - injection H as <- <-. split; [exact Hkey|]. split; [exact Hdom|].
    intros k. split; [now left|]. now intros [?|[[] _]].
  - apply NoDup_cons in Hnd as [Ha Hnd].
    assert (Hstep : forall c' n',
              (exists n0, nodes c !! a = Some n0) ->
              node_id n' = a ->
              nodes c' = <[a := n']> (nodes c) ->
              keyed_by_id c'
              /\ (forall k, In k keys -> nodes c' !! k = orig !! k)
              /\ (forall k, is_Some (nodes c' !! k) <-> is_Some (orig !! k))).
    { intros c' n' (n0 & Hn0) Hid Hnodes. split; [|split].
      - intros k n Hk. rewrite Hnodes in Hk.
        apply lookup_insert_Some in Hk as [[<- <-]|[_ Hk]];
          [exact Hid|exact (Hkey _ _ Hk)].
      - intros k Hk. rewrite Hnodes, lookup_insert_ne.
        + apply Hun. now right.
        + intros ->. apply Ha. now apply list_elem_of_In.
      - intros k. rewrite Hnodes, lookup_insert_is_Some, <- Hdom.
        split.
        + intros [<-|[_ ?]]; [now exists n0|assumption].
        + intros Hs. destruct (decide (a = k)); [now left|right; now split]. }
    cbn [fold_left] in H. unfold check_node at 2 in H.
    destruct (nodes c !! a) as [node|] eqn:E.
    + assert (Ho : orig !! a = Some node) by (rewrite <- Hun; [exact E|now left]).
      destruct (unresponsive now node) eqn:U.
      * destruct (Hstep (with_nodes c (<[a := with_status node "error"]> (nodes c)))
                    (with_status node "error")
                    (ex_intro _ node eq_refl) (Hkey _ _ E) eq_refl)
          as (K1 & K2 & K3).
        destruct (IH _ _ _ _ Hnd K1 K2 K3 H) as (R1 & R2 & R3).
        split; [exact R1|]. split; [exact R2|].
        intros k. rewrite R3, in_app_iff. cbn [In]. split.
        -- intros [[?|[<-|[]]]|[? ?]]; [now left| |right; split; [now right|assumption]].
           right. split; [now left|]. now exists node.
        -- intros [?|[[<-|?] Hn]]; [now left; left|now left; right; left|].
           right. now split.
      * destruct (ping_node_nodes c a node (ping a) Hkey E) as (n' & Hid & Hnodes).
        destruct (Hstep _ n' (ex_intro _ node eq_refl) Hid Hnodes)
          as (K1 & K2 & K3).
        destruct (IH _ _ _ _ Hnd K1 K2 K3 H) as (R1 & R2 & R3).
        split; [exact R1|]. split; [exact R2|].
        intros k. rewrite R3. split.
        -- intros [?|[? ?]]; [now left|]. right. split; [now right|assumption].
        -- intros [?|[[<-|?] Hn]]; [now left| |right; now split].
           destruct Hn as (n & Hn & Hu). rewrite Ho in Hn.
           injection Hn as <-. congruence.
    + assert (Ho : orig !! a = None) by (rewrite <- Hun; [exact E|now left]).
      assert (Hun' : forall k, In k keys -> nodes c !! k = orig !! k)
        by (intros k Hk; apply Hun; now right).
      destruct (IH _ _ _ _ Hnd Hkey Hun' Hdom H) as (R1 & R2 & R3).
      split; [exact R1|]. split; [exact R2|].
      intros k. rewrite R3. split.
      * intros [?|[? ?]]; [now left|]. right. split; [now right|assumption].
      * intros [?|[[<-|?] Hn]]; [now left| |right; now split].
        destruct Hn as (n & Hn & _). congruence.
Qed.

(** The second loop removes the collected keys and nothing else. *)
Lemma unregister_all_nodes (rm : list string) :
  forall c k,
  nodes (fold_left unregister_node rm c) !! k
  = if decide (k ∈ rm) then None else nodes c !! k.
Proof.
  induction rm as [|a rm IH]; intros c k; cbn [fold_left].
  - destruct (decide (k ∈ [])) as [Hin|]; [|reflexivity].
    now apply not_elem_of_nil in Hin.
  - rewrite IH, unregister_node_nodes.
    destruct (decide (k ∈ rm)) as [Hin|Hout].
    + destruct (decide (k ∈ a :: rm)) as [|Hn]; [reflexivity|].
      destruct Hn. now apply list_elem_of_further.
    + destruct (decide (k ∈ a :: rm)) as [Hin|Hn].
      * apply elem_of_cons in Hin as [->|?]; [|contradiction].
        apply lookup_delete_eq.
      * apply lookup_delete_ne. intros ->. apply Hn. apply list_elem_of_here.
Qed.

Lemma unregister_all_keyed (rm : list string) :
  forall c, keyed_by_id c -> keyed_by_id (fold_left unregister_node rm c).
Proof.
  induction rm as [|a rm IH]; intros c H; cbn [fold_left]; [exact H|].
  apply IH, unregister_node_keyed, H.
Qed.

(** X24. One pass of the health check, run without interleaving on a
    registry that stores every node under its own id.  Whatever the nodes
    answer to the ping, the nodes left in the registry are exactly those
    that were last seen at most [node_timeout] (300) seconds before the
    pass started: every node silent for longer is removed, no other node
    is.  The stored statistics are those of the remaining nodes, and every
    node is still stored under its own id. *)
Theorem health_check_evicts_unresponsive (cm : ClusterManager) (now : Q)
    (ping : string -> ping_outcome) (keys : list string) :
  keyed_by_id cm ->
  NoDup keys ->
  (forall k, In k keys <-> is_Some (nodes cm !! k)) ->
  let cm' := health_check_pass cm now ping keys in
  (forall k, is_Some (nodes cm' !! k) <->
     exists n, nodes cm !! k = Some n /\ (now - last_seen n <= node_timeout)%Q)
  /\ stats_consistent cm'
  /\ keyed_by_id cm'.
Proof.
  intros Hkey Hnd Hkeys cm'. subst cm'. unfold health_check_pass.
  destruct (fold_left (check_node now ping) keys (cm, [])) as [c1 rm1] eqn:F.
  destruct (check_nodes_spec (nodes cm) now ping keys cm [] c1 rm1 Hnd Hkey
              (fun _ _ => eq_refl) (fun _ => iff_refl _) F) as (K1 & K2 & K3).
  split; [|split].
  - intros k. cbn [nodes _update_cluster_stats].
    rewrite unregister_all_nodes.
    destruct (decide (k ∈ rm1)) as [Hin|Hout].
    + apply list_elem_of_In, K3 in Hin as [[]|(_ & n & Hn & Hu)].
      split; [now intros [? ?]|].
      intros (n' & Hn' & Hle). rewrite Hn in Hn'. injection Hn' as <-.
      unfold unresponsive in Hu.
      destruct (Qlt_le_dec node_timeout (now - last_seen n)); [lra|discriminate].
    + rewrite K2. split.
      * intros [n Hn]. exists n. split; [exact Hn|].
        destruct (Qlt_le_dec node_timeout (now - last_seen n)) as [Hlt|Hle];
          [|exact Hle].
        destruct Hout. apply list_elem_of_In, K3. right. split.
        -- apply Hkeys. now exists n.
        -- exists n. split; [exact Hn|]. unfold unresponsive.
           destruct (Qlt_le_dec node_timeout (now - last_seen n)); [reflexivity|lra].
      * intros (n & Hn & _). now exists n.
  - reflexivity.
  - apply keyed_update_stats, unregister_all_keyed, K1.
Qed.

Lemma health_check_evicts_unresponsive_witness :
  stats_consistent
    (health_check_pass Spec.one_node 1000 (fun _ => PingFailed) ["n1"]).
Proof.
  refine (proj1 (proj2 (health_check_evicts_unresponsive Spec.one_node 1000
                          (fun _ => PingFailed) ["n1"] keyed_one_node _ _))).
  - constructor; [intros Hin; inversion Hin|constructor].
  - intros k. unfold Spec.one_node, register_node.
    cbn [fst nodes _update_cluster_stats with_nodes init].
    change (chosen_id (Spec.info_of "n1" 4) "uuid") with "n1".
    rewrite lookup_insert_is_Some. split.
    + intros [<-|[]]. now left.
    + intros [<-|[_ [n Hn]]]; [now left|].
      now rewrite lookup_empty in Hn.
Defined.

End HealthCheck.

Section Algorithms.
Import Miner.

Lemma upper_char_not_lower (c : ascii) : is_lower (Policy.upper_char c) = false.
Proof. destruct c as [[] [] [] [] [] [] [] []]; reflexivity. Qed.

Lemma str_upper_not_lower (s : string) :
  forall c, In c (list_ascii_of_string (Policy.str_upper s)) -> is_lower c = false.
Proof.
  induction s as [|a s IH]; intros c Hin; [destruct Hin|].
  cbn [Policy.str_upper list_ascii_of_string] in Hin.
  destruct Hin as [<-|Hin]; [apply upper_char_not_lower|exact (IH c Hin)].
Qed.

(** [str.upper] never answers a string with a lower-case letter in it. *)
Lemma str_upper_neq (s t : string) (c : ascii) :
  In c (list_ascii_of_string t) -> is_lower c = true -> Policy.str_upper s <> t.
Proof.
  intros Hin Hc <-. rewrite (str_upper_not_lower s c Hin) in Hc. discriminate.
Qed.

Lemma supported_key (u : string) :
  u ∈ algorithms -> (exists s, u = Policy.str_upper s) -> u = "SHA256".
Proof.
  intros Hin [s ->]. unfold algorithms in Hin.
  repeat (apply elem_of_cons in Hin as [Hin|Hin]); try exact Hin.
  - exfalso. apply (str_upper_neq s "RandomX" "a"%char) in Hin;
      [exact Hin|cbn; tauto|reflexivity].
  - exfalso. apply (str_upper_neq s "Ethash" "t"%char) in Hin;
      [exact Hin|cbn; tauto|reflexivity].
  - exfalso. apply (str_upper_neq s "Scrypt" "c"%char) in Hin;
      [exact Hin|cbn; tauto|reflexivity].
  - now apply not_elem_of_nil in Hin.
Qed.

(** X25. The algorithm table is looked up with the upper-cased name, and
    three of its four keys are written in mixed case.  So [get_algorithm]
    can only ever answer the SHA256 miner, and [is_supported] holds exactly
    for the spellings of "sha256": of the names [list_algorithms] reports,
    RandomX, Ethash and Scrypt are not supported, and a worker configured
    for one of them finds no algorithm. *)
Theorem only_sha256_is_supported (name : string) :
  (is_supported name = true <-> Policy.str_upper name = "SHA256")
  /\ (forall a, get_algorithm name = Some a -> a = "SHA256")
  /\ (In name list_algorithms ->
      (is_supported name = true <-> name = "SHA256")
      /\ (get_algorithm name = None <-> name <> "SHA256")).
Proof.
  assert (H1 : is_supported name = true <-> Policy.str_upper name = "SHA256").
  { unfold is_supported. rewrite bool_decide_eq_true. split.
    - intros Hin. apply supported_key; [exact Hin|now exists name].
    - intros ->. apply list_elem_of_here. }
  split; [exact H1|]. split.
  - intros a. unfold get_algorithm.
    destruct (bool_decide _) eqn:E; [|discriminate].
    intros [= <-]. apply bool_decide_eq_true in E.
    apply supported_key; [exact E|now exists name].
  - intros Hin. unfold list_algorithms, algorithms in Hin. cbn [In] in Hin.
    destruct Hin as [<-|[<-|[<-|[<-|[]]]]]; (split; [now vm_compute|]);
      vm_compute; split; (discriminate || congruence || tauto).
Qed.

Lemma only_sha256_is_supported_witness :
  (is_supported "Ethash" = true <-> "Ethash" = "SHA256")
  /\ (get_algorithm "Ethash" = None <-> "Ethash" <> "SHA256").
Proof.
  apply (only_sha256_is_supported "Ethash").
  unfold list_algorithms, algorithms. cbn [In]. tauto.
Defined.

End Algorithms.

Section Mining.
Import Optimizer Miner.

Variable hash : list Byte.byte -> list Byte.byte.

Lemma check_difficulty_none (h : list Byte.byte) (target : pyval) :
  check_difficulty h target = None -> exists s, target = VStr s.
Proof. destruct target; try discriminate. intros _. now eexists. Qed.

(** What the loop answers, for [count] nonces from [nonce] on. *)
Lemma mine_loop_spec (header : list Byte.byte) (target : pyval) (w : string)
    (tried : Z) (count : nat) :
  forall nonce,
  match mine_loop hash header target w tried count nonce with
  | Some result =>
      (exists n packed,
          result = valid_result n (hash (header_with_nonce header packed)) w
          /\ pack_u32_le n = Some packed
          /\ check_difficulty (hash (header_with_nonce header packed)) target
             = Some true
          /\ (nonce <= n < nonce + Z.of_nat count)%Z
          /\ forall m, (nonce <= m < n)%Z -> ~ solves hash header target m)
      \/ (result = invalid_result tried
          /\ forall m, (nonce <= m < nonce + Z.of_nat count)%Z ->
               ~ solves hash header target m)
  | None =>
      exists m, (nonce <= m < nonce + Z.of_nat count)%Z
        /\ (forall m', (nonce <= m' < m)%Z -> ~ solves hash header target m')
        /\ (pack_u32_le m = None \/ exists s, target = VStr s)
  end.
Proof.
  induction count as [|count IH]; intros nonce; cbn [mine_loop].
  - right. split; [reflexivity|]. intros m Hm. lia.
  - destruct (pack_u32_le nonce) as [packed|] eqn:P.
    2:{ exists nonce. split; [lia|]. split; [intros; lia|now left]. }
    cbv zeta.
    destruct (check_difficulty _ target) as [[|]|] eqn:C.
    + left. exists nonce, packed. repeat split; try assumption; try lia.
    + assert (Hno : ~ solves hash header target nonce).
      { intros (p' & Hp' & Hc'). rewrite P in Hp'. injection Hp' as <-.
        rewrite C in Hc'. discriminate. }
      assert (Hext : forall b, (forall m, (nonce + 1 <= m < b)%Z ->
                                  ~ solves hash header target m) ->
                     forall m, (nonce <= m < b)%Z ->
                       ~ solves hash header target m).
      { intros b Hb m Hm. destruct (Z.eq_dec m nonce) as [->|Hne];
          [exact Hno|apply Hb; lia]. }
      specialize (IH (nonce + 1)%Z).
      destruct (mine_loop hash header target w tried count (nonce + 1))
        as [result|].
      * destruct IH as [(n & p' & -> & Hp' & Hc' & Hn & Hleast)|[-> Hnone]].
        -- left. exists n, p'. repeat split; try assumption; try lia.
           apply Hext, Hleast.
        -- right. split; [reflexivity|]. intros m Hm.
           apply (Hext (nonce + 1 + Z.of_nat count)%Z Hnone). lia.
      * destruct IH as (m & Hm & Hleast & Hwhy).
        exists m. split; [lia|]. split; [|exact Hwhy]. apply Hext, Hleast.
    + exists nonce. split; [lia|]. split; [intros; lia|].
      right. exact (check_difficulty_none _ _ C).
Qed.

(** X26. The SHA-256 miner.  For a work dict whose [data] decodes to a
    header of at least 80 bytes and whose nonce bounds are integers, [mine]
    tries the nonces of [range(nonce_start, nonce_end)] in increasing order.
    It answers the valid result for the least nonce that solves the work,
    when the nonces up to it fit in 32 bits; it answers the not-valid
    result, with [nonces_tried = nonce_end - nonce_start], when no nonce of
    the range solves the work; and it answers [None] only when the target
    is a string or when it reaches, before any solution, a nonce that
    [struct.pack] cannot write in 32 bits. *)
Theorem mine_finds_least_nonce (work : pydict) (worker_id data : string)
    (header : list Byte.byte) (ns ne : Z) :
  dict_get work "data" (VStr "") = VStr data ->
  fromhex data = Some header ->
  (80 <= length header)%nat ->
  dict_get work "nonce_start" (VInt 0) = VInt ns ->
  dict_get work "nonce_end" (VInt 0xFFFFFFFF) = VInt ne ->
  let target := dict_get work "target" (VInt difficulty_target) in
  match mine hash work worker_id with
  | Some result =>
      (exists n packed,
          result
          = valid_result n (hash (header_with_nonce header packed)) worker_id
          /\ pack_u32_le n = Some packed
          /\ (ns <= n < ne)%Z
          /\ solves hash header target n
          /\ forall m, (ns <= m < n)%Z -> ~ solves hash header target m)
      \/ (result = invalid_result (ne - ns)
          /\ forall m, (ns <= m < ne)%Z -> ~ solves hash header target m)
  | None =>
      exists m, (ns <= m < ne)%Z
        /\ (forall m', (ns <= m' < m)%Z -> ~ solves hash header target m')
        /\ (~ (0 <= m < 2 ^ 32)%Z \/ exists s, target = VStr s)
  end.
Proof.
  intros Hd Hx Hlen Hns Hne target. unfold mine.
  rewrite Hd, Hx, Hns, Hne.
  destruct (Nat.ltb_spec (length header) 80) as [?|_]; [lia|].
  fold target.
  pose proof (mine_loop_spec header target worker_id (ne - ns)
                (Z.to_nat (ne - ns)) ns) as H.
  destruct (mine_loop hash header target worker_id (ne - ns)
              (Z.to_nat (ne - ns)) ns) as [result|].
  - destruct H as [(n & p & -> & Hp & Hc & Hn & Hleast)|[-> Hnone]].
    + left. exists n, p. repeat split; try assumption; try lia.
      now exists p.
    + right. split; [reflexivity|]. intros m Hm. apply Hnone. lia.
  - destruct H as (m & Hm & Hleast & Hwhy).
    exists m. split; [lia|]. split; [exact Hleast|].
    destruct Hwhy as [Hp|Hs]; [left|now right].
    unfold pack_u32_le in Hp.
    destruct (Z.leb_spec 0 m), (Z.ltb_spec m (2 ^ 32)); cbn in Hp;
      try discriminate; lia.
Qed.

End Mining.

Section MiningScenario.
Import Optimizer Miner.

Lemma fromhex_zero_header : fromhex (zeros 160) = Some (repeat Byte.x00 80).
Proof. now vm_compute. Qed.

Lemma mine_finds_least_nonce_witness :
  let work : pydict :=
    <["data" := VStr (zeros 160)]>
    (<["nonce_start" := VInt 0]> (<["nonce_end" := VInt 5]> ∅)) in
  let hash := fun _ : list Byte.byte => @nil Byte.byte in
  match mine hash work "w1" with
  | Some result =>
      (exists n packed,
          result
          = valid_result n
              (hash (header_with_nonce (repeat Byte.x00 80) packed)) "w1"
          /\ pack_u32_le n = Some packed
          /\ (0 <= n < 5)%Z
          /\ solves hash (repeat Byte.x00 80)
               (dict_get work "target" (VInt difficulty_target)) n
          /\ forall m, (0 <= m < n)%Z ->
               ~ solves hash (repeat Byte.x00 80)
                   (dict_get work "target" (VInt difficulty_target)) m)
      \/ (result = invalid_result (5 - 0)
          /\ forall m, (0 <= m < 5)%Z ->
               ~ solves hash (repeat Byte.x00 80)
                   (dict_get work "target" (VInt difficulty_target)) m)
  | None =>
      exists m, (0 <= m < 5)%Z
        /\ (forall m', (0 <= m' < m)%Z ->
              ~ solves hash (repeat Byte.x00 80)
                  (dict_get work "target" (VInt difficulty_target)) m')
        /\ (~ (0 <= m < 2 ^ 32)%Z
            \/ exists s, dict_get work "target" (VInt difficulty_target) = VStr s)
  end.
Proof.
  intros work hash.
  apply (mine_finds_least_nonce hash work "w1" (zeros 160)
           (repeat Byte.x00 80) 0 5).
  - reflexivity.
  - exact fromhex_zero_header.
  - rewrite repeat_length. lia.
  - reflexivity.
  - reflexivity.
Defined.

End MiningScenario.

Section WorkerPipeline.
Import Pool Optimizer PoolIO Miner.

Variable hash : list Byte.byte -> list Byte.byte.

Lemma segment_dict_get_other (work : pydict) (w : string) (a b id : Z)
    (key : string) (d : pyval) :
  key <> "nonce_start" -> key <> "nonce_end" -> key <> "segment_id" ->
  key <> "original_work_id" ->
  dict_get (segment_dict work w a b id) key d = dict_get work key d.
Proof.
  intros H1 H2 H3 H4. unfold dict_get, segment_dict, dict_update. simpl.
  now rewrite !lookup_insert_ne by congruence.
Qed.

Lemma segment_dict_get_range (work : pydict) (w : string) (a b id : Z)
    (d : pyval) :
  dict_get (segment_dict work w a b id) "nonce_start" d = VInt a
  /\ dict_get (segment_dict work w a b id) "nonce_end" d = VInt b.
Proof.
  unfold dict_get, segment_dict, dict_update. simpl. split.
  - rewrite !lookup_insert_ne by discriminate. now rewrite lookup_insert_eq.
  - rewrite !lookup_insert_ne by discriminate. now rewrite lookup_insert_eq.
Qed.

(** Every segment is the work dict with new bounds, inside the range. *)
Lemma segment_loop_shape (fuel : nat) :
  forall work w size ne active cur sid active' segs,
  (0 <= size)%Z ->
  segment_loop fuel work w size ne active cur sid = Some (active', segs) ->
  forall seg, In seg segs ->
    exists a b id, seg = segment_dict work w a b id /\ (cur <= a)%Z /\ (b <= ne)%Z.
Proof.
  induction fuel as [|fuel IH];
    intros work w size ne active cur sid a' segs Hs H seg Hin.
  - simpl in H. destruct (cur <? ne)%Z; [discriminate|].
    injection H as _ <-. destruct Hin.
  - destruct (Z.ltb_spec cur ne) as [Hlt|Hge].
    2:{ rewrite segment_loop_done in H by lia. injection H as _ <-.
        destruct Hin. }
    rewrite segment_loop_step in H by lia. cbv zeta in H.
    destruct (segment_loop fuel _ _ _ _ _ _ _) as [[a1 segs1]|] eqn:E;
      [|discriminate].
    injection H as _ <-. destruct Hin as [<-|Hin].
    + eexists _, _, _. split; [reflexivity|]. lia.
    + destruct (IH _ _ _ _ _ _ _ _ _ Hs E seg Hin) as (a & b & id & -> & Ha & Hb).
      exists a, b, id. split; [reflexivity|]. lia.
Qed.

Lemma mine_on_segment (work : pydict) (w w' data : string)
    (header : list Byte.byte) (a b id : Z) :
  dict_get work "data" (VStr "") = VStr data ->
  fromhex data = Some header ->
  (80 <= length header)%nat ->
  mine hash (segment_dict work w a b id) w'
  = mine_loop hash header (dict_get work "target" (VInt difficulty_target)) w'
      (b - a) (Z.to_nat (b - a)) a.
Proof.
  intros Hd Hx Hlen. unfold mine.
  rewrite (segment_dict_get_other work w a b id "data") by discriminate.
  rewrite (segment_dict_get_other work w a b id "target") by discriminate.
  destruct (segment_dict_get_range work w a b id (VInt 0)) as [-> _].
  destruct (segment_dict_get_range work w a b id (VInt 4294967295)) as [_ ->].
  rewrite Hd, Hx.
  destruct (Nat.ltb_spec (length header) 80) as [?|_]; [lia|reflexivity].
Qed.

Lemma valid_result_fields (n : Z) (h : list Byte.byte) (w : string) :
  dict_get (valid_result n h w) "valid" VNone = VInt 1
  /\ dict_get (valid_result n h w) "nonce" VNone = VInt n.
Proof.
  unfold dict_get, valid_result. split.
  - now rewrite lookup_insert_eq.
  - rewrite lookup_insert_ne by discriminate. now rewrite lookup_insert_eq.
Qed.

Lemma invalid_result_not_valid (k : Z) :
  dict_get (invalid_result k) "valid" VNone <> VInt 1.
Proof.
  unfold dict_get, invalid_result. rewrite lookup_insert_eq. discriminate.
Qed.

(** X27. From segmentation to the miner.  Take a work dict with integer
    nonce bounds and a header, segmented for a worker of non-negative
    efficiency.  When the miner answers a valid result for one of the
    returned segments, the nonce in that result lies in the nonce range of
    the original work and solves the original work: the segments carry the
    work's header and target unchanged and never reach outside
    [[nonce_start, nonce_end)]. *)
Theorem mined_share_solves_work (fuel : nat) (opt opt' : AIOptimizer)
    (work seg result : pydict) (w data : string) (header : list Byte.byte)
    (ns ne base : Z) (segs : list pydict) :
  dict_get work "data" (VStr "") = VStr data ->
  fromhex data = Some header ->
  (80 <= length header)%nat ->
  dict_get work "nonce_start" (VInt 0) = VInt ns ->
  dict_get work "nonce_end" (VInt 0xFFFFFFFF) = VInt ne ->
  _calculate_base_segment_size
    (dict_get work "algorithm" (VStr "SHA256"))
    (dict_get work "target" (VInt diff1_target)) = Ret base ->
  (0 <= efficiency_of opt w)%Q ->
  segment_work fuel opt work w = Segments opt' segs ->
  In seg segs ->
  mine hash seg w = Some result ->
  dict_get result "valid" VNone = VInt 1 ->
  exists n,
    dict_get result "nonce" VNone = VInt n
    /\ (ns <= n < ne)%Z
    /\ solves hash header (dict_get work "target" (VInt difficulty_target)) n.
Proof.
  intros Hd Hx Hlen Hns Hne Hb Heff Hseg Hin Hmine Hvalid.
  unfold segment_work in Hseg. rewrite Hb, Hns, Hne in Hseg.
  destruct (segment_loop fuel _ _ _ _ _ _ _) as [[a1 segs1]|] eqn:E;
    [|discriminate].
  injection Hseg as _ <-.
  assert (Hs : (0 <= adjusted_size base (efficiency_of opt w))%Z).
  { apply adjusted_size_nonneg; [|exact Heff].
    exact (base_segment_size_nonneg _ _ _ Hb). }
  destruct (segment_loop_shape fuel _ _ _ _ _ _ _ _ _ Hs E seg Hin)
    as (a & b & id & -> & Ha & Hb').
  rewrite (mine_on_segment work w w data header a b id Hd Hx Hlen) in Hmine.
  pose proof (mine_loop_spec hash header
                (dict_get work "target" (VInt difficulty_target)) w (b - a)
                (Z.to_nat (b - a)) a) as Hspec.
  rewrite Hmine in Hspec.
  destruct Hspec as [(n & p & -> & Hp & Hc & Hn & _)|[-> _]].
  - exists n. split; [apply valid_result_fields|]. split; [lia|].
    now exists p.
  - now apply invalid_result_not_valid in Hvalid.
Qed.

(** Whatever the work, the miner answers one of its two result dicts. *)
Lemma mine_result_shape (work result : pydict) (w : string) :
  mine hash work w = Some result ->
  (exists n h, result = valid_result n h w) \/ exists k, result = invalid_result k.
Proof.
  unfold mine. intros H.
  destruct (dict_get work "data" _) as [| | |data]; try discriminate.
  destruct (fromhex data) as [header|]; [|discriminate].
  destruct (length header <? 80)%nat; [discriminate|].
  destruct (dict_get work "nonce_start" _) as [|ns| |]; try discriminate.
  destruct (dict_get work "nonce_end" _) as [|ne| |]; try discriminate.
  pose proof (mine_loop_spec hash header
                (dict_get work "target" (VInt difficulty_target)) w (ne - ns)
                (Z.to_nat (ne - ns)) ns) as Hspec.
  rewrite H in Hspec.
  destruct Hspec as [(n & p & -> & _)|[-> _]].
  - left. now eexists _, _.
  - right. now eexists.
Qed.

(** X28. From the miner to the pool.  The worker loop hands the miner's
    valid result to [submit_share], which reads the share's fields from it
    with defaults.  The result dict has no [job_id], [extranonce2] or
    [ntime] entry and holds the nonce as an integer, so the parameters of
    the [mining.submit] message are always: the pool's user name, an empty
    job id, the default extranonce2 ["00000000"], the current time as
    [ntime], and the nonce as the integer the miner found. *)
Theorem submitted_share_params (work result : pydict) (w ntime_default : string)
    (p : PoolConnection) :
  mine hash work w = Some result ->
  dict_get result "valid" VNone = VInt 1 ->
  exists n,
    dict_get result "nonce" VNone = VInt n
    /\ submit_params p result ntime_default
       = [VStr (username p); VStr ""; VStr "00000000"; VStr ntime_default;
          VInt n].
Proof.
  intros Hmine Hvalid.
  destruct (mine_result_shape work result w Hmine) as [(n & h & ->)|(k & ->)].
  2:{ now apply invalid_result_not_valid in Hvalid. }
  exists n. split; [apply valid_result_fields|].
  unfold submit_params, dict_get, valid_result.
  rewrite !(lookup_insert_ne _ _ "job_id") by discriminate.
  rewrite !(lookup_insert_ne _ _ "extranonce2") by discriminate.
  rewrite !(lookup_insert_ne _ _ "ntime") by discriminate.
  rewrite (lookup_insert_ne _ "valid" "nonce") by discriminate.
  rewrite lookup_insert_eq, !lookup_empty. reflexivity.
Qed.

(** X29. The worker loop calls [record_rejection] when [submit_share]
    answers false.  That answer means that [pool_url] selects no pool or a
    pool that is not connected: nothing was sent or counted, and [get_work]
    on the same manager finds no work for that [pool_url].  So a turn of
    the loop that got work reaches [record_rejection] only if the pool's
    connection was lost in between. *)
Theorem submit_failure_means_no_work (pm : PoolManager) (h : store)
    (pool_url : string) (result : pydict) (o : send_outcome) :
  (submit_share pm pool_url result o).2 = false ->
  submit_share pm pool_url result o = (pm, false)
  /\ get_work pm h pool_url = (h, Ret None).
Proof.
  unfold submit_share, get_work.
  destruct (find_pool pm pool_url) as [p|]; [|now split].
  destruct (connected p); cbn [negb snd]; [discriminate|now split].
Qed.

End WorkerPipeline.

Section WorkerPipelineScenario.
Import Pool Optimizer PoolIO Miner.

Lemma mined_share_solves_work_witness :
  let work : pydict :=
    <["data" := VStr (zeros 160)]>
    (<["nonce_start" := VInt 0]> (<["nonce_end" := VInt 5]> ∅)) in
  let hash := fun _ : list Byte.byte => @nil Byte.byte in
  exists n,
    dict_get (valid_result 0 [] "w1") "nonce" VNone = VInt n
    /\ (0 <= n < 5)%Z
    /\ solves hash (repeat Byte.x00 80)
         (dict_get work "target" (VInt difficulty_target)) n.
Proof.
  intros work hash.
  assert (Hb : _calculate_base_segment_size
                 (dict_get work "algorithm" (VStr "SHA256"))
                 (dict_get work "target" (VInt diff1_target)) = Ret 1000000%Z)
    by now vm_compute.
  assert (Heff : (0 <= efficiency_of (init (1 # 10)) "w1")%Q)
    by (vm_compute; discriminate).
  assert (E : exists opt',
             segment_work 5 (init (1 # 10)) work "w1"
             = Segments opt' [segment_dict work "w1" 0 5 0]).
  { unfold segment_work. rewrite Hb.
    change (adjusted_size 1000000 (efficiency_of (init (1 # 10)) "w1"))
      with 1000000%Z.
    change (dict_get work "nonce_start" (VInt 0)) with (VInt 0).
    change (dict_get work "nonce_end" (VInt 4294967295)) with (VInt 5).
    cbv iota beta.
    rewrite segment_loop_step by lia. cbv zeta.
    change (Z.min (0 + 1000000) 5)%Z with 5%Z.
    rewrite segment_loop_done by lia.
    eexists. reflexivity. }
  destruct E as (opt' & E).
  assert (Hlen : (80 <= length (repeat Byte.x00 80))%nat)
    by (rewrite repeat_length; lia).
  assert (Hmine : mine hash (segment_dict work "w1" 0 5 0) "w1"
                  = Some (valid_result 0 [] "w1")).
  { rewrite (mine_on_segment hash work "w1" "w1" (zeros 160)
               (repeat Byte.x00 80) 0 5 0 eq_refl fromhex_zero_header Hlen).
    reflexivity. }
  exact (mined_share_solves_work hash 5 (init (1 # 10)) opt' work
           (segment_dict work "w1" 0 5 0) (valid_result 0 [] "w1") "w1"
           (zeros 160) (repeat Byte.x00 80) 0 5 1000000 _
           eq_refl fromhex_zero_header Hlen eq_refl eq_refl Hb Heff E
           (or_introl eq_refl) Hmine
           (proj1 (valid_result_fields 0 [] "w1"))).
Defined.

Lemma submitted_share_params_witness :
  let work : pydict :=
    <["data" := VStr (zeros 160)]>
    (<["nonce_start" := VInt 0]> (<["nonce_end" := VInt 5]> ∅)) in
  let hash := fun _ : list Byte.byte => @nil Byte.byte in
  let p := new_connection "poolA" "pool.example.com" 3333 "user" "x" in
  exists n,
    dict_get (valid_result 0 [] "w1") "nonce" VNone = VInt n
    /\ submit_params p (valid_result 0 [] "w1") "65a0"
       = [VStr (username p); VStr ""; VStr "00000000"; VStr "65a0"; VInt n].
Proof.
  intros work hash p.
  assert (Hmine : mine hash work "w1" = Some (valid_result 0 [] "w1")).
  { unfold mine.
    change (dict_get work "data" (VStr "")) with (VStr (zeros 160)).
    cbv beta iota.
    rewrite fromhex_zero_header, repeat_length.
    change (dict_get work "nonce_start" (VInt 0)) with (VInt 0).
    change (dict_get work "nonce_end" (VInt 4294967295)) with (VInt 5).
    reflexivity. }
  exact (submitted_share_params hash work (valid_result 0 [] "w1") "w1" "65a0"
           p Hmine (proj1 (valid_result_fields 0 [] "w1"))).
Defined.

Lemma submit_failure_means_no_work_witness :
  let pm := {| pools := []; active_work := ∅; shares_submitted := 0;
               shares_accepted := 0; shares_rejected := 0 |} in
  submit_share pm "pool.example.com" ∅ Sent = (pm, false)
  /\ get_work pm ∅ "pool.example.com" = (∅, Ret None).
Proof.
  intros pm.
  exact (submit_failure_means_no_work pm ∅ "pool.example.com" ∅ Sent eq_refl).
Defined.

End WorkerPipelineScenario.

Section RejectionFeedback.
Import Optimizer.

Lemma adjusted_size_mono (base : Z) (e e' : Q) :
  (0 <= base)%Z -> (0 <= e')%Q -> (e' <= e)%Q ->
  (adjusted_size base e' <= adjusted_size base e)%Z.
Proof.
  intros Hb He' Hle. unfold adjusted_size.
  assert (Hq : (0 <= inject_Z base)%Q).
  { change 0%Q with (inject_Z 0). now rewrite <- Zle_Qle. }
  assert (H1 : (0 <= inject_Z base * e')%Q) by now apply Qmult_le_0_compat.
  assert (H2 : (inject_Z base * e' <= inject_Z base * e)%Q).
  { rewrite !(Qmult_comm (inject_Z base)). now apply Qmult_le_compat_r. }
  rewrite !py_int_floor by lra.
  now apply Qfloor_resp_le.
Qed.

(** The first segment starts at the current nonce and is one adjusted size
    long, unless the range ends before. *)
Lemma first_segment_range (fuel : nat) work w size ne active cur sid active'
    seg rest :
  segment_loop fuel work w size ne active cur sid = Some (active', seg :: rest) ->
  segment_range seg = Some (cur, Z.min (cur + size) ne).
Proof.
  intros H. destruct fuel as [|fuel]; simpl in H.
  - destruct (cur <? ne)%Z; discriminate.
  - destruct (cur <? ne)%Z; [|discriminate].
    destruct (segment_loop fuel _ _ _ _ _ _ _) as [[a1 segs1]|];
      [|discriminate].
    injection H as _ <- _. rewrite py_minZ_min. apply segment_dict_range.
Qed.

(** X30. From a rejection to the next segmentation.  After
    [record_rejection] for a worker whose efficiency is at least 0.1 (as it
    is after any sequence of reports), the segments that [segment_work]
    cuts for that worker from the same work are not longer than before: the
    first segment starts at the same nonce and ends no later. *)
Theorem rejection_shrinks_segments (f1 f2 : nat) (opt o1 o2 : AIOptimizer)
    (work result : pydict) (w : string) (now : Q) (ns ne base : Z)
    (s1 s2 : pydict) (r1 r2 : list pydict) :
  dict_get work "nonce_start" (VInt 0) = VInt ns ->
  dict_get work "nonce_end" (VInt 0xFFFFFFFF) = VInt ne ->
  _calculate_base_segment_size
    (dict_get work "algorithm" (VStr "SHA256"))
    (dict_get work "target" (VInt diff1_target)) = Ret base ->
  (1 # 10 <= efficiency_of opt w)%Q ->
  segment_work f1 opt work w = Segments o1 (s1 :: r1) ->
  segment_work f2 (record_rejection opt result w now) work w
    = Segments o2 (s2 :: r2) ->
  exists e1 e2,
    segment_range s1 = Some (ns, e1)
    /\ segment_range s2 = Some (ns, e2)
    /\ (e2 <= e1)%Z.
Proof.
  intros Hns Hne Hb Heff H1 H2.
  unfold segment_work in H1, H2. rewrite Hb, Hns, Hne in H1, H2.
  rewrite eff_rejection in H2.
  destruct (decide (w = w)) as [_|]; [|contradiction].
  destruct (segment_loop f1 _ _ _ _ _ _ _) as [[a1 segs1]|] eqn:E1;
    [|discriminate].
  destruct (segment_loop f2 _ _ _ _ _ _ _) as [[a2 segs2]|] eqn:E2;
    [|discriminate].
  injection H1 as _ ->. injection H2 as _ ->.
  apply first_segment_range in E1, E2.
  eexists _, _. split; [exact E1|]. split; [exact E2|].
  assert (Hbase : (0 <= base)%Z) by exact (base_segment_size_nonneg _ _ _ Hb).
  assert (Hle : (adjusted_size base
                   (py_max (1 # 10) (efficiency_of opt w * (98 # 100)))
                 <= adjusted_size base (efficiency_of opt w))%Z).
  { apply adjusted_size_mono; [exact Hbase| |];
      unfold py_max; destruct (Qlt_le_dec _ _); lra. }
  lia.
Qed.

Lemma rejection_shrinks_segments_witness :
  let work : pydict := <["nonce_start" := VInt 0]> (<["nonce_end" := VInt 1500000]> ∅) in
  exists e1 e2,
    segment_range (segment_dict work "w1" 0 1000000 0) = Some (0%Z, e1)
    /\ segment_range (segment_dict work "w1" 0 980000 0) = Some (0%Z, e2)
    /\ (e2 <= e1)%Z.
Proof.
  intros work.
  assert (Hb : _calculate_base_segment_size
                 (dict_get work "algorithm" (VStr "SHA256"))
                 (dict_get work "target" (VInt diff1_target)) = Ret 1000000%Z)
    by now vm_compute.
  assert (Heff : (1 # 10 <= efficiency_of (init (1 # 10)) "w1")%Q)
    by (vm_compute; discriminate).
  assert (Hstep : forall (opt : AIOptimizer) size,
            adjusted_size 1000000 (efficiency_of opt "w1") = size ->
            (0 < size)%Z -> (size + 1 + size >= 1500000)%Z ->
            (size + 1 < 1500000)%Z ->
            exists o r,
              segment_work 2 opt work "w1"
              = Segments o (segment_dict work "w1" 0 size 0 :: r)).
  { intros opt size Hsz Hpos Hbig Hlt. unfold segment_work. rewrite Hb, Hsz.
    change (dict_get work "nonce_start" (VInt 0)) with (VInt 0).
    change (dict_get work "nonce_end" (VInt 4294967295)) with (VInt 1500000).
    cbv iota beta.
    rewrite segment_loop_step by lia. cbv zeta.
    replace (Z.min (0 + size) 1500000) with size by lia.
    rewrite segment_loop_step by lia. cbv zeta.
    rewrite segment_loop_done by lia.
    eexists _, _. reflexivity. }
  destruct (Hstep (init (1 # 10)) 1000000%Z) as (o1 & r1 & E1);
    [now vm_compute|lia..|].
  destruct (Hstep (record_rejection (init (1 # 10)) ∅ "w1" 0) 980000%Z)
    as (o2 & r2 & E2); [now vm_compute|lia..|].
  exact (rejection_shrinks_segments 2 2 (init (1 # 10)) o1 o2 work ∅ "w1" 0
           0 1500000 1000000 _ _ r1 r2 eq_refl eq_refl Hb Heff E1 E2).
Defined.

End RejectionFeedback.
